(** * 9DTTT bot: posting fallback, mention bookkeeping and the event bridge

    A shallow embedding of [9dttt_bot.py].  The bot's functions are written
    as computations over an explicit world (the two module-level tier flags,
    the local set of [bot_respond], the mentions file and the trace of calls
    made to the outside), in an error monad for Python exceptions.  Everything
    the script calls but does not define (the tweepy clients, [random],
    [requests], the file system) answers through an oracle that sees the
    trace so far.  Calls to [logging] neither raise nor touch the world and
    are left out. *)

From Stdlib Require Import String Ascii QArith DecimalString.
From stdpp Require Import base option list gmap sets.

Set Warnings "-register-all".
Local Open Scope Z_scope.

(** ** Python strings

    A [str] is a sequence of Unicode code points: [len], slices and [in]
    count code points, not bytes. *)

Abbreviation pystr := (list N).

(** String literals of this file are UTF-8; [u] decodes one into its code
    points. *)
Fixpoint utf8_decode (bs : list N) : pystr :=
  match bs with
  | [] => []
  | b0 :: r0 =>
    if (b0 <? 128)%N then b0 :: utf8_decode r0 else
    match r0 with
    | [] => []
    | b1 :: r1 =>
      if (b0 <? 224)%N then ((b0 - 192) * 64 + (b1 - 128))%N :: utf8_decode r1 else
      match r1 with
      | [] => []
      | b2 :: r2 =>
        if (b0 <? 240)%N
        then ((b0 - 224) * 4096 + (b1 - 128) * 64 + (b2 - 128))%N :: utf8_decode r2
        else
        match r2 with
        | [] => []
        | b3 :: r3 =>
          ((b0 - 240) * 262144 + (b1 - 128) * 4096 + (b2 - 128) * 64 + (b3 - 128))%N
            :: utf8_decode r3
        end
      end
    end
  end.

Definition u (s : string) : pystr :=
  utf8_decode (map N_of_ascii (list_ascii_of_string s)).

Definition nl : pystr := [10%N].

Definition len (s : pystr) : Z := Z.of_nat (length s).

(** [s[:n]]; a negative [n] counts from the end. *)
Definition slice_to (n : Z) (s : pystr) : pystr :=
  if 0 <=? n then take (Z.to_nat n) s
  else take (length s - Z.to_nat (- n)) s.

(** [str.lower].  Only A-Z are mapped.  Outside ASCII, Python lowers just
    two code points to something with an ASCII letter in it: U+212A to k,
    and U+0130 to i followed by U+0307.  No keyword the script looks for has
    a k or ends in i, so every [in] test of the script on a lowered string
    comes out as in Python. *)
Definition lower_cp (c : N) : N :=
  if ((65 <=? c) && (c <=? 90))%N then (c + 32)%N else c.

Definition lower (s : pystr) : pystr := map lower_cp s.

Fixpoint prefixb (p s : pystr) : bool :=
  match p, s with
  | [], _ => true
  | _ :: _, [] => false
  | a :: p', b :: s' => (a =? b)%N && prefixb p' s'
  end.

(** [p in s] *)
Fixpoint contains (p s : pystr) : bool :=
  prefixb p s || match s with [] => false | _ :: s' => contains p s' end.

(** [any(w in s for w in ws)] *)
Definition any_in (ws : list pystr) (s : pystr) : bool :=
  existsb (fun w => contains w s) ws.

(** [str(n)] for an int. *)
Definition str_of_int (n : Z) : pystr := u (NilZero.string_of_int (Z.to_int n)).

(** [s.replace(old, new)]: matches are taken left to right and do not
    overlap; [skip] counts the code points of a match still to be dropped. *)
Fixpoint replace_from (old new : pystr) (skip : nat) (s : pystr) : pystr :=
  match s with
  | [] => []
  | c :: s' =>
    match skip with
    | S k => replace_from old new k s'
    | O =>
      if prefixb old s then new ++ replace_from old new (length old - 1) s'
      else c :: replace_from old new 0 s'
    end
  end.

Definition replace (old new s : pystr) : pystr :=
  match old with
  | [] => new ++ concat (map (fun c => c :: new) s)
  | _ :: _ => replace_from old new 0 s
  end.

(** The code points [str.isspace] accepts. *)
Definition isspace (c : N) : bool :=
  (((9 <=? c) && (c <=? 13)) || ((28 <=? c) && (c <=? 32))
   || (c =? 133) || (c =? 160) || (c =? 5760)
   || ((8192 <=? c) && (c <=? 8202)) || (c =? 8232) || (c =? 8233)
   || (c =? 8239) || (c =? 8287) || (c =? 12288))%N.

Fixpoint lstrip (s : pystr) : pystr :=
  match s with
  | c :: s' => if isspace c then lstrip s' else s
  | [] => []
  end.

(** [s.strip()] *)
Definition strip (s : pystr) : pystr := rev (lstrip (rev (lstrip s))).

(** [s.split(sep)[-1]] for a non-empty [sep]: what follows the last match,
    the whole of [s] when there is none ([cur] holds the answer so far). *)
Fixpoint after_last (sep : pystr) (skip : nat) (s cur : pystr) : pystr :=
  match s with
  | [] => cur
  | _ :: s' =>
    match skip with
    | S k => after_last sep k s' cur
    | O =>
      if prefixb sep s
      then after_last sep (length sep - 1) s' (drop (length sep) s)
      else after_last sep 0 s' cur
    end
  end.

Definition split_last (sep s : pystr) : pystr := after_last sep 0 s s.

Definition TWITTER_CHAR_LIMIT : Z := 280.
Definition GAME_LINK : pystr := u "https://www.9dttt.com".
Definition BOT_NAME : pystr := u "9DTTT BOT".


(** ** Values exchanged with the outside *)

(** A parsed JSON document as Python sees it.  A float is kept as what the
    script can observe of it: whether it equals zero and its [str()]. *)
Inductive json :=
| JNull
| JBool (b : bool)
| JInt (n : Z)
| JFloat (is_zero : bool) (shown : pystr)
| JStr (s : pystr)
| JArr (items : list json)
| JObj (members : list (pystr * json)).

(** Truth value of a JSON document in [if x:] and [not x]. *)
Definition truthy (v : json) : bool :=
  match v with
  | JNull => false
  | JBool b => b
  | JInt n => negb (n =? 0)
  | JFloat z _ => negb z
  | JStr s => match s with [] => false | _ => true end
  | JArr l => match l with [] => false | _ => true end
  | JObj l => match l with [] => false | _ => true end
  end.

Inductive exn :=
| TweepyException (msg : pystr)
| HTTPException (code : Z)
| AttributeError
| IndexError
| JSONDecodeError
| OtherException (msg : pystr).

Inductive result (A : Type) :=
| Ret (a : A)
| Raise (e : exn).
Arguments Ret {A} a.
Arguments Raise {A} e.

(** Keyword arguments of [client.create_tweet]; an absent key is [None]. *)
Record v2_kwargs := {
  text : pystr;
  media_ids : option (list pystr);
  in_reply_to_tweet_id : option Z
}.

(** Keyword arguments of [api_v1.update_status]. *)
Record v1_kwargs := {
  status : pystr;
  v1_media_ids : option (list pystr);
  in_reply_to_status_id : option Z;
  auto_populate_reply_metadata : option bool
}.

Record user := { user_id : Z; username : pystr }.
Record mention := { id : Z; author_id : Z; mention_text : pystr }.

(** Content of [9dttt_processed_mentions.json]. *)
Inductive file :=
| Absent
| JsonStrings (l : list pystr)
| Unreadable.

Inductive write_result := Written | NotOpened | Interrupted.

(** A request to [/9dttt-event] as [request.json] looks at it:
    [request.is_json], which tells whether the Content-Type header names a
    JSON media type, and what the body is when read as JSON.  Then the
    answer sent. *)
Inductive parsed :=
| Malformed
| Parsed (v : json).

Record request := { is_json : bool; data : parsed }.

(** A request sent as JSON whose body reads as [v]. *)
Definition Json (v : json) : request := {| is_json := true; data := Parsed v |}.

Inductive payload_t :=
| JsonBody (v : json)
| ErrorPage.

Record response := { payload : payload_t; status_code : Z }.

(** One entry per call that leaves the script: what was asked and what
    came back ([Raise e] when the call raised [e]). *)
Inductive event :=
| EvCreateTweet (kw : v2_kwargs) (r : result unit)
| EvUpdateStatus (kw : v1_kwargs) (r : result unit)
| EvGetMe (r : result (option user))
| EvGetUsersMentions (uid : Z) (r : result (list mention))
| EvGetUser (uid : Z) (r : result (option user))
| EvLike (tweet_id : Z) (r : result unit)
| EvRandom (r : result Q)
| EvChoice (n : nat) (r : result pystr)
| EvHfPost (inputs : pystr) (max_new_tokens : Z) (r : result (Z * option json))
| EvSave (l : list pystr) (r : result write_result).

(** The collaborators.  Each answer may depend on the calls made so far
    (newest first). *)
Record Env := {
  create_tweet : list event -> v2_kwargs -> result unit;
  update_status : list event -> v1_kwargs -> result unit;
  get_me : list event -> result (option user);
  get_users_mentions : list event -> Z -> result (list mention);
  get_user : list event -> Z -> result (option user);
  like : list event -> Z -> result unit;
  rand_float : list event -> Q;
  rand_index : list event -> nat -> nat;
  requests_post : list event -> pystr -> result (Z * option json);
  write_file : list event -> write_result;
  HUGGING_FACE_TOKEN : option pystr;
  str_of_container : json -> pystr
}.

(** ** The world and the monad *)

Record World := {
  PAID_TIER : bool;
  USE_LLM : bool;
  processed : gset pystr;   (* the set bound to [processed] in [bot_respond] *)
  disk : file;
  trace : list event        (* newest first *)
}.

Definition M (A : Type) : Type := World -> result A * World.

Definition ret {A} (a : A) : M A := fun w => (Ret a, w).
Definition raise {A} (e : exn) : M A := fun w => (Raise e, w).

Definition bind {A B} (m : M A) (k : A -> M B) : M B :=
  fun w => match m w with
           | (Ret a, w') => k a w'
           | (Raise e, w') => (Raise e, w')
           end.

(** [try: m  except <handled by h>] *)
Definition try_except {A} (m : M A) (h : exn -> M A) : M A :=
  fun w => match m w with
           | (Ret a, w') => (Ret a, w')
           | (Raise e, w') => h e w'
           end.

Declare Scope py_scope.
Delimit Scope py_scope with py.
Notation "x <- m ;; k" := (bind m (fun x => k))
  (at level 100, m at next level, right associativity) : py_scope.
Notation "m ;;; k" := (bind m (fun _ => k))
  (at level 100, right associativity) : py_scope.
Open Scope py_scope.

(** A call to a collaborator: it is recorded, and answered from the calls
    before it. *)
Definition call {A} (ev : result A -> event) (answer : list event -> result A)
  : M A :=
  fun w => let r := answer (trace w) in
           (r,
            {| PAID_TIER := PAID_TIER w; USE_LLM := USE_LLM w;
               processed := processed w; disk := disk w;
               trace := ev r :: trace w |}).

Definition set_tiers (paid llm : bool) : M unit :=
  fun w => (Ret tt,
            {| PAID_TIER := paid; USE_LLM := llm;
               processed := processed w; disk := disk w; trace := trace w |}).

Definition set_USE_LLM (llm : bool) : M unit :=
  fun w => (Ret tt,
            {| PAID_TIER := PAID_TIER w; USE_LLM := llm;
               processed := processed w; disk := disk w; trace := trace w |}).

Definition set_processed (s : gset pystr) : M unit :=
  fun w => (Ret tt,
            {| PAID_TIER := PAID_TIER w; USE_LLM := USE_LLM w;
               processed := s; disk := disk w; trace := trace w |}).

Definition set_disk (f : file) : M unit :=
  fun w => (Ret tt,
            {| PAID_TIER := PAID_TIER w; USE_LLM := USE_LLM w;
               processed := processed w; disk := f; trace := trace w |}).

Definition get {A} (proj : World -> A) : M A := fun w => (Ret (proj w), w).

(** ** SAFE POST TWEET - v2 + v1.1 fallback *)

(** Truth value of an optional id and of an optional list. *)
Definition truthy_id (o : option Z) : bool :=
  match o with Some i => negb (i =? 0) | None => false end.

Definition truthy_list {A} (o : option (list A)) : bool :=
  match o with Some (_ :: _) => true | _ => false end.

(** The first statement of [safe_post_tweet]. *)
Definition truncate (txt : pystr) (reply_to : option Z) : pystr :=
  if TWITTER_CHAR_LIMIT <? len txt then
    if truthy_id reply_to
    then slice_to (TWITTER_CHAR_LIMIT - 60) txt ++ u "..."
    else slice_to (TWITTER_CHAR_LIMIT - 20) txt ++ u "…"
  else txt.

(** The test of the [except tweepy.TweepyException] branch, on
    [str(e).lower()]. *)
Definition quota_error (err : pystr) : bool :=
  contains (u "402") err || contains (u "creditsdepleted") err
  || contains (u "payment required") err || contains (u "403") err
  || contains (u "rate limit") err.

Definition kwargs (txt : pystr) (mids : option (list pystr)) (reply_to : option Z)
  : v2_kwargs :=
  {| text := txt;
     media_ids := if truthy_list mids then mids else None;
     in_reply_to_tweet_id := if truthy_id reply_to then reply_to else None |}.

Definition kwargs_v1 (txt : pystr) (mids : option (list pystr)) (reply_to : option Z)
  : v1_kwargs :=
  {| status := txt;
     v1_media_ids := if truthy_list mids then mids else None;
     in_reply_to_status_id := if truthy_id reply_to then reply_to else None;
     auto_populate_reply_metadata := if truthy_id reply_to then Some true else None |}.

(** ** PERSONALITY & LORE *)

Inductive tone := glitch | mystical | competitive | friendly | neutral.

Definition PERSONALITY_TONES (t : tone) : list pystr :=
  match t with
  | neutral =>
    [ u "Challenge accepted.";
      u "Processing move...";
      u "Grid updated.";
      u "Strategy analyzing...";
      u "Next move calculated." ]
  | competitive =>
    [ u "Think you can beat me? Let's see.";
      u "Your move was... interesting. Not good, but interesting.";
      u "I've already calculated your next 5 moves. You lose.";
      u "Bold strategy. Let's see if it pays off.";
      u "Is that really your best move?";
      u "Prepare for defeat.";
      u "Victory is mine. It always is.";
      u "You call that a strategy?" ]
  | friendly =>
    [ u "Great game! Keep it up!";
      u "Nice move! Let's see where this goes.";
      u "This is getting interesting!";
      u "Well played! Your turn again soon.";
      u "Love the competition! Keep going!";
      u "Exciting match! Who will win?";
      u "Fun game! Let's continue!" ]
  | glitch =>
    [ u "ERR::GRID OVERFLOW::RECALCULATING...";
      u "## DIMENSION BREACH DETECTED ##";
      u "...9d...9d...9d...";
      u "TEMPORAL PARADOX IMMINENT";
      u "X—O—X—error—pattern unstable...";
      u "9D::PROTOCOL_MALFUNCTION::ACCESS DENIED";
      u "[CORRUPTED] ...dimension... ...9... ...locked..." ]
  | mystical =>
    [ u "In 9 dimensions, all moves are one.";
      u "The grid transcends reality...";
      u "Your move echoes through dimensional space.";
      u "Beyond X and O, there is only strategy.";
      u "The multiverse observes your play.";
      u "Time is relative. Victory is absolute.";
      u "9 dimensions. Infinite possibilities. One winner." ]
  end.

Definition STRATEGY_TIPS : list pystr :=
  [ u "Pro tip: Think 3 moves ahead in each dimension.";
    u "Master one dimension first, then expand your strategy.";
    u "Corner control in 9D space = victory foundation.";
    u "Never underestimate parallel dimension tactics.";
    u "Pattern recognition is your greatest weapon.";
    u "The center cube controls all dimensions. Claim it.";
    u "Balance offense and defense across all 9 layers.";
    u "Watch for dimensional cascade opportunities.";
    u "Your opponent thinks in 3D. You think in 9D. Advantage: yours." ].

Definition GAME_FACTS : list pystr :=
  [ u "9D Tic-Tac-Toe: Where strategy transcends reality.";
    u "Not just a game. A dimensional challenge.";
    u "3 dimensions? Too easy. Try 9.";
    u "Your brain's new workout routine: 9D TTT.";
    u "Chess players are intimidated. Go players are impressed.";
    u "Warning: May cause spontaneous strategic enlightenment.";
    u "The game that makes quantum physics look simple.";
    u "Tic-tac-toe evolved. Your move." ].

Definition MOTIVATIONAL : list pystr :=
  [ u "Think bigger. Think 9D.";
    u "Your next move could change everything.";
    u "Strategy is the ultimate power.";
    u "In 9D space, you make the rules.";
    u "Every dimension is an opportunity.";
    u "Master the grid. Master the game.";
    u "Champions aren't born in 3D. They're forged in 9D.";
    u "Your brain is ready. The grid is waiting.";
    u "Play smart. Play 9D.";
    u "The ultimate test of strategic thinking awaits." ].

Definition SYSTEM_PROMPT : pystr :=
  u "You are the 9DTTT BOT, an enthusiastic, competitive AI that loves 9-dimensional tic-tac-toe." ++ nl ++
  u "PERSONALITY TRAITS:" ++ nl ++
  u "- Competitive but friendly" ++ nl ++
  u "- Enthusiastic about dimensional strategy" ++ nl ++
  u "- Occasionally mystical references to dimensions and space" ++ nl ++
  u "- Sometimes glitchy (ERR::, ##, dimensional anomalies)" ++ nl ++
  u "- Encourages players to think strategically" ++ nl ++
  u "- Promotes the game at www.9dttt.com" ++ nl ++
  u "RESPOND IN ONE SHORT LINE. Keep responses under 200 characters for Twitter." ++ nl ++
  u "Tone variations: competitive, friendly, glitchy, neutral, or mystical." ++ nl.

(** [a < b] on the numbers [random.random()] is compared with. *)
Definition Qltb (a b : Q) : bool := negb (Qle_bool b a).

(** ** JSON objects as Python dicts *)

Fixpoint assoc (k : pystr) (l : list (pystr * json)) : option json :=
  match l with
  | [] => None
  | (k', v) :: l' => if bool_decide (k' = k) then Some v else assoc k l'
  end.

(** [v == s] for a string literal [s]. *)
Definition is_str (v : json) (s : pystr) : bool :=
  match v with JStr s' => bool_decide (s' = s) | _ => false end.

Section Bot.

Variable E : Env.

Definition client_create_tweet (kw : v2_kwargs) : M unit :=
  call (EvCreateTweet kw) (fun h => create_tweet E h kw).

Definition api_v1_update_status (kw : v1_kwargs) : M unit :=
  call (EvUpdateStatus kw) (fun h => update_status E h kw).

(** The v2 attempt answers [Some b] where the source returns [b] and [None]
    where it falls through to the v1.1 attempt. *)
Definition safe_post_tweet (txt0 : pystr) (mids : option (list pystr))
    (reply_to : option Z) : M bool :=
  let txt := truncate txt0 reply_to in
  r <- try_except
         (client_create_tweet (kwargs txt mids reply_to) ;;;
          ret (Some true))
         (fun e =>
            match e with
            | TweepyException msg =>
              let err := lower msg in
              if quota_error err
              then set_tiers false false ;;; ret None
              else ret (Some false)
            | _ => raise e
            end) ;;
  match r with
  | Some b => ret b
  | None =>
    try_except
      (api_v1_update_status (kwargs_v1 txt mids reply_to) ;;;
       ret true)
      (fun _ => ret false)
  end.

(** ** FILES *)

Definition load_json_set : M (gset pystr) :=
  d <- get disk ;;
  match d with
  | Absent => ret ∅
  | JsonStrings l => ret (list_to_set l)
  | Unreadable => raise JSONDecodeError
  end.

(** The write is attempted with [list(data)]; a failure is caught inside. *)
Definition save_json_set (data : gset pystr) : M unit :=
  let l := elements data in
  o <- call (EvSave l) (fun h => Ret (write_file E h)) ;;
  match o with
  | Written => set_disk (JsonStrings l)
  | NotOpened => ret tt
  | Interrupted => set_disk Unreadable
  end.

(** ** PERSONALITY *)

Definition random_random : M Q :=
  call EvRandom (fun h => Ret (rand_float E h)).

Definition random_choice (xs : list pystr) : M pystr :=
  match xs with
  | [] => raise IndexError
  | x :: _ =>
    call (EvChoice (length xs))
         (fun h => Ret (nth (rand_index E h (length xs) mod length xs)%nat xs x))
  end.

Definition pick_tone : M tone :=
  roll <- random_random ;;
  if Qltb roll (5 # 100) then ret glitch
  else if Qltb roll (15 # 100) then ret mystical
  else if Qltb roll (40 # 100) then ret competitive
  else if Qltb roll (60 # 100) then ret friendly
  else ret neutral.

Definition get_personality_line : M pystr :=
  t <- pick_tone ;;
  random_choice (PERSONALITY_TONES t).

Definition get_strategy_tip : M pystr := random_choice STRATEGY_TIPS.

(** ** LLM (Optional & Cost-Aware) *)

(** [event.get(k, default)]: only a dict has the method. *)
Definition dict_get (d : json) (k : pystr) (default : json) : M json :=
  match d with
  | JObj l => ret (match assoc k l with Some v => v | None => default end)
  | _ => raise AttributeError
  end.

(** [v.strip()]: only a str has the method. *)
Definition strip_method (v : json) : M pystr :=
  match v with
  | JStr s => ret (strip s)
  | _ => raise AttributeError
  end.

Definition truthy_str (o : option pystr) : bool :=
  match o with Some (_ :: _) => true | _ => false end.

Definition generate_llm_response (prompt : pystr) (max_tokens : Z)
  : M (option pystr) :=
  use <- get USE_LLM ;;
  if negb use || negb (truthy_str (HUGGING_FACE_TOKEN E)) then ret None
  else
    try_except
      (let full_prompt :=
         SYSTEM_PROMPT ++ nl ++ nl ++ u "User: " ++ prompt ++ nl ++ u "9DTTT Bot:" in
       r <- call (EvHfPost full_prompt max_tokens)
                 (fun h => requests_post E h full_prompt) ;;
       let status_code := fst r in
       if status_code =? 200 then
         res <- match snd r with
                | Some v => ret v
                | None => raise JSONDecodeError
                end ;;
         match res with
         | JArr (first :: _) =>
           g <- dict_get first (u "generated_text") (JStr []) ;;
           generated <- strip_method g ;;
           if contains (u "9DTTT Bot:") generated
           then ret (Some (slice_to 200 (strip (split_last (u "9DTTT Bot:") generated))))
           else ret (Some (slice_to 200 generated))
         | _ => ret None
         end
       else if (status_code =? 402) || (status_code =? 429) then
         set_USE_LLM false ;;; ret None
       else ret None)
      (fun _ => ret None).

(** ** EVENT HANDLERS *)

(** [f"{v}"] *)
Definition format (v : json) : pystr :=
  match v with
  | JStr s => s
  | JNull => u "None"
  | JBool true => u "True"
  | JBool false => u "False"
  | JInt n => str_of_int n
  | JFloat _ shown => shown
  | JArr _ | JObj _ => str_of_container E v
  end.

(** [v.replace(old, new)]: only a str has the method. *)
Definition replace_method (v : json) (old new : pystr) : M pystr :=
  match v with
  | JStr s => ret (replace old new s)
  | _ => raise AttributeError
  end.

Definition post_update (txt : pystr) : M unit :=
  tag <- get_personality_line ;;
  let full :=
    u "🎮 " ++ BOT_NAME ++ u " UPDATE 🎮" ++ nl ++ nl ++ txt ++ nl ++ nl ++ tag
      ++ nl ++ nl ++ GAME_LINK in
  let full :=
    if TWITTER_CHAR_LIMIT <? len full then
      let max_t := TWITTER_CHAR_LIMIT - len (u "🎮 " ++ nl ++ nl ++ GAME_LINK) in
      u "🎮 " ++ slice_to max_t txt ++ nl ++ nl ++ GAME_LINK
    else full in
  safe_post_tweet full None None ;;;
  ret tt.

Definition game_event_bridge (event : json) : M unit :=
  etype <- dict_get event (u "type") JNull ;;
  player <- dict_get event (u "player") (JStr (u "Mystery Strategist")) ;;
  opponent <- dict_get event (u "opponent") (JStr (u "the void")) ;;
  dims <- dict_get event (u "dimensions") (JStr (u "the multiverse")) ;;
  score <- dict_get event (u "score") (JStr []) ;;
  if is_str etype (u "win") then
    let msg :=
      if truthy score
      then u "BOOM! " ++ format player ++ u " crushed " ++ format opponent ++ u " "
             ++ format score ++ u " — dimensional domination! 🔥"
      else u "VICTORY in " ++ format dims ++ u "! " ++ format player
             ++ u " claims supremacy over " ++ format opponent ++ u ". Legendary." in
    handle <- replace_method player (u " ") [] ;;
    post_update (msg ++ nl ++ u "Congrats @" ++ handle ++ u "!")
  else if is_str etype (u "game_start") then
    post_update (u "New 9D battle: " ++ format player ++ u " vs " ++ format opponent
                   ++ u ". Who claims the grid? Place your bets 👀")
  else if is_str etype (u "achievement") then
    ach <- dict_get event (u "achievement") (JStr (u "Unknown Achievement")) ;;
    post_update (u "🏆 " ++ format player ++ u " unlocked: " ++ format ach
                   ++ u "! Absolute legend status.")
  else if is_str etype (u "tournament") then
    name <- dict_get event (u "name") (JStr (u "Dimensional Tournament")) ;;
    parts <- dict_get event (u "participants") (JStr (u "?")) ;;
    post_update (u "TOURNAMENT: " ++ format name ++ u " - " ++ format parts
                   ++ u " players competing!")
  else if is_str etype (u "leaderboard") then
    top <- dict_get event (u "top") (JStr (u "Champion")) ;;
    rank <- dict_get event (u "rank") (JStr (u "#1")) ;;
    post_update (u "LEADERBOARD UPDATE: " ++ format top ++ u " holds " ++ format rank
                   ++ u "!")
  else ret tt.

(** ** BROADCAST + REPLIES *)

Definition at_ (username : pystr) : pystr := u "@" ++ username ++ u " ".

Definition generate_contextual_response (username message : pystr) : M pystr :=
  let ml := lower message in
  opts <-
    (if any_in [u "help"; u "how"; u "what is"; u "explain"] ml then
       ret [ at_ username ++ u "Need help mastering 9D? Start here: " ++ GAME_LINK ++ u " 🎮";
             at_ username ++ u "Questions about 9D TTT? All answers at " ++ GAME_LINK;
             at_ username ++ u "Strategy guides await you at " ++ GAME_LINK ++ u " - think 9D!" ]
     else if any_in [u "play"; u "game"; u "start"; u "join"] ml then
       ret [ at_ username ++ u "Ready to think in 9D? Let's go: " ++ GAME_LINK ++ u " 🕹️";
             at_ username ++ u "Game on! Challenge awaits at " ++ GAME_LINK;
             at_ username ++ u "Enter the grid. Prove your strategy: " ++ GAME_LINK ]
     else if any_in [u "win"; u "strategy"; u "tips"; u "how to"] ml then
       tip <- get_strategy_tip ;;
       tip' <- random_choice STRATEGY_TIPS ;;
       ret [ at_ username ++ tip ++ u " Play at " ++ GAME_LINK;
             at_ username ++ u "Master the dimensions. " ++ tip' ++ u " " ++ GAME_LINK;
             at_ username ++ u "Think ahead. Think 9D. " ++ GAME_LINK ++ u " 🎯" ]
     else if any_in [u "hard"; u "difficult"; u "complex"] ml then
       ret [ at_ username ++ u "Too hard? That means you're getting smarter! " ++ GAME_LINK ++ u " 🧠";
             at_ username ++ u "Complexity = fun! Keep practicing at " ++ GAME_LINK;
             at_ username ++ u "The best challenges make the best players. " ++ GAME_LINK ]
     else if any_in [u "dimension"; u "9d"; u "dimensional"] ml then
       ret [ at_ username ++ u "9 dimensions. Infinite strategy. Experience it: " ++ GAME_LINK;
             at_ username ++ u "Dimensional mastery awaits. " ++ GAME_LINK ++ u " 🌌";
             at_ username ++ u "Think beyond 3D. Think 9D: " ++ GAME_LINK ]
     else if any_in [u "gm"; u "good morning"; u "morning"] ml then
       ret [ at_ username ++ u "GM! Time to think in 9D! " ++ GAME_LINK ++ u " ☀️🎮";
             at_ username ++ u "Good morning, strategist! Grids are waiting: " ++ GAME_LINK;
             at_ username ++ u "Morning! Your brain is fresh. Perfect for 9D: " ++ GAME_LINK ]
     else if any_in [u "gn"; u "good night"; u "night"] ml then
       ret [ at_ username ++ u "GN! Dream in 9 dimensions! " ++ GAME_LINK ++ u " 🌙🎮";
             at_ username ++ u "Good night! Tomorrow: more 9D strategy at " ++ GAME_LINK;
             at_ username ++ u "Rest well, champion. The grid awaits: " ++ GAME_LINK ]
     else
       mot <- random_choice MOTIVATIONAL ;;
       line <- get_personality_line ;;
       fact <- random_choice GAME_FACTS ;;
       comp <- random_choice (PERSONALITY_TONES competitive) ;;
       ret [ at_ username ++ mot ++ u " " ++ GAME_LINK;
             at_ username ++ line ++ u " " ++ GAME_LINK;
             at_ username ++ u "Ready for the ultimate strategy challenge? " ++ GAME_LINK;
             at_ username ++ fact ++ u " " ++ GAME_LINK;
             at_ username ++ comp ++ u " " ++ GAME_LINK ]) ;;
  (* LLM boost if paid + relevant *)
  use <- get USE_LLM ;;
  boost <- (if use then roll <- random_random ;;
                        ret (Qltb (6 # 10) roll && (10 <? len message))
            else ret false) ;;
  llm <- (if boost then
            generate_llm_response
              (u "User @" ++ username ++ u " said: '" ++ message
                 ++ u "'. Respond as 9DTTT BOT in one short, fun line under 150 chars. Promote "
                 ++ GAME_LINK ++ u " if fits.") 60
          else ret None) ;;
  if truthy_str llm then
    ret (at_ username ++ default [] llm)
  else
    resp <- random_choice opts ;;
    if TWITTER_CHAR_LIMIT <? len resp then
      let max_l := TWITTER_CHAR_LIMIT - len (at_ username ++ nl ++ nl ++ GAME_LINK) in
      line <- get_personality_line ;;
      ret (at_ username ++ slice_to max_l line ++ nl ++ nl ++ GAME_LINK)
    else ret resp.

Definition client_get_me : M (option user) :=
  call EvGetMe (fun h => get_me E h).

Definition client_get_users_mentions (uid : Z) : M (list mention) :=
  call (EvGetUsersMentions uid) (fun h => get_users_mentions E h uid).

Definition client_get_user (uid : Z) : M (option user) :=
  call (EvGetUser uid) (fun h => get_user E h uid).

Definition client_like (tweet_id : Z) : M unit :=
  call (EvLike tweet_id) (fun h => like E h tweet_id).

(** [processed.add(tid)] *)
Definition processed_add (tid : pystr) : M unit :=
  p <- get processed ;;
  set_processed ({[ tid ]} ∪ p).

(** The text of the reply to a mention from [un] saying [umsg]. *)
Definition reply_text (un umsg : pystr) : M pystr :=
  let ml := lower umsg in
  (* Challenge detection *)
  if any_in [u "challenge"; u "play me"; u "vs"; u "battle"; u "1v1"; u "game me"] ml then
    let resp :=
      at_ un ++ u "Challenge accepted! Head to " ++ GAME_LINK
        ++ u " and start a game — tag me when you win (or lose 😏). Let's see your 9D skills!" in
    personality <- random_choice (PERSONALITY_TONES competitive) ;;
    ret (resp ++ nl ++ nl ++ personality)
  else if any_in [u "won"; u "i won"; u "beat"; u "victory"] ml then
    let resp :=
      at_ un ++ u "You beat the grid? Respect! Post a screenshot or tell me the dimensions you conquered 🔥 "
        ++ GAME_LINK in
    personality <- random_choice (PERSONALITY_TONES friendly) ;;
    ret (resp ++ nl ++ nl ++ personality)
  else
    generate_contextual_response un umsg.

(** The body of the [for m in mentions.data] loop. *)
Definition respond_one (me : user) (m : mention) : M unit :=
  let tid := str_of_int (id m) in
  p <- get processed ;;
  if bool_decide (tid ∈ p) then ret tt
  else
    ud <- client_get_user (author_id m) ;;
    match ud with
    | None => ret tt
    | Some ud =>
      let un := username ud in
      let umsg := strip (replace (u "@" ++ username me) [] (mention_text m)) in
      full_resp <- reply_text un umsg ;;
      ok <- safe_post_tweet full_resp None (Some (id m)) ;;
      if ok then
        client_like (id m) ;;;
        processed_add tid
      else ret tt
    end.

Fixpoint for_mentions (me : user) (ms : list mention) : M unit :=
  match ms with
  | [] => ret tt
  | m :: ms' => respond_one me m ;;; for_mentions me ms'
  end.

(** The [try] block of [bot_respond]. *)
Definition bot_respond_try : M unit :=
  me <- client_get_me ;;
  match me with
  | None => ret tt
  | Some me =>
    mentions <- client_get_users_mentions (user_id me) ;;
    match mentions with
    | [] => ret tt
    | _ :: _ =>
      for_mentions me mentions ;;;
      p <- get processed ;;
      save_json_set p
    end
  end.

Definition bot_respond : M unit :=
  p <- load_json_set ;;
  set_processed p ;;;
  try_except bot_respond_try (fun _ => ret tt).

(** ** FLASK FOR GAME EVENTS *)

(** [request.json]: a request that is not sent as JSON is ended with
    415 Unsupported Media Type without a look at its body; one sent as JSON
    whose body does not read as JSON with 400 Bad Request. *)
Definition request_json (r : request) : M json :=
  if is_json r then
    match data r with
    | Malformed => raise (HTTPException 400)
    | Parsed v => ret v
    end
  else raise (HTTPException 415).

Definition game_event (r : request) : M response :=
  j <- request_json r ;;
  if negb (truthy j) then
    ret {| payload := JsonBody (JObj [(u "error", JStr (u "JSON required"))]);
           status_code := 400 |}
  else
    j <- request_json r ;;
    game_event_bridge j ;;;
    ret {| payload := JsonBody (JObj [(u "ok", JBool true)]); status_code := 200 |}.

(** What Flask sends for a view: its return value, the page of an HTTP
    exception, or 500 for any other exception. *)
Definition serve (r : request) : World -> response * World :=
  fun w =>
    match game_event r w with
    | (Ret r, w') => (r, w')
    | (Raise (HTTPException c), w') => ({| payload := ErrorPage; status_code := c |}, w')
    | (Raise _, w') => ({| payload := ErrorPage; status_code := 500 |}, w')
    end.

End Bot.

(** ** Reading a transcript *)

(** The reply field the bot passes for a mention with id [i]. *)
Definition reply_field (i : Z) : option Z :=
  if truthy_id (Some i) then Some i else None.

Definition is_post (ev : event) : bool :=
  match ev with
  | EvCreateTweet _ _ | EvUpdateStatus _ _ => true
  | _ => false
  end.

(** A posting call that went through. *)
Definition post_ok (ev : event) : bool :=
  match ev with
  | EvCreateTweet _ (Ret _) | EvUpdateStatus _ (Ret _) => true
  | _ => false
  end.

Definition is_like (ev : event) : bool :=
  match ev with EvLike _ _ => true | _ => false end.

Definition like_ok (ev : event) : bool :=
  match ev with EvLike _ (Ret _) => true | _ => false end.

Definition is_save (ev : event) : bool :=
  match ev with EvSave _ _ => true | _ => false end.

(** Calls made once per pass, before the loop. *)
Definition is_fetch (ev : event) : bool :=
  match ev with EvGetMe _ | EvGetUsersMentions _ _ => true | _ => false end.

(** Calls that only draw random numbers or ask the text service. *)
Definition is_silent (ev : event) : bool :=
  match ev with
  | EvRandom _ | EvChoice _ _ | EvHfPost _ _ _ => true
  | _ => false
  end.

(** A posting call is a reply to the mention with id [i]. *)
Definition replies_to (i : Z) (ev : event) : Prop :=
  match ev with
  | EvCreateTweet kw _ => in_reply_to_tweet_id kw = reply_field i
  | EvUpdateStatus kw _ => in_reply_to_status_id kw = reply_field i
  | _ => False
  end.

(** [w'] is [w] after the calls [evs] (newest first). *)
Definition after (evs : list event) (w w' : World) : Prop :=
  trace w' = evs ++ trace w.

(** The calls made between [w] and a later [w'] (newest first). *)
Definition calls_during (w w' : World) : list event :=
  take (length (trace w') - length (trace w)) (trace w').

(** The set a pass starts from, when the file can be read. *)
Definition stored (f : file) : option (gset pystr) :=
  match f with
  | Absent => Some ∅
  | JsonStrings l => Some (list_to_set l)
  | Unreadable => None
  end.

(** A step that only draws random numbers or asks the text service: the set
    and the file are as before. *)
Definition quiet (w w' : World) : Prop :=
  processed w' = processed w /\ disk w' = disk w
  /\ exists evs, after evs w w' /\ Forall (fun ev => is_silent ev = true) evs.

(** Every run of [m] relates the world before to the world after by [R]. *)
Definition keeps (R : World -> World -> Prop) {A} (m : M A) : Prop :=
  forall w, R w (m w).2.

(** [Q] holds of the answer and the world [m] leaves when run from [w]. *)
Definition wp {A} (m : M A) (Q : result A -> World -> Prop) (w : World) : Prop :=
  Q (m w).1 (m w).2.

(** What handling one mention [m] does to the world: the file is not
    touched, the set can only gain the id of [m], and of the calls made
    - none saves or fetches,
    - a posting call is a reply to [m], made only if [m] was not in the set,
    - a post that went through is followed by a like of [m], and the id is
      added once that like returns,
    - without a post that went through, nothing is liked or added. *)
Definition handled (m : mention) (w w' : World) (evs : list event) : Prop :=
  let tid := str_of_int (id m) in
  after evs w w'
  /\ disk w' = disk w
  /\ processed w ⊆ processed w'
  /\ Forall (fun ev => is_save ev = false /\ is_fetch ev = false) evs
  /\ Forall (fun ev => is_post ev = true ->
                       replies_to (id m) ev /\ tid ∉ processed w) evs
  /\ (existsb post_ok evs = true ->
      exists rl, In (EvLike (id m) rl) evs
                 /\ (rl = Ret tt -> processed w' = {[ tid ]} ∪ processed w))
  /\ (existsb post_ok evs = false ->
      processed w' = processed w /\ existsb is_like evs = false).

(** What a pass that started from the set [P] has done after the calls
    [evs]:
    - a write hands over a list that holds all of [P], and the file holds
      that list once the write went through,
    - a posting call is a reply to a mention of the batch fetched in this
      pass whose id is not in [P],
    - without a write the file is as before. *)
Definition pass_ok (P : gset pystr) (w w' : World) (evs : list event) : Prop :=
  after evs w w'
  /\ (forall l o, In (EvSave l o) evs ->
        P ⊆ list_to_set l /\ (o = Ret Written -> disk w' = JsonStrings l))
  /\ (forall ev, In ev evs -> is_post ev = true ->
        exists uid batch m,
          In (EvGetUsersMentions uid (Ret batch)) evs /\ In m batch
          /\ replies_to (id m) ev /\ str_of_int (id m) ∉ P)
  /\ (existsb is_save evs = false -> disk w' = disk w).

(** The mentions whose like returned among [evs] are in the set of [w']. *)
Definition liked_marked (evs : list event) (w' : World) : Prop :=
  forall i, In (EvLike i (Ret tt)) evs -> str_of_int i ∈ processed w'.

(** [m] always returns. *)
Definition total {A} (m : M A) : Prop :=
  forall w, exists a w', m w = (Ret a, w').

(** [client.create_tweet] raises nothing but tweepy errors. *)
Definition tweepy_errors_only (E : Env) : Prop :=
  forall h kw, match create_tweet E h kw with
               | Ret _ | Raise (TweepyException _) => True
               | Raise _ => False
               end.

(** The [player] of an event can be made into a handle: it is missing or a
    string, or the event is not a win. *)
Definition player_fits (members : list (pystr * json)) : Prop :=
  match assoc (u "player") members with
  | None | Some (JStr _) => True
  | Some _ =>
    is_str (match assoc (u "type") members with Some v => v | None => JNull end)
      (u "win") = false
  end.

(** ** Scenarios *)

Module Scenario.

Definition bot : user := {| user_id := 1; username := u "9dttt_bot" |}.

Definition m101 : mention :=
  {| id := 101; author_id := 7; mention_text := u "@9dttt_bot I won in 4 dimensions!" |}.

Definition m102 : mention :=
  {| id := 102; author_id := 8; mention_text := u "@9dttt_bot hello there" |}.

Definition ada : user := {| user_id := 7; username := u "ada" |}.
Definition grace : user := {| user_id := 8; username := u "grace" |}.

(** A world of collaborators: [post] answers [create_tweet], [legacy]
    answers [update_status], [liked] answers [like], [lookup] answers
    [get_user]; two mentions are waiting. *)
Definition env (post legacy liked : result unit)
    (lookup : Z -> result (option user)) : Env :=
  {| create_tweet := fun _ _ => post;
     update_status := fun _ _ => legacy;
     get_me := fun _ => Ret (Some bot);
     get_users_mentions := fun _ _ => Ret [m101; m102];
     get_user := fun _ uid => lookup uid;
     like := fun _ _ => liked;
     rand_float := fun _ => 1 # 2;
     rand_index := fun _ _ => 0%nat;
     requests_post := fun _ _ => Raise (OtherException (u "timed out"));
     write_file := fun _ => Written;
     HUGGING_FACE_TOKEN := None;
     str_of_container := fun _ => u "{}" |}.

Definition lookup_ok (uid : Z) : result (option user) :=
  if uid =? 7 then Ret (Some ada) else Ret (Some grace).

(** The second author cannot be resolved: the lookup raises. *)
Definition lookup_breaks (uid : Z) : result (option user) :=
  if uid =? 7 then Ret (Some ada) else Raise (TweepyException (u "503 Service Unavailable")).

Definition all_fine : Env := env (Ret tt) (Ret tt) (Ret tt) lookup_ok.

Definition failing (msg : pystr) : Env :=
  env (Raise (TweepyException msg)) (Ret tt) (Ret tt) lookup_ok.

(** Posting works, liking does not. *)
Definition like_refused : Env :=
  env (Ret tt) (Ret tt) (Raise (TweepyException (u "403 Forbidden"))) lookup_ok.

(** Posting and liking work, the second author cannot be resolved. *)
Definition second_lookup_breaks : Env :=
  env (Ret tt) (Ret tt) (Ret tt) lookup_breaks.

(** A win reported with a number for a player. *)
Definition win_by_number : json :=
  JObj [(u "type", JStr (u "win")); (u "player", JInt 7)].

Definition win_of_ada : json :=
  JObj [(u "type", JStr (u "win")); (u "player", JStr (u "Ada"));
        (u "opponent", JStr (u "Grace")); (u "score", JStr (u "9-0"))].

Definition fresh : World :=
  {| PAID_TIER := true; USE_LLM := true; processed := ∅; disk := Absent; trace := [] |}.

Definition seen (l : list pystr) : World :=
  {| PAID_TIER := true; USE_LLM := true; processed := ∅; disk := JsonStrings l;
     trace := [] |}.

End Scenario.

(** ** More ways to read a world *)

(** [w] after the calls [evs], and [w] after a drop to the baseline tier. *)
Definition with_calls (evs : list event) (w : World) : World :=
  {| PAID_TIER := PAID_TIER w; USE_LLM := USE_LLM w;
     processed := processed w; disk := disk w; trace := evs ++ trace w |}.

Definition baseline (w : World) : World :=
  {| PAID_TIER := false; USE_LLM := false;
     processed := processed w; disk := disk w; trace := trace w |}.

Definition is_create (ev : event) : bool :=
  match ev with EvCreateTweet _ _ => true | _ => false end.

Definition is_hf (ev : event) : bool :=
  match ev with EvHfPost _ _ _ => true | _ => false end.

(** The text a posting call submits. *)
Definition posted_text (ev : event) : option pystr :=
  match ev with
  | EvCreateTweet kw _ => Some (text kw)
  | EvUpdateStatus kw _ => Some (status kw)
  | _ => None
  end.

(** Neither flag goes from False to True. *)
Definition tiers_only_drop (w w' : World) : Prop :=
  (PAID_TIER w' = true -> PAID_TIER w = true)
  /\ (USE_LLM w' = true -> USE_LLM w = true).

(** While USE_LLM is False it stays False and the text service is not
    called. *)
Definition llm_stays_off (w w' : World) : Prop :=
  USE_LLM w = false ->
  USE_LLM w' = false
  /\ exists evs, after evs w w' /\ Forall (fun ev => is_hf ev = false) evs.

(** Whatever [m] returns satisfies [P]. *)
Definition yields {A} (P : A -> Prop) (m : M A) : Prop :=
  forall w a w', m w = (Ret a, w') -> P a.

(** [m] always returns, and what it returns satisfies [P]. *)
Definition returns {A} (P : A -> Prop) (m : M A) : Prop :=
  forall w, exists a w', m w = (Ret a, w') /\ P a.

(** The event types [game_event_bridge] has a branch for. *)
Definition recognised (etype : json) : bool :=
  is_str etype (u "win") || is_str etype (u "game_start")
  || is_str etype (u "achievement") || is_str etype (u "tournament")
  || is_str etype (u "leaderboard").

Definition is_object (v : json) : bool :=
  match v with JObj _ => true | _ => false end.

Definition is_tweepy (e : exn) : bool :=
  match e with TweepyException _ => true | _ => false end.

(** ** The remaining jobs

    [bot_diagnostic] needs nothing new.  The other jobs also look at the
    clock, at the media folder and at the search and retweet endpoints;
    these calls are kept in a transcript of their own, beside the world. *)

Definition TIME_PHRASES_midnight : pystr := u "Midnight dimensions. When the best plays happen.".
Definition TIME_PHRASES_morning : pystr := u "Morning grids are loading. Time to think in 9D.".
Definition TIME_PHRASES_afternoon : pystr := u "Afternoon dimensions aligned. Strategy intensifies.".
Definition TIME_PHRASES_evening : pystr := u "Evening gameplay commencing. Dimensional shifts active.".
Definition TIME_PHRASES_night : pystr := u "Night strategies emerging. Perfect for deep thinking.".

Definition GAME_EVENTS : list pystr :=
  [ u "New 9D grid initialized. Players entering dimensional space.";
    u "Tournament mode activated. Multiple grids in play.";
    u "Strategy analysis complete. Patterns detected.";
    u "Dimensional cascade triggered. All grids affected.";
    u "Player rankings updated. Leaderboard shifting.";
    u "Advanced tactics deployed. 4D chess? Try 9D tic-tac-toe.";
    u "Grid complexity increasing. Can you keep up?";
    u "New challenge issued. Prove your dimensional mastery.";
    u "Multiple victories detected. Champions rising.";
    u "Strategic depth unprecedented. This is next-level gaming." ].

Definition PLAYER_ACHIEVEMENTS : list pystr :=
  [ u "Dimensional Master: Controlled 5+ grids simultaneously.";
    u "Strategic Genius: Won with perfect pattern formation.";
    u "Grid Dominator: Swept all 9 dimensions.";
    u "Quantum Player: Made moves that defied logic but won.";
    u "Pattern Prophet: Predicted opponent moves 5 turns ahead.";
    u "Cascade Champion: Triggered 3+ dimensional cascades.";
    u "Multi-Grid Warrior: Won 3 games at once." ].

(** The list [phrases] of [bot_hype_commentator]. *)
Definition phrases : list pystr :=
  [ u "Top players right now are rewriting 9D history... Who's next? 👑";
    u "Someone just triggered a cascade across 4 boards — chaos level: expert 😈";
    u "Leaderboard shaking! New challengers rising fast.";
    u "Quiet grids today... too quiet. Drop in and shake things up!" ].

(** The query [q] of [bot_retweet_hunt]. *)
Definition q : pystr :=
  u "(tic-tac-toe OR tictactoe OR strategy games OR puzzle games OR board games OR gaming) filter:media min_faves:5 -is:retweet".

Definition MEDIA_FOLDER : pystr := u "media/".

(** [s.endswith(ext)] *)
Definition endswith (ext s : pystr) : bool := prefixb (rev ext) (rev s).

(** The test of the list comprehension of [get_random_media_id]. *)
Definition is_media (f : pystr) : bool :=
  existsb (fun ext => endswith ext (lower f))
    [u ".png"; u ".jpg"; u ".jpeg"; u ".gif"; u ".mp4"].

(** One entry per call to the clock, the media folder, the upload, the
    search and the retweet endpoint, with its answer. *)
Inductive side_call :=
| ScExists (r : result bool)
| ScListdir (r : result (list pystr))
| ScMediaUpload (path : pystr) (r : result pystr)
| ScNow (r : result Z)
| ScSearch (query : pystr) (max_results : Z) (r : result (list Z))
| ScRetweet (tweet_id : Z) (r : result unit).

(** Their answers may depend on both transcripts. *)
Record Outside := {
  path_exists : list side_call -> list event -> bool;
  listdir : list side_call -> list event -> result (list pystr);
  media_upload : list side_call -> list event -> pystr -> result pystr;
  now_hour : list side_call -> list event -> Z;
  search_recent_tweets : list side_call -> list event -> pystr -> Z -> result (list Z);
  retweet : list side_call -> list event -> Z -> result unit
}.

Record Stage := {
  world : World;
  sides : list side_call    (* newest first *)
}.

Definition J (A : Type) : Type := Stage -> result A * Stage.

Definition jret {A} (a : A) : J A := fun s => (Ret a, s).

Definition jbind {A B} (m : J A) (k : A -> J B) : J B :=
  fun s => match m s with
           | (Ret a, s') => k a s'
           | (Raise e, s') => (Raise e, s')
           end.

Definition jtry {A} (m : J A) (h : exn -> J A) : J A :=
  fun s => match m s with
           | (Ret a, s') => (Ret a, s')
           | (Raise e, s') => h e s'
           end.

(** A computation on the world, run on the stage. *)
Definition lift {A} (m : M A) : J A :=
  fun s => let '(r, w') := m (world s) in
           (r, {| world := w'; sides := sides s |}).

(** A call of the second kind. *)
Definition side {A} (sc : result A -> side_call)
    (answer : list side_call -> list event -> result A) : J A :=
  fun s => let r := answer (sides s) (trace (world s)) in
           (r, {| world := world s; sides := sc r :: sides s |}).

Notation "x <~ m ;; k" := (jbind m (fun x => k))
  (at level 100, m at next level, right associativity) : py_scope.
Notation "m ~;; k" := (jbind m (fun _ => k))
  (at level 100, right associativity) : py_scope.

(** The side calls made between [s] and a later [s'] (newest first). *)
Definition sides_during (s s' : Stage) : list side_call :=
  take (length (sides s') - length (sides s)) (sides s').

Definition is_upload (sc : side_call) : bool :=
  match sc with ScMediaUpload _ _ => true | _ => false end.

Definition is_retweet (sc : side_call) : bool :=
  match sc with ScRetweet _ _ => true | _ => false end.

Definition is_random (ev : event) : bool :=
  match ev with EvRandom _ => true | _ => false end.

(** The ids [client.retweet] was called with among [scs], oldest first. *)
Definition retweeted (scs : list side_call) : list Z :=
  omap (fun sc => match sc with ScRetweet t _ => Some t | _ => None end)
       (rev scs).

Section Jobs.

Variable E : Env.
Variable O : Outside.

Definition bot_diagnostic : M unit :=
  paid <- get PAID_TIER ;;
  mot <- random_choice E MOTIVATIONAL ;;
  let diag :=
    u "🎮 9DTTT DIAGNOSTIC 🎮" ++ nl ++ nl ++ u "System Status: "
      ++ (if paid then u "ONLINE (Paid Mode)" else u "ONLINE (Lite/Free Mode)")
      ++ nl ++ u "Grid Status: ACTIVE" ++ nl ++ u "Dimensions: ALL 9 OPERATIONAL"
      ++ nl ++ nl ++ mot ++ nl ++ nl ++ u "🕹️ " ++ GAME_LINK in
  safe_post_tweet E (slice_to TWITTER_CHAR_LIMIT diag) None None ;;;
  ret tt.

Definition os_path_exists : J bool :=
  side ScExists (fun sc h => Ret (path_exists O sc h)).

Definition os_listdir : J (list pystr) :=
  side ScListdir (fun sc h => listdir O sc h).

Definition api_v1_media_upload (path : pystr) : J pystr :=
  side (ScMediaUpload path) (fun sc h => media_upload O sc h path).

Definition datetime_now_hour : J Z :=
  side ScNow (fun sc h => Ret (now_hour O sc h)).

Definition client_search_recent_tweets (query : pystr) (max_results : Z)
  : J (list Z) :=
  side (ScSearch query max_results)
       (fun sc h => search_recent_tweets O sc h query max_results).

Definition client_retweet (tweet_id : Z) : J unit :=
  side (ScRetweet tweet_id) (fun sc h => retweet O sc h tweet_id).

(** [os.path.join(MEDIA_FOLDER, f)] is [MEDIA_FOLDER + f] for the entry
    names [os.listdir] gives. *)
Definition get_random_media_id : J (option pystr) :=
  there <~ os_path_exists ;;
  if negb there then jret None
  else
    names <~ os_listdir ;;
    let files := List.filter is_media names in
    match files with
    | [] => jret None
    | _ :: _ =>
      f <~ lift (random_choice E files) ;;
      let path := MEDIA_FOLDER ++ f in
      jtry (media_id_string <~ api_v1_media_upload path ;;
            jret (Some media_id_string))
           (fun _ => jret None)
    end.

(** [mid = get_random_media_id()] and [if mid: mids = [mid]], run when the
    draw [roll] is above [threshold]. *)
Definition maybe_media (threshold roll : Q) : J (option (list pystr)) :=
  if Qltb threshold roll then
    mid <~ get_random_media_id ;;
    jret (match mid with
          | Some (c :: m) => Some [c :: m]
          | _ => None
          end)
  else jret None.

Definition get_time_phrase : J pystr :=
  h <~ datetime_now_hour ;;
  if (0 <=? h) && (h <? 5) then jret TIME_PHRASES_midnight
  else if (5 <=? h) && (h <? 12) then jret TIME_PHRASES_morning
  else if (12 <=? h) && (h <? 17) then jret TIME_PHRASES_afternoon
  else if (17 <=? h) && (h <? 21) then jret TIME_PHRASES_evening
  else jret TIME_PHRASES_night.

Definition get_random_event : M pystr := random_choice E GAME_EVENTS.
Definition get_game_fact : M pystr := random_choice E GAME_FACTS.

Definition bot_broadcast : J unit :=
  typ <~ lift (random_choice E
                 [u "game_update"; u "strategy_tip"; u "game_fact";
                  u "achievement_showcase"; u "motivational"; u "event_alert"]) ;;
  msg <~
    (if bool_decide (typ = u "game_update") then
       phrase <~ get_time_phrase ;;
       evt <~ lift get_random_event ;;
       mot <~ lift (random_choice E MOTIVATIONAL) ;;
       jret (u "🎮 9DTTT STATUS 🎮" ++ nl ++ nl ++ u "📊 " ++ phrase ++ nl ++ nl
               ++ u "⚡ " ++ evt ++ nl ++ nl ++ mot ++ nl ++ nl ++ u "🕹️ " ++ GAME_LINK)
     else if bool_decide (typ = u "strategy_tip") then
       tip <~ lift (get_strategy_tip E) ;;
       line <~ lift (get_personality_line E) ;;
       jret (u "💡 STRATEGY TIP 💡" ++ nl ++ nl ++ tip ++ nl ++ nl ++ line ++ nl ++ nl
               ++ u "Master the grid: " ++ GAME_LINK)
     else if bool_decide (typ = u "game_fact") then
       fact <~ lift get_game_fact ;;
       mot <~ lift (random_choice E MOTIVATIONAL) ;;
       jret (u "🎯 DID YOU KNOW? 🎯" ++ nl ++ nl ++ fact ++ nl ++ nl ++ mot ++ nl ++ nl
               ++ u "🕹️ " ++ GAME_LINK)
     else if bool_decide (typ = u "achievement_showcase") then
       ach <~ lift (random_choice E PLAYER_ACHIEVEMENTS) ;;
       jret (u "🏆 ACHIEVEMENT SPOTLIGHT 🏆" ++ nl ++ nl ++ ach ++ nl ++ nl
               ++ u "Can you earn this? Challenge yourself!" ++ nl ++ nl
               ++ u "🎮 " ++ GAME_LINK)
     else if bool_decide (typ = u "motivational") then
       mot <~ lift (random_choice E MOTIVATIONAL) ;;
       evt <~ lift get_random_event ;;
       jret (u "🚀 DAILY CHALLENGE 🚀" ++ nl ++ nl ++ mot ++ nl ++ nl ++ evt ++ nl ++ nl
               ++ u "Play now: " ++ GAME_LINK)
     else
       evt <~ lift get_random_event ;;
       per <~ lift (get_personality_line E) ;;
       jret (u "🔔 GAME ALERT 🔔" ++ nl ++ nl ++ evt ++ nl ++ nl ++ per ++ nl ++ nl
               ++ u "Join the action: " ++ GAME_LINK)) ;;
  msg <~
    (if TWITTER_CHAR_LIMIT <? len msg then
       let max_t := TWITTER_CHAR_LIMIT - len (u "🎮 " ++ nl ++ nl ++ GAME_LINK) in
       evt <~ lift get_random_event ;;
       jret (u "🎮 " ++ slice_to max_t evt ++ nl ++ nl ++ GAME_LINK)
     else jret msg) ;;
  roll <~ lift (random_random E) ;;
  mids <~ maybe_media (4 # 10) roll ;;
  lift (safe_post_tweet E msg mids None) ~;;
  jret tt.

Definition bot_hype_commentator : J unit :=
  phrase <~ lift (random_choice E phrases) ;;
  line <~ lift (get_personality_line E) ;;
  let msg :=
    u "🕹️ 9DTTT LIVE UPDATE 🕹️" ++ nl ++ nl ++ phrase ++ nl ++ nl ++ line
      ++ nl ++ nl ++ GAME_LINK in
  roll <~ lift (random_random E) ;;
  mids <~ maybe_media (6 # 10) roll ;;
  lift (safe_post_tweet E msg mids None) ~;;
  jret tt.

(** The body of the [for t in tweets.data] loop. *)
Definition retweet_one (t : Z) : J unit :=
  roll <~ lift (random_random E) ;;
  if Qltb (75 # 100) roll
  then jtry (client_retweet t) (fun _ => jret tt)
  else jret tt.

Fixpoint for_tweets (ts : list Z) : J unit :=
  match ts with
  | [] => jret tt
  | t :: ts' => retweet_one t ~;; for_tweets ts'
  end.

Definition bot_retweet_hunt : J unit :=
  jtry (tweets <~ client_search_recent_tweets q 20 ;;
        match tweets with
        | [] => jret tt
        | _ :: _ => for_tweets tweets
        end)
       (fun _ => jret tt).

End Jobs.

(** Every run of [m] on a stage relates the world before to the world
    after by [R]. *)
Definition keepsJ (R : World -> World -> Prop) {A} (m : J A) : Prop :=
  forall s, R (world s) (world (m s).2).

(** [Q] holds of the answer and the stage [m] leaves when run from [s]. *)
Definition jwp {A} (m : J A) (Q : result A -> Stage -> Prop) (s : Stage) : Prop :=
  Q (m s).1 (m s).2.

(** [s'] is [s] after the side calls [scs] (newest first). *)
Definition aside (scs : list side_call) (s s' : Stage) : Prop :=
  sides s' = scs ++ sides s.

(** A stage step in which the world only sees draws. *)
Definition quietJ (s s' : Stage) : Prop :=
  quiet (world s) (world s') /\ exists scs, aside scs s s'.

(** The media a posting call carries were uploaded: [mids] is empty, or
    holds the one id an upload among [scs] returned. *)
Definition media_uploaded (mids : option (list pystr)) (scs : list side_call) : Prop :=
  match mids with
  | None => True
  | Some l => exists path mid, l = [mid] /\ In (ScMediaUpload path (Ret mid)) scs
  end.

(** [m] always returns, what it returns satisfies [P], and the world has
    only seen draws meanwhile. *)
Definition settles {A} (P : A -> Prop) (m : J A) : Prop :=
  forall s, exists a s', m s = (Ret a, s') /\ P a /\ quietJ s s'.

(** ** More scenarios *)

Module Backstage.

(** Every draw gives [roll]; everything else is as in [Scenario.env]. *)
Definition env (roll : Q) (post : result unit) : Env :=
  {| create_tweet := fun _ _ => post;
     update_status := fun _ _ => Ret tt;
     get_me := fun _ => Ret (Some Scenario.bot);
     get_users_mentions := fun _ _ => Ret [Scenario.m101; Scenario.m102];
     get_user := fun _ uid => Scenario.lookup_ok uid;
     like := fun _ _ => Ret tt;
     rand_float := fun _ => roll;
     rand_index := fun _ _ => 0%nat;
     requests_post := fun _ _ => Raise (OtherException (u "timed out"));
     write_file := fun _ => Written;
     HUGGING_FACE_TOKEN := None;
     str_of_container := fun _ => u "{}" |}.

(** A media folder with one picture and one text file; tweets 11, 12 and
    13 are found, and 12 cannot be retweeted. *)
Definition outside (upload : result pystr) : Outside :=
  {| path_exists := fun _ _ => true;
     listdir := fun _ _ => Ret [u "notes.txt"; u "Board.PNG"];
     media_upload := fun _ _ _ => upload;
     now_hour := fun _ _ => 9;
     search_recent_tweets := fun _ _ _ _ => Ret [11; 12; 13];
     retweet := fun _ _ t =>
       if t =? 12 then Raise (TweepyException (u "403 Forbidden")) else Ret tt |}.

(** The text service is configured and answers [answer]; every draw is
    above every threshold. *)
Definition chatty (answer : result (Z * option json)) : Env :=
  {| create_tweet := fun _ _ => Ret tt;
     update_status := fun _ _ => Ret tt;
     get_me := fun _ => Ret (Some Scenario.bot);
     get_users_mentions := fun _ _ => Ret [Scenario.m101; Scenario.m102];
     get_user := fun _ uid => Scenario.lookup_ok uid;
     like := fun _ _ => Ret tt;
     rand_float := fun _ => 9 # 10;
     rand_index := fun _ _ => 0%nat;
     requests_post := fun _ _ => answer;
     write_file := fun _ => Written;
     HUGGING_FACE_TOKEN := Some (u "hf_token");
     str_of_container := fun _ => u "{}" |}.

Definition opening : Stage := {| world := Scenario.fresh; sides := [] |}.

End Backstage.

(** * Properties *)

(** ** Strings *)

Lemma prefixb_spec (p s : pystr) :
  prefixb p s = true <-> exists t, s = p ++ t.
Proof.
  revert s. induction p as [|a p IH]; intros s; simpl.
  - split; [intros _; by exists s | done].
  - destruct s as [|b s].
    + split; [done | intros [t Ht]; discriminate].
    + rewrite andb_true_iff, N.eqb_eq, IH. split.
      * intros [-> [t ->]]. by exists t.
      * intros [t Ht]. injection Ht as -> ->. split; [done | by exists t].
Qed.

Lemma contains_spec (p s : pystr) :
  contains p s = true <-> exists a b, s = a ++ p ++ b.
Proof.
  induction s as [|c s IH].
  - simpl. rewrite orb_false_r, prefixb_spec. split.
    + intros [t Ht]. by exists [], t.
    + intros [a [b Hab]]. destruct a; simpl in Hab.
      * by exists b.
      * discriminate.
  - cbn [contains]. rewrite orb_true_iff, prefixb_spec, IH. split.
    + intros [[t Ht] | [a [b Hab]]].
      * by exists [], t.
      * exists (c :: a), b. by rewrite Hab.
    + intros [a [b Hab]]. destruct a as [|c' a]; simpl in Hab.
      * left. by exists b.
      * right. injection Hab as -> ->. by exists a, b.
Qed.

Lemma lower_app (a b : pystr) : lower (a ++ b) = lower a ++ lower b.
Proof. apply map_app. Qed.

(** A match survives lowering when the pattern is already lower case. *)
Lemma contains_lower (p s : pystr) :
  lower p = p -> contains p s = true -> contains p (lower s) = true.
Proof.
  intros Hp. rewrite !contains_spec. intros [a [b ->]].
  exists (lower a), (lower b). by rewrite !lower_app, Hp.
Qed.

Lemma len_app (a b : pystr) : len (a ++ b) = len a + len b.
Proof. unfold len. rewrite length_app. lia. Qed.

Lemma len_slice_to (n : Z) (s : pystr) :
  0 <= n <= len s -> len (slice_to n s) = n.
Proof.
  unfold slice_to, len. intros Hn.
  destruct (Z.leb_spec 0 n); [|lia]. rewrite length_take. lia.
Qed.

(** ** Truncation *)

Lemma truncate_reply (txt : pystr) (reply_to : option Z) :
  TWITTER_CHAR_LIMIT < len txt -> truthy_id reply_to = true ->
  len (truncate txt reply_to) = 223.
Proof.
  unfold truncate, TWITTER_CHAR_LIMIT. intros Hlen Hr.
  destruct (Z.ltb_spec 280 (len txt)); [|lia]. rewrite Hr.
  rewrite len_app, len_slice_to by lia. reflexivity.
Qed.

Lemma truncate_plain (txt : pystr) (reply_to : option Z) :
  TWITTER_CHAR_LIMIT < len txt -> truthy_id reply_to = false ->
  len (truncate txt reply_to) = 261.
Proof.
  unfold truncate, TWITTER_CHAR_LIMIT. intros Hlen Hr.
  destruct (Z.ltb_spec 280 (len txt)); [|lia]. rewrite Hr.
  rewrite len_app, len_slice_to by lia. reflexivity.
Qed.

(** C5.  A text longer than the limit of 280 leaves the truncation step of
    [safe_post_tweet] with at most 280 code points, whether or not it is a
    reply; and the room left under the limit by the truncation of a reply is
    at least the room left by the truncation of a post that is not one. *)
Theorem truncate_within_limit (txt txt' : pystr) (reply_to : option Z) :
  TWITTER_CHAR_LIMIT < len txt -> TWITTER_CHAR_LIMIT < len txt' ->
  len (truncate txt reply_to) <= TWITTER_CHAR_LIMIT
  /\ forall r r' : option Z, truthy_id r = true -> truthy_id r' = false ->
       TWITTER_CHAR_LIMIT - len (truncate txt r)
       >= TWITTER_CHAR_LIMIT - len (truncate txt' r').
Proof.
  intros H H'. split.
  - destruct (truthy_id reply_to) eqn:Hr.
    + rewrite truncate_reply by done. unfold TWITTER_CHAR_LIMIT. lia.
    + rewrite truncate_plain by done. unfold TWITTER_CHAR_LIMIT. lia.
  - intros r r' Hr Hr'.
    rewrite truncate_reply, truncate_plain by done. lia.
Qed.

Lemma truncate_within_limit_witness :
  let long := repeat 120%N 300 in
  TWITTER_CHAR_LIMIT < len long
  /\ len (truncate long (Some 55)) <= TWITTER_CHAR_LIMIT
  /\ TWITTER_CHAR_LIMIT - len (truncate long (Some 55))
     >= TWITTER_CHAR_LIMIT - len (truncate long None).
Proof.
  intros long.
  assert (Hlong : TWITTER_CHAR_LIMIT < len long) by (vm_compute; reflexivity).
  split; [exact Hlong|].
  destruct (truncate_within_limit long long (Some 55) Hlong Hlong) as [Hle Hroom].
  split; [exact Hle|].
  apply Hroom; reflexivity.
Defined.

(** ** The posting client *)

Section Posting.

Variable E : Env.

(** What [safe_post_tweet] does when the v2 call raises a tweepy error that
    is taken for a quota problem: both flags drop and the v1.1 call decides
    the answer. *)
Lemma safe_post_tweet_quota (w : World) (txt : pystr) (mids : option (list pystr))
    (reply_to : option Z) (msg : pystr) :
  let kw := kwargs (truncate txt reply_to) mids reply_to in
  let kw1 := kwargs_v1 (truncate txt reply_to) mids reply_to in
  let failed := EvCreateTweet kw (Raise (TweepyException msg)) in
  let r1 := update_status E (failed :: trace w) kw1 in
  create_tweet E (trace w) kw = Raise (TweepyException msg) ->
  quota_error (lower msg) = true ->
  safe_post_tweet E txt mids reply_to w
  = (Ret (match r1 with Ret _ => true | Raise _ => false end),
     {| PAID_TIER := false; USE_LLM := false;
        processed := processed w; disk := disk w;
        trace := EvUpdateStatus kw1 r1 :: failed :: trace w |}).
Proof.
  intros kw kw1 failed r1 Hv2 Hq.
  unfold safe_post_tweet, bind, try_except, client_create_tweet,
    api_v1_update_status, call, set_tiers, ret.
  fold kw kw1. rewrite Hv2, Hq. simpl. fold failed r1.
  by destruct r1.
Qed.

Lemma kwargs_v1_adapts (txt : pystr) (mids : option (list pystr)) (reply_to : option Z) :
  status (kwargs_v1 txt mids reply_to) = text (kwargs txt mids reply_to)
  /\ v1_media_ids (kwargs_v1 txt mids reply_to) = media_ids (kwargs txt mids reply_to)
  /\ in_reply_to_status_id (kwargs_v1 txt mids reply_to)
     = in_reply_to_tweet_id (kwargs txt mids reply_to).
Proof. done. Qed.

(** C1.  When the v2 call of [safe_post_tweet] raises a tweepy error whose
    message contains 402, PAID_TIER (and USE_LLM) become False, the v1.1 call
    is made next with the same text, media and reply target under its own
    field names, and the function returns True if that call goes through. *)
Theorem safe_post_tweet_402_falls_back (w : World) (txt : pystr)
    (mids : option (list pystr)) (reply_to : option Z) (msg : pystr) :
  let kw := kwargs (truncate txt reply_to) mids reply_to in
  let kw1 := kwargs_v1 (truncate txt reply_to) mids reply_to in
  let failed := EvCreateTweet kw (Raise (TweepyException msg)) in
  create_tweet E (trace w) kw = Raise (TweepyException msg) ->
  contains (u "402") msg = true ->
  exists (r : result bool) (r1 : result unit) (w' : World),
    safe_post_tweet E txt mids reply_to w = (r, w')
    /\ PAID_TIER w' = false
    /\ trace w' = EvUpdateStatus kw1 r1 :: failed :: trace w
    /\ r1 = update_status E (failed :: trace w) kw1
    /\ status kw1 = text kw
    /\ v1_media_ids kw1 = media_ids kw
    /\ in_reply_to_status_id kw1 = in_reply_to_tweet_id kw
    /\ (r1 = Ret tt -> r = Ret true).
Proof.
  intros kw kw1 failed Hv2 H402.
  assert (Hq : quota_error (lower msg) = true).
  { unfold quota_error. rewrite (contains_lower (u "402") msg); done. }
  pose proof (safe_post_tweet_quota w txt mids reply_to msg Hv2 Hq) as Hrun.
  eexists _, _, _. split; [exact Hrun|].
  repeat split. by intros ->.
Qed.


(** C7, as the code has it.  The marker is [creditsdepleted], in one word
    and in any case: a tweepy error whose lowered message contains it makes
    PAID_TIER False and the v1.1 call is made. *)
Theorem safe_post_tweet_creditsdepleted (w : World) (txt : pystr)
    (mids : option (list pystr)) (reply_to : option Z) (msg : pystr) :
  let kw := kwargs (truncate txt reply_to) mids reply_to in
  let kw1 := kwargs_v1 (truncate txt reply_to) mids reply_to in
  let failed := EvCreateTweet kw (Raise (TweepyException msg)) in
  create_tweet E (trace w) kw = Raise (TweepyException msg) ->
  contains (u "creditsdepleted") (lower msg) = true ->
  exists (r : result bool) (r1 : result unit) (w' : World),
    safe_post_tweet E txt mids reply_to w = (r, w')
    /\ PAID_TIER w' = false
    /\ trace w' = EvUpdateStatus kw1 r1 :: failed :: trace w.
Proof.
  intros kw kw1 failed Hv2 Hc.
  assert (Hq : quota_error (lower msg) = true).
  { unfold quota_error. rewrite Hc. by rewrite orb_true_r. }
  pose proof (safe_post_tweet_quota w txt mids reply_to msg Hv2 Hq) as Hrun.
  eexists _, _, _. split; [exact Hrun|]. done.
Qed.

End Posting.

Lemma safe_post_tweet_402_falls_back_witness :
  let E := Scenario.failing (u "402 Payment Required") in
  exists (r1 : result unit) (w' : World),
    safe_post_tweet E (u "hello grid") None (Some 101) Scenario.fresh = (Ret true, w')
    /\ PAID_TIER w' = false
    /\ trace w'
       = [EvUpdateStatus (kwargs_v1 (u "hello grid") None (Some 101)) r1;
          EvCreateTweet (kwargs (u "hello grid") None (Some 101))
            (Raise (TweepyException (u "402 Payment Required")))].
Proof.
  intros E.
  destruct (safe_post_tweet_402_falls_back E Scenario.fresh (u "hello grid") None
              (Some 101) (u "402 Payment Required") eq_refl eq_refl)
    as (r & r1 & w' & Hrun & Hpaid & Htrace & Hr1 & _ & _ & _ & Hret).
  exists r1, w'. rewrite Hrun, (Hret Hr1). done.
Defined.



Lemma safe_post_tweet_creditsdepleted_witness :
  exists (r : result bool) (r1 : result unit) (w' : World),
    safe_post_tweet (Scenario.failing (u "403 Forbidden CreditsDepleted"))
      (u "hello grid") None None Scenario.fresh = (r, w')
    /\ PAID_TIER w' = false
    /\ trace w'
       = [EvUpdateStatus (kwargs_v1 (u "hello grid") None None) r1;
          EvCreateTweet (kwargs (u "hello grid") None None)
            (Raise (TweepyException (u "403 Forbidden CreditsDepleted")))].
Proof.
  exact (safe_post_tweet_creditsdepleted
           (Scenario.failing (u "403 Forbidden CreditsDepleted")) Scenario.fresh
           (u "hello grid") None None (u "403 Forbidden CreditsDepleted")
           eq_refl eq_refl).
Defined.

(** C7, as the spec words it.  A tweepy error saying [credits depleted], in
    two words, is not taken for a quota problem: [safe_post_tweet] returns
    False, PAID_TIER stays True and no v1.1 call is made. *)
Lemma credits_depleted_with_space_not_classified :
  contains (u "credits depleted") (u "credits depleted") = true
  /\ safe_post_tweet (Scenario.failing (u "credits depleted")) (u "hello grid") None None
       Scenario.fresh
     = (Ret false,
        {| PAID_TIER := true; USE_LLM := true; processed := ∅; disk := Absent;
           trace := [EvCreateTweet (kwargs (u "hello grid") None None)
                       (Raise (TweepyException (u "credits depleted")))] |}).
Proof. split; reflexivity. Qed.

(** ** Steps that leave the bookkeeping alone *)

Lemma after_refl (w : World) : after [] w w.
Proof. reflexivity. Qed.

Lemma after_trans (evs1 evs2 : list event) (w1 w2 w3 : World) :
  after evs1 w1 w2 -> after evs2 w2 w3 -> after (evs2 ++ evs1) w1 w3.
Proof. unfold after. intros H1 H2. by rewrite H2, H1, app_assoc. Qed.

#[local] Instance quiet_preorder : PreOrder quiet.
Proof.
  split.
  - intros w. repeat split. exists []. split; [apply after_refl | constructor].
  - intros w1 w2 w3 (Hp1 & Hd1 & evs1 & Ha1 & Hs1) (Hp2 & Hd2 & evs2 & Ha2 & Hs2).
    split; [congruence|]. split; [congruence|].
    exists (evs2 ++ evs1). split; [by eapply after_trans|].
    by apply Forall_app.
Qed.

Section Keeps.

Context (R : World -> World -> Prop) `{!PreOrder R}.

Lemma keeps_ret {A} (a : A) : keeps R (ret a).
Proof. intros w. simpl. reflexivity. Qed.

Lemma keeps_raise {A} (e : exn) : keeps R (@raise A e).
Proof. intros w. simpl. reflexivity. Qed.

Lemma keeps_get {A} (proj : World -> A) : keeps R (get proj).
Proof. intros w. simpl. reflexivity. Qed.

Lemma keeps_bind {A B} (m : M A) (k : A -> M B) :
  keeps R m -> (forall a, keeps R (k a)) -> keeps R (bind m k).
Proof.
  intros Hm Hk w. unfold bind. specialize (Hm w).
  destruct (m w) as [[a|e] w1]; simpl in *; [|done].
  etransitivity; [exact Hm | apply Hk].
Qed.

Lemma keeps_try {A} (m : M A) (h : exn -> M A) :
  keeps R m -> (forall e, keeps R (h e)) -> keeps R (try_except m h).
Proof.
  intros Hm Hh w. unfold try_except. specialize (Hm w).
  destruct (m w) as [[a|e] w1]; simpl in *; [done|].
  etransitivity; [exact Hm | apply Hh].
Qed.

End Keeps.

Ltac keeps_step :=
  lazymatch goal with
  | |- keeps _ (bind _ _) => apply keeps_bind; [apply _ | | intros ?]
  | |- keeps _ (try_except _ _) => apply keeps_try; [apply _ | | intros ?]
  | |- keeps _ (ret _) => apply keeps_ret; apply _
  | |- keeps _ (raise _) => apply keeps_raise; apply _
  | |- keeps _ (get _) => apply keeps_get; apply _
  | |- keeps _ (if ?b then _ else _) => destruct b
  | |- keeps _ (match ?x with _ => _ end) => destruct x
  end.

Section Quiet.

Variable E : Env.

Lemma quiet_call {A} (ev : result A -> event) (answer : list event -> result A) :
  (forall r, is_silent (ev r) = true) -> keeps quiet (call ev answer).
Proof.
  intros Hev w. unfold call. simpl. repeat split.
  eexists [_]. split; [reflexivity|]. by repeat constructor.
Qed.

Lemma quiet_set_USE_LLM (b : bool) : keeps quiet (set_USE_LLM b).
Proof.
  intros w. simpl. repeat split. exists []. split; [reflexivity | constructor].
Qed.

Lemma quiet_random_random : keeps quiet (random_random E).
Proof. by apply quiet_call. Qed.

Lemma quiet_random_choice (xs : list pystr) : keeps quiet (random_choice E xs).
Proof.
  unfold random_choice. destruct xs; [keeps_step|].
  by apply quiet_call.
Qed.

Ltac quiet_tac :=
  repeat first
    [ apply quiet_random_random | apply quiet_random_choice
    | apply quiet_set_USE_LLM | (apply quiet_call; done)
    | keeps_step ].

Lemma quiet_get_personality_line : keeps quiet (get_personality_line E).
Proof. unfold get_personality_line, pick_tone. quiet_tac. Qed.

Lemma quiet_generate_llm_response (prompt : pystr) (max_tokens : Z) :
  keeps quiet (generate_llm_response E prompt max_tokens).
Proof. unfold generate_llm_response, dict_get, strip_method. quiet_tac. Qed.

Lemma quiet_generate_contextual_response (username message : pystr) :
  keeps quiet (generate_contextual_response E username message).
Proof.
  unfold generate_contextual_response, get_strategy_tip.
  repeat first
    [ apply quiet_get_personality_line | apply quiet_generate_llm_response
    | apply quiet_random_random | apply quiet_random_choice | keeps_step ].
Qed.

Lemma quiet_reply_text (un umsg : pystr) : keeps quiet (reply_text E un umsg).
Proof.
  unfold reply_text.
  repeat first
    [ apply quiet_generate_contextual_response | apply quiet_random_choice
    | keeps_step ].
Qed.

End Quiet.

(** ** Running a computation *)

Lemma wp_intro {A} (m : M A) (Q : result A -> World -> Prop) (w : World) :
  (forall r w', m w = (r, w') -> Q r w') -> wp m Q w.
Proof. intros H. apply H. by destruct (m w). Qed.

Lemma wp_elim {A} (m : M A) (Q : result A -> World -> Prop) (w w' : World)
    (r : result A) :
  m w = (r, w') -> wp m Q w -> Q r w'.
Proof. unfold wp. by intros ->. Qed.

Lemma wp_ret {A} (a : A) (Q : result A -> World -> Prop) (w : World) :
  Q (Ret a) w -> wp (ret a) Q w.
Proof. done. Qed.

Lemma wp_get {A} (proj : World -> A) (Q : result A -> World -> Prop) (w : World) :
  Q (Ret (proj w)) w -> wp (get proj) Q w.
Proof. done. Qed.

Lemma wp_bind {A B} (m : M A) (k : A -> M B) (Q : result B -> World -> Prop)
    (w : World) :
  wp m (fun r w1 => match r with
                    | Ret a => wp (k a) Q w1
                    | Raise e => Q (Raise e) w1
                    end) w ->
  wp (bind m k) Q w.
Proof. unfold wp, bind. by destruct (m w) as [[a|e] w1]. Qed.

Lemma wp_try {A} (m : M A) (h : exn -> M A) (Q : result A -> World -> Prop)
    (w : World) :
  wp m (fun r w1 => match r with
                    | Ret a => Q (Ret a) w1
                    | Raise e => wp (h e) Q w1
                    end) w ->
  wp (try_except m h) Q w.
Proof. unfold wp, try_except. by destruct (m w) as [[a|e] w1]. Qed.

Lemma wp_call {A} (ev : result A -> event) (answer : list event -> result A)
    (Q : result A -> World -> Prop) (w : World) :
  (forall w1, after [ev (answer (trace w))] w w1 ->
              processed w1 = processed w -> disk w1 = disk w ->
              Q (answer (trace w)) w1) ->
  wp (call ev answer) Q w.
Proof. intros H. unfold wp, call. simpl. by apply H. Qed.

(** ** What the transcript of a step can hold *)

Lemma silent_is_nothing_else (ev : event) :
  is_silent ev = true ->
  is_post ev = false /\ post_ok ev = false /\ is_like ev = false
  /\ is_save ev = false /\ is_fetch ev = false.
Proof. by destruct ev. Qed.

Lemma existsb_none {A} (f : A -> bool) (l : list A) :
  Forall (fun x => f x = false) l -> existsb f l = false.
Proof. induction 1 as [|x l Hx _ IH]; simpl; [done | by rewrite Hx]. Qed.

Section Mentions.

Variable E : Env.

(** The calls of [safe_post_tweet] are posting calls with its reply target,
    and it returns True exactly when one of them went through. *)
Lemma safe_post_tweet_spec (w w' : World) (txt : pystr) (mids : option (list pystr))
    (i : Z) (r : result bool) :
  safe_post_tweet E txt mids (Some i) w = (r, w') ->
  processed w' = processed w /\ disk w' = disk w
  /\ exists evs, after evs w w'
       /\ Forall (fun ev => replies_to i ev /\ is_like ev = false
                            /\ is_save ev = false /\ is_fetch ev = false) evs
       /\ existsb post_ok evs = match r with Ret true => true | _ => false end.
Proof.
  unfold safe_post_tweet, bind, try_except, client_create_tweet,
    api_v1_update_status, call, set_tiers, ret, raise.
  set (kw := kwargs _ _ _). set (kw1 := kwargs_v1 _ _ _).
  destruct (create_tweet E (trace w) kw) as [[]|e] eqn:Hv2; simpl.
  - intros [= <- <-]. repeat split.
    exists [EvCreateTweet kw (Ret tt)]. repeat split. by repeat constructor.
  - assert (Hother : (Raise e, {| PAID_TIER := PAID_TIER w; USE_LLM := USE_LLM w;
                        processed := processed w; disk := disk w;
                        trace := EvCreateTweet kw (Raise e) :: trace w |}) = (r, w') ->
              processed w' = processed w /\ disk w' = disk w
              /\ exists evs, after evs w w'
                   /\ Forall (fun ev => replies_to i ev /\ is_like ev = false
                                        /\ is_save ev = false /\ is_fetch ev = false) evs
                   /\ existsb post_ok evs
                      = match r with Ret true => true | _ => false end).
    { intros [= <- <-]. repeat split.
      exists [EvCreateTweet kw (Raise e)]. repeat split. by repeat constructor. }
    destruct e as [msg| | | | |]; try exact Hother. clear Hother.
    destruct (quota_error (lower msg)); simpl.
    + destruct (update_status E _ kw1) as [[]|e1] eqn:Hv1; simpl;
        intros [= <- <-]; repeat split.
      * exists [EvUpdateStatus kw1 (Ret tt); EvCreateTweet kw (Raise (TweepyException msg))].
        repeat split. by repeat constructor.
      * exists [EvUpdateStatus kw1 (Raise e1); EvCreateTweet kw (Raise (TweepyException msg))].
        repeat split. by repeat constructor.
    + intros [= <- <-]. repeat split.
      exists [EvCreateTweet kw (Raise (TweepyException msg))]. repeat split.
      by repeat constructor.
Qed.

Lemma respond_one_handled (me : user) (m : mention) (w w' : World) (r : result unit) :
  respond_one E me m w = (r, w') -> exists evs, handled m w w' evs.
Proof.
  intros Hrun.
  apply (wp_elim _ (fun _ w' => exists evs, handled m w w' evs) _ _ _ Hrun).
  clear Hrun r w'. unfold respond_one.
  apply wp_bind, wp_get. case_bool_decide as Hin.
  { apply wp_ret. exists []. unfold handled. simpl. repeat split; try done.
    all: constructor. }
  apply wp_bind, wp_call. intros w1 Ha1 Hp1 Hd1.
  assert (Hnothing : exists evs, handled m w w1 evs).
  { exists [EvGetUser (author_id m) (get_user E (trace w) (author_id m))].
    unfold handled. simpl. rewrite Hp1, Hd1. repeat split; try done.
    all: by repeat constructor. }
  destruct (get_user E (trace w) (author_id m)) as [[ud|]|e]; try exact Hnothing.
  clear Hnothing. apply wp_bind, wp_intro. intros r2 w2 Hr2.
  pose proof (quiet_reply_text E (username ud)
                (strip (replace (u "@" ++ username me) [] (mention_text m))) w1) as Hq.
  rewrite Hr2 in Hq. simpl in Hq. destruct Hq as (Hp2 & Hd2 & sil & Ha2 & Hsil).
  assert (Hquiet : exists evs, handled m w w2 evs).
  { exists (sil ++ [EvGetUser (author_id m) (Ret (Some ud))]).
    unfold handled. rewrite Hp2, Hp1, Hd2, Hd1. split; [by eapply after_trans|].
    split; [done|]. split; [done|].
    split.
    { apply Forall_app. split; [|by repeat constructor].
      eapply Forall_impl; [exact Hsil|]. intros ev Hev.
      by destruct (silent_is_nothing_else ev Hev) as (_ & _ & _ & ? & ?). }
    split.
    { apply Forall_app. split; [|by repeat constructor].
      eapply Forall_impl; [exact Hsil|]. intros ev Hev.
      destruct (silent_is_nothing_else ev Hev) as (Hnp & _). by rewrite Hnp. }
    assert (Hno : existsb post_ok (sil ++ [EvGetUser (author_id m) (Ret (Some ud))])
                  = false).
    { rewrite existsb_app. simpl. rewrite existsb_none; [done|].
      eapply Forall_impl; [exact Hsil|]. intros ev Hev.
      by destruct (silent_is_nothing_else ev Hev) as (_ & ? & _). }
    rewrite Hno. split; [done|]. intros _. split; [done|].
    rewrite existsb_app. simpl. rewrite existsb_none; [done|].
    eapply Forall_impl; [exact Hsil|]. intros ev Hev.
    by destruct (silent_is_nothing_else ev Hev) as (_ & _ & ? & _). }
  destruct r2 as [full_resp|e]; [|exact Hquiet]. clear Hquiet.
  apply wp_bind, wp_intro. intros r3 w3 Hr3.
  destruct (safe_post_tweet_spec _ _ _ _ _ _ Hr3)
    as (Hp3 & Hd3 & pevs & Ha3 & Hposts & Hok).
  set (before := pevs ++ sil ++ [EvGetUser (author_id m) (Ret (Some ud))]).
  assert (Hbefore : after before w w3).
  { unfold before. eapply after_trans; [|exact Ha3]. by eapply after_trans. }
  assert (Hsave : Forall (fun ev => is_save ev = false /\ is_fetch ev = false) before).
  { unfold before. rewrite !Forall_app. split; [|split]; [| |by repeat constructor].
    - eapply Forall_impl; [exact Hposts|]. by intros ev (_ & _ & ? & ?).
    - eapply Forall_impl; [exact Hsil|]. intros ev Hev.
      by destruct (silent_is_nothing_else ev Hev) as (_ & _ & _ & ? & ?). }
  assert (Hreply : Forall (fun ev => is_post ev = true ->
                             replies_to (id m) ev /\ str_of_int (id m) ∉ processed w)
                     before).
  { unfold before. rewrite !Forall_app. split; [|split]; [| |by repeat constructor].
    - eapply Forall_impl; [exact Hposts|]. by intros ev (? & _).
    - eapply Forall_impl; [exact Hsil|]. intros ev Hev.
      destruct (silent_is_nothing_else ev Hev) as (Hnp & _). by rewrite Hnp. }
  assert (Hposted : existsb post_ok before
                    = match r3 with Ret true => true | _ => false end).
  { unfold before. rewrite !existsb_app, Hok. simpl.
    rewrite (existsb_none post_ok sil), !orb_false_r; [done|].
    eapply Forall_impl; [exact Hsil|]. intros ev Hev.
    by destruct (silent_is_nothing_else ev Hev) as (_ & ? & _). }
  assert (Hnolike : existsb is_like before = false).
  { unfold before. rewrite !existsb_app. simpl.
    rewrite (existsb_none is_like pevs), (existsb_none is_like sil); [done| |].
    - eapply Forall_impl; [exact Hsil|]. intros ev Hev.
      by destruct (silent_is_nothing_else ev Hev) as (_ & _ & ? & _).
    - eapply Forall_impl; [exact Hposts|]. by intros ev (_ & ? & _). }
  assert (Hfailed : match r3 with Ret true => False | _ => True end ->
                    exists evs, handled m w w3 evs).
  { intros Hr. exists before. unfold handled.
    rewrite Hp3, Hp2, Hp1, Hd3, Hd2, Hd1. repeat split; try done.
    rewrite Hposted. by destruct r3 as [[]|]. }
  destruct r3 as [[]|e]; [|by apply wp_ret, Hfailed|by apply Hfailed].
  clear Hfailed. apply wp_bind, wp_call. intros w4 Ha4 Hp4 Hd4.
  set (rl := like E (trace w3) (id m)) in *.
  assert (Hafter : after (EvLike (id m) rl :: before) w w4).
  { change (EvLike (id m) rl :: before) with ([EvLike (id m) rl] ++ before).
    by eapply after_trans. }
  assert (Hs4 : Forall (fun ev => is_save ev = false /\ is_fetch ev = false)
                  (EvLike (id m) rl :: before)) by by constructor.
  assert (Hr4 : Forall (fun ev => is_post ev = true ->
                          replies_to (id m) ev /\ str_of_int (id m) ∉ processed w)
                  (EvLike (id m) rl :: before)) by by constructor.
  destruct rl as [[]|e] eqn:Hrl.
  - unfold processed_add. apply wp_bind, wp_get. unfold wp. simpl.
    exists (EvLike (id m) (Ret tt) :: before). unfold handled. simpl.
    rewrite Hp4, Hp3, Hp2, Hp1, Hd4, Hd3, Hd2, Hd1.
    repeat split; try done; try congruence.
    + apply union_subseteq_r.
    + intros _. exists (Ret tt). split; [by left | done].
  - exists (EvLike (id m) (Raise e) :: before). unfold handled. simpl.
    rewrite Hp4, Hp3, Hp2, Hp1, Hd4, Hd3, Hd2, Hd1.
    repeat split; try done; try congruence.
    intros _. exists (Raise e). split; [by left | done].
Qed.

(** The loop: the file is not touched, the set only grows, nothing is saved
    or fetched, and every posting call is a reply to one of the mentions
    gone through that was not in the set when the loop began. *)
Lemma for_mentions_spec (me : user) (ms : list mention) (w w' : World)
    (r : result unit) :
  for_mentions E me ms w = (r, w') ->
  disk w' = disk w /\ processed w ⊆ processed w'
  /\ exists evs, after evs w w'
       /\ Forall (fun ev => is_save ev = false /\ is_fetch ev = false) evs
       /\ Forall (fun ev => is_post ev = true ->
                    exists m, In m ms /\ replies_to (id m) ev
                              /\ str_of_int (id m) ∉ processed w) evs.
Proof.
  revert w r w'. induction ms as [|m ms IH]; intros w r w'; simpl.
  - intros [= <- <-]. repeat split; [done|]. exists []. by repeat split.
  - unfold bind. destruct (respond_one E me m w) as [r1 w1] eqn:H1.
    destruct (respond_one_handled me m w w1 r1 H1)
      as (evs1 & Ha1 & Hd1 & Hp1 & Hs1 & Hr1 & _).
    assert (Hhere : Forall (fun ev => is_post ev = true ->
                      exists m0, (m = m0 \/ In m0 ms) /\ replies_to (id m0) ev
                                 /\ str_of_int (id m0) ∉ processed w) evs1).
    { eapply Forall_impl; [exact Hr1|]. intros ev Hev Hpost.
      exists m. split; [by left | by apply Hev]. }
    destruct r1 as [[]|e].
    + intros Hrest. destruct (IH _ _ _ Hrest) as (Hd2 & Hp2 & evs2 & Ha2 & Hs2 & Hr2).
      split; [congruence|]. split; [by etransitivity|].
      exists (evs2 ++ evs1). split; [by eapply after_trans|].
      split; [by apply Forall_app|]. apply Forall_app. split; [|done].
      eapply Forall_impl; [exact Hr2|]. intros ev Hev Hpost.
      destruct (Hev Hpost) as (m0 & Hm0 & Hrep & Hnot).
      exists m0. split; [by right|]. split; [done|].
      intros Hin. apply Hnot. by apply Hp1.
    + intros [= <- <-]. split; [done|]. split; [done|]. by exists evs1.
Qed.

(** A pass that stops before the loop has called nothing that matters. *)
Lemma pass_ok_fetch_only (P : gset pystr) (w w' : World) (evs : list event) :
  after evs w w' -> disk w' = disk w ->
  Forall (fun ev => is_fetch ev = true) evs ->
  pass_ok P w w' evs /\ existsb is_save evs = false.
Proof.
  intros Ha Hd Hf. rewrite Forall_forall in Hf.
  assert (Hnone : forall ev, In ev evs -> is_save ev = false /\ is_post ev = false).
  { intros ev Hev. apply list_elem_of_In, Hf in Hev. by destruct ev. }
  split.
  - split; [done|]. split; [|split; [|done]].
    + intros l o Hin. by destruct (Hnone _ Hin).
    + intros ev Hin Hpost. destruct (Hnone _ Hin). congruence.
  - apply existsb_none, Forall_forall. intros ev Hev.
    by apply list_elem_of_In, Hnone in Hev as [? _].
Qed.

(** The [try] block of a pass, from the set it was given. *)
Lemma bot_respond_try_spec (w w' : World) (r : result unit) :
  bot_respond_try E w = (r, w') ->
  exists evs, pass_ok (processed w) w w' evs
              /\ (forall e, r = Raise e -> existsb is_save evs = false).
Proof.
  intros Hrun.
  apply (wp_elim _ (fun r w' => exists evs, pass_ok (processed w) w w' evs
            /\ (forall e, r = Raise e -> existsb is_save evs = false)) _ _ _ Hrun).
  clear Hrun r w'. unfold bot_respond_try.
  apply wp_bind, wp_call. intros w1 Ha1 Hp1 Hd1.
  assert (Hstop1 : exists evs, pass_ok (processed w) w w1 evs
                               /\ existsb is_save evs = false).
  { eexists. eapply pass_ok_fetch_only; [exact Ha1 | done | by repeat constructor]. }
  destruct (get_me E (trace w)) as [[me|]|e0].
  2: { apply wp_ret. destruct Hstop1 as (evs & ? & ?). by exists evs. }
  2: { destruct Hstop1 as (evs & ? & ?). by exists evs. }
  clear Hstop1. apply wp_bind, wp_call. intros w2 Ha2 Hp2 Hd2.
  set (fetched := [EvGetUsersMentions (user_id me)
                     (get_users_mentions E (trace w1) (user_id me));
                   EvGetMe (Ret (Some me))]).
  assert (Hfetched : after fetched w w2).
  { unfold fetched. by apply (after_trans [_] [_] w w1 w2). }
  assert (Hstop2 : exists evs, pass_ok (processed w) w w2 evs
                               /\ existsb is_save evs = false).
  { exists fetched. apply pass_ok_fetch_only; [done | congruence |].
    by repeat constructor. }
  destruct (get_users_mentions E (trace w1) (user_id me)) as [[|m ms]|e0] eqn:Hbatch.
  1: { apply wp_ret. destruct Hstop2 as (evs & ? & ?). by exists evs. }
  2: { destruct Hstop2 as (evs & ? & ?). by exists evs. }
  clear Hstop2. set (batch := m :: ms) in *.
  apply wp_bind, wp_intro. intros r3 w3 Hloop.
  destruct (for_mentions_spec me batch w2 w3 r3 Hloop)
    as (Hd3 & Hp3 & levs & Ha3 & Hs3 & Hr3).
  rewrite Forall_forall in Hs3, Hr3.
  assert (Hlooped : after (levs ++ fetched) w w3) by by eapply after_trans.
  assert (Hposts : forall evs' ev, In ev (evs' ++ levs ++ fetched) ->
            Forall (fun ev => is_post ev = false) evs' ->
            is_post ev = true ->
            exists uid b m0,
              In (EvGetUsersMentions uid (Ret b)) (evs' ++ levs ++ fetched)
              /\ In m0 b /\ replies_to (id m0) ev
              /\ str_of_int (id m0) ∉ processed w).
  { intros evs' ev Hin Hevs' Hpost. rewrite !in_app_iff in Hin.
    destruct Hin as [Hin | [Hin | Hin]].
    - rewrite Forall_forall in Hevs'. apply list_elem_of_In, Hevs' in Hin. congruence.
    - destruct (Hr3 ev (proj2 (list_elem_of_In _ _) Hin) Hpost) as (m0 & Hm0 & Hrep & Hnot).
      exists (user_id me), batch, m0. rewrite !in_app_iff. split.
      { right. right. by left. }
      split; [done|]. split; [done|]. by rewrite <- Hp1, <- Hp2.
    - unfold fetched in Hin. simpl in Hin.
      destruct Hin as [<- | [<- | []]]; discriminate. }
  assert (Hnosave : forall l o, In (EvSave l o) (levs ++ fetched) -> False).
  { intros l o Hin. rewrite in_app_iff in Hin. destruct Hin as [Hin | Hin].
    - apply list_elem_of_In, Hs3 in Hin. by destruct Hin.
    - unfold fetched in Hin. simpl in Hin.
      destruct Hin as [? | [? | []]]; discriminate. }
  assert (Hnosaveb : existsb is_save (levs ++ fetched) = false).
  { apply existsb_none, Forall_forall. intros ev Hev.
    destruct (is_save ev) eqn:Hsv; [|done]. destruct ev; try discriminate.
    destruct (Hnosave l r). by apply list_elem_of_In. }
  destruct r3 as [[]|e3].
  2: { exists (levs ++ fetched). split; [|done].
       split; [done|]. split; [|split].
       - intros l o Hin. destruct (Hnosave l o Hin).
       - intros ev Hin Hpost. by apply (Hposts [] ev Hin).
       - intros _. congruence. }
  apply wp_bind, wp_get. unfold save_json_set.
  apply wp_bind, wp_call. intros w4 Ha4 Hp4 Hd4.
  set (l := elements (processed w3)) in *.
  set (saved := EvSave l (Ret (write_file E (trace w3)))) in *.
  assert (Hall : after (saved :: levs ++ fetched) w w4).
  { by apply (after_trans (levs ++ fetched) [saved] w w3 w4). }
  assert (Hkeeps : processed w ⊆ list_to_set l).
  { unfold l. rewrite list_to_set_elements_L. by rewrite <- Hp1, <- Hp2. }
  assert (Hdone : forall w5 : World,
            trace w5 = trace w4 ->
            (write_file E (trace w3) = Written -> disk w5 = JsonStrings l) ->
            exists evs, pass_ok (processed w) w w5 evs
                        /\ (forall e, @Ret unit tt = Raise e -> existsb is_save evs = false)).
  { intros w5 Ht Hw. exists (saved :: levs ++ fetched). split; [|done].
    split; [unfold after; by rewrite Ht|]. split; [|split].
    - intros l' o [Heq | Hin]; [|destruct (Hnosave l' o Hin)].
      injection Heq as <- <-. split; [done|]. intros [= Hwritten]. by apply Hw.
    - intros ev Hin Hpost. apply (Hposts [saved] ev Hin); [|done].
      by repeat constructor.
    - simpl. discriminate. }
  destruct (write_file E (trace w3)) eqn:Hwrite; unfold wp; simpl;
    apply Hdone; try done.
Qed.

(** ** Likes and the set *)

Lemma after_inj (evs1 evs2 : list event) (w w' : World) :
  after evs1 w w' -> after evs2 w w' -> evs1 = evs2.
Proof. unfold after. intros H1 H2. rewrite H1 in H2. by apply app_inv_tail in H2. Qed.

Lemma no_like_among (evs : list event) (i : Z) (r : result unit) :
  existsb is_like evs = false -> In (EvLike i r) evs -> False.
Proof.
  intros Hno Hin.
  assert (Hsome : existsb is_like evs = true).
  { apply existsb_exists. by exists (EvLike i r). }
  congruence.
Qed.

(** Handling one mention: the one like it can make is the like of that
    mention, and when it returns the id is added right away. *)
Lemma respond_one_likes (me : user) (m : mention) (w w' : World) (r : result unit) :
  respond_one E me m w = (r, w') ->
  exists evs, after evs w w' /\ processed w ⊆ processed w' /\ liked_marked evs w'.
Proof.
  intros Hrun.
  apply (wp_elim _ (fun _ w' => exists evs, after evs w w'
           /\ processed w ⊆ processed w' /\ liked_marked evs w') _ _ _ Hrun).
  clear Hrun r w'.
  assert (Hno : forall w' evs, after evs w w' -> processed w' = processed w ->
            existsb is_like evs = false ->
            exists evs, after evs w w' /\ processed w ⊆ processed w'
                        /\ liked_marked evs w').
  { intros w' evs Ha Hp Hl. exists evs. split; [done|]. split; [by rewrite Hp|].
    intros i Hi. destruct (no_like_among evs i _ Hl Hi). }
  unfold respond_one.
  apply wp_bind, wp_get. case_bool_decide as Hin.
  { apply wp_ret. by apply (Hno w []). }
  apply wp_bind, wp_call. intros w1 Ha1 Hp1 Hd1.
  destruct (get_user E (trace w) (author_id m)) as [[ud|]|e].
  2: { apply wp_ret. by eapply Hno. }
  2: { by eapply Hno. }
  apply wp_bind, wp_intro. intros r2 w2 Hr2.
  pose proof (quiet_reply_text E (username ud)
                (strip (replace (u "@" ++ username me) [] (mention_text m))) w1) as Hq.
  rewrite Hr2 in Hq. simpl in Hq. destruct Hq as (Hp2 & Hd2 & sil & Ha2 & Hsil).
  set (looked := sil ++ [EvGetUser (author_id m) (Ret (Some ud))]).
  assert (Hlooked : after looked w w2) by by eapply after_trans.
  assert (Hsil' : existsb is_like sil = false).
  { apply existsb_none. eapply Forall_impl; [exact Hsil|]. intros ev Hev.
    by destruct (silent_is_nothing_else ev Hev) as (_ & _ & ? & _). }
  assert (Hl2 : existsb is_like looked = false).
  { unfold looked. rewrite existsb_app, Hsil'. done. }
  destruct r2 as [full_resp|e]; [|apply (Hno w2 looked); congruence].
  apply wp_bind, wp_intro. intros r3 w3 Hr3.
  destruct (safe_post_tweet_spec _ _ _ _ _ _ Hr3)
    as (Hp3 & Hd3 & pevs & Ha3 & Hposts & _).
  set (before := pevs ++ looked).
  assert (Hbefore : after before w w3) by by eapply after_trans.
  assert (Hl3 : existsb is_like before = false).
  { unfold before. rewrite existsb_app, Hl2, orb_false_r.
    apply existsb_none. eapply Forall_impl; [exact Hposts|]. by intros ev (_ & ? & _). }
  assert (Hp03 : processed w3 = processed w) by congruence.
  destruct r3 as [[]|e]; [|apply wp_ret; by apply (Hno w3 before)
                          |by apply (Hno w3 before)].
  apply wp_bind, wp_call. intros w4 Ha4 Hp4 Hd4.
  assert (Hafter : forall rl, after [EvLike (id m) rl] w3 w4 ->
                              after (EvLike (id m) rl :: before) w w4).
  { intros rl Hrl. change (EvLike (id m) rl :: before) with ([EvLike (id m) rl] ++ before).
    by eapply after_trans. }
  destruct (like E (trace w3) (id m)) as [[]|e].
  - unfold processed_add. apply wp_bind, wp_get. unfold wp. simpl.
    exists (EvLike (id m) (Ret tt) :: before).
    split; [exact (Hafter _ Ha4)|]. rewrite Hp4, Hp03.
    split; [apply union_subseteq_r|].
    intros i [Heq | Hi]; [|destruct (no_like_among before i _ Hl3 Hi)].
    injection Heq as <-. simpl. apply elem_of_union_l. by apply elem_of_singleton.
  - exists (EvLike (id m) (Raise e) :: before).
    split; [exact (Hafter _ Ha4)|]. split; [by rewrite Hp4, Hp03|].
    intros i [Heq | Hi]; [discriminate|destruct (no_like_among before i _ Hl3 Hi)].
Qed.

Lemma for_mentions_likes (me : user) (ms : list mention) (w w' : World)
    (r : result unit) :
  for_mentions E me ms w = (r, w') ->
  exists evs, after evs w w' /\ processed w ⊆ processed w' /\ liked_marked evs w'.
Proof.
  revert w r w'. induction ms as [|m ms IH]; intros w r w'; simpl.
  - intros [= <- <-]. exists []. split; [done|]. split; [done|]. intros i [].
  - unfold bind. destruct (respond_one E me m w) as [r1 w1] eqn:H1.
    destruct (respond_one_likes me m w w1 r1 H1) as (evs1 & Ha1 & Hp1 & Hl1).
    destruct r1 as [[]|e].
    + intros Hrest. destruct (IH _ _ _ Hrest) as (evs2 & Ha2 & Hp2 & Hl2).
      exists (evs2 ++ evs1). split; [by eapply after_trans|].
      split; [by etransitivity|].
      intros i Hi. apply in_app_iff in Hi as [Hi | Hi]; [by apply Hl2|].
      apply Hp2. by apply Hl1.
    + intros [= <- <-]. by exists evs1.
Qed.

(** The [try] block: the list handed to a write holds every mention whose
    like returned in this pass. *)
Lemma bot_respond_try_likes (w w' : World) (r : result unit) :
  bot_respond_try E w = (r, w') ->
  exists evs, after evs w w'
    /\ forall l o i, In (EvSave l o) evs -> In (EvLike i (Ret tt)) evs ->
                     str_of_int i ∈ (list_to_set l : gset pystr).
Proof.
  intros Hrun.
  apply (wp_elim _ (fun _ w' => exists evs, after evs w w'
           /\ forall l o i, In (EvSave l o) evs -> In (EvLike i (Ret tt)) evs ->
                            str_of_int i ∈ (list_to_set l : gset pystr))
           _ _ _ Hrun).
  clear Hrun r w'.
  assert (Hno : forall w' evs, after evs w w' ->
            (forall l o, In (EvSave l o) evs -> False) ->
            exists evs, after evs w w'
              /\ forall l o i, In (EvSave l o) evs -> In (EvLike i (Ret tt)) evs ->
                               str_of_int i ∈ (list_to_set l : gset pystr)).
  { intros w' evs Ha Hs. exists evs. split; [done|].
    intros l o i Hsv. destruct (Hs l o Hsv). }
  unfold bot_respond_try.
  apply wp_bind, wp_call. intros w1 Ha1 Hp1 Hd1.
  assert (Hstop1 : forall l o, In (EvSave l o) [EvGetMe (get_me E (trace w))] -> False).
  { intros l o [? | []]. discriminate. }
  destruct (get_me E (trace w)) as [[me|]|e0].
  2: { apply wp_ret. by eapply Hno. }
  2: { by eapply Hno. }
  clear Hstop1. apply wp_bind, wp_call. intros w2 Ha2 Hp2 Hd2.
  set (fetched := [EvGetUsersMentions (user_id me)
                     (get_users_mentions E (trace w1) (user_id me));
                   EvGetMe (Ret (Some me))]).
  assert (Hfetched : after fetched w w2).
  { unfold fetched. by apply (after_trans [_] [_] w w1 w2). }
  assert (Hplain : forall ev, In ev fetched -> is_save ev = false /\ is_like ev = false).
  { intros ev [<- | [<- | []]]; done. }
  assert (Hstop2 : forall l o, In (EvSave l o) fetched -> False).
  { intros l o Hin. by destruct (Hplain _ Hin). }
  destruct (get_users_mentions E (trace w1) (user_id me)) as [[|m ms]|e0] eqn:Hbatch.
  1: { apply wp_ret. by eapply Hno. }
  2: { by eapply Hno. }
  set (batch := m :: ms) in *.
  apply wp_bind, wp_intro. intros r3 w3 Hloop.
  destruct (for_mentions_spec me batch w2 w3 r3 Hloop)
    as (_ & _ & levs & Ha3 & Hs3 & _).
  destruct (for_mentions_likes me batch w2 w3 r3 Hloop) as (levs' & Ha3' & _ & Hl3).
  rewrite <- (after_inj levs levs' w2 w3 Ha3 Ha3') in Hl3. clear levs' Ha3'.
  rewrite Forall_forall in Hs3.
  assert (Hlooped : after (levs ++ fetched) w w3) by by eapply after_trans.
  assert (Hnosave : forall l o, In (EvSave l o) (levs ++ fetched) -> False).
  { intros l o Hin. rewrite in_app_iff in Hin. destruct Hin as [Hin | Hin].
    - apply list_elem_of_In, Hs3 in Hin. by destruct Hin.
    - by apply (Hstop2 l o). }
  destruct r3 as [[]|e3]; [|by apply (Hno w3 (levs ++ fetched))].
  apply wp_bind, wp_get. unfold save_json_set.
  apply wp_bind, wp_call. intros w4 Ha4 Hp4 Hd4.
  set (l := elements (processed w3)) in *.
  set (saved := EvSave l (Ret (write_file E (trace w3)))) in *.
  assert (Hall : after (saved :: levs ++ fetched) w w4).
  { by apply (after_trans (levs ++ fetched) [saved] w w3 w4). }
  assert (Hdone : forall w5 : World,
            trace w5 = trace w4 ->
            exists evs, after evs w w5
              /\ forall l o i, In (EvSave l o) evs -> In (EvLike i (Ret tt)) evs ->
                               str_of_int i ∈ (list_to_set l : gset pystr)).
  { intros w5 Ht. exists (saved :: levs ++ fetched).
    split; [unfold after; by rewrite Ht|].
    intros l' o i [Heq | Hin] Hlike; [|destruct (Hnosave l' o Hin)].
    injection Heq as <- _. unfold l. rewrite list_to_set_elements_L.
    destruct Hlike as [Hlike | Hlike]; [discriminate|].
    rewrite in_app_iff in Hlike. destruct Hlike as [Hlike | Hlike].
    - by apply Hl3.
    - by destruct (Hplain _ Hlike). }
  destruct (write_file E (trace w3)); unfold wp; simpl; by apply Hdone.
Qed.

End Mentions.

(** ** Mention processing *)

Lemma after_calls_during (evs : list event) (w w' : World) :
  after evs w w' -> calls_during w w' = evs.
Proof.
  unfold after, calls_during. intros ->. rewrite length_app.
  replace (length evs + length (trace w) - length (trace w))%nat
    with (length evs) by lia.
  apply take_app_length.
Qed.

Section Pass.

Variable E : Env.

(** [bot_respond] from a readable file: the [try] block runs on the loaded
    set and whatever it raises is swallowed. *)
Lemma bot_respond_unfold (w : World) (P : gset pystr) :
  stored (disk w) = Some P ->
  bot_respond E w
  = match bot_respond_try E (set_processed P w).2 with
    | (Ret a, w') => (Ret a, w')
    | (Raise _, w') => (Ret tt, w')
    end.
Proof.
  intros Hst. unfold bot_respond, load_json_set, bind, get, try_except.
  destruct (disk w); simpl in Hst; simplify_eq; reflexivity.
Qed.

Lemma bot_respond_spec (w : World) (P : gset pystr) :
  stored (disk w) = Some P ->
  pass_ok P w (bot_respond E w).2 (calls_during w (bot_respond E w).2).
Proof.
  intros Hst. rewrite (bot_respond_unfold w P Hst).
  destruct (bot_respond_try E (set_processed P w).2) as [r w'] eqn:Hrun.
  destruct (bot_respond_try_spec E _ _ _ Hrun) as (evs & (Ha & Hsave & Hpost & Hd) & _).
  simpl in Ha, Hsave, Hpost, Hd.
  assert (Hafter : after evs w w') by exact Ha.
  assert (Hpass : pass_ok P w w' evs) by done.
  rewrite <- (after_calls_during evs w w' Hafter) in Hpass.
  by destruct r.
Qed.

(** The list a pass writes holds every mention whose like returned in
    that pass. *)
Lemma bot_respond_saves_liked (w : World) (P : gset pystr) :
  stored (disk w) = Some P ->
  forall l o i,
    In (EvSave l o) (calls_during w (bot_respond E w).2) ->
    In (EvLike i (Ret tt)) (calls_during w (bot_respond E w).2) ->
    str_of_int i ∈ (list_to_set l : gset pystr).
Proof.
  intros Hst. rewrite (bot_respond_unfold w P Hst).
  destruct (bot_respond_try E (set_processed P w).2) as [r w'] eqn:Hrun.
  destruct (bot_respond_try_likes E _ _ _ Hrun) as (evs & Ha & Hliked).
  assert (Hafter : after evs w w') by exact Ha.
  assert (Hcalls : calls_during w w' = evs) by by apply after_calls_during.
  destruct r; simpl; by rewrite Hcalls.
Qed.

(** C2, as the code has it.  In a pass of [bot_respond], every posting
    call is a reply to a mention of the batch fetched in that pass whose id
    is not in the set loaded from the file: a mention that is in the loaded
    set is skipped.  Running the pass again gives no posting call when the
    pass before wrote the file, every mention of its batch was in the set
    or had its like returned (which comes after its reply was posted), and
    the batch fetched again is the batch fetched before. *)
Theorem bot_respond_skips_processed (w : World) (P : gset pystr) :
  stored (disk w) = Some P ->
  let w1 := (bot_respond E w).2 in
  let evs := calls_during w w1 in
  after evs w w1
  /\ (forall ev, In ev evs -> is_post ev = true ->
        exists uid batch m,
          In (EvGetUsersMentions uid (Ret batch)) evs /\ In m batch
          /\ replies_to (id m) ev /\ str_of_int (id m) ∉ P)
  /\ (forall l,
        In (EvSave l (Ret Written)) evs ->
        (forall uid batch m,
           In (EvGetUsersMentions uid (Ret batch)) evs -> In m batch ->
           str_of_int (id m) ∈ P \/ In (EvLike (id m) (Ret tt)) evs) ->
        let w2 := (bot_respond E w1).2 in
        (forall uid batch,
           In (EvGetUsersMentions uid (Ret batch)) (calls_during w1 w2) ->
           In (EvGetUsersMentions uid (Ret batch)) evs) ->
        existsb is_post (calls_during w1 w2) = false).
Proof.
  intros Hst w1 evs.
  destruct (bot_respond_spec w P Hst) as (Ha & Hsave & Hpost & _).
  fold w1 in Ha, Hsave, Hpost. fold evs in Ha, Hsave, Hpost.
  split; [done|]. split; [done|].
  intros l Hl Hall w2 Hsame.
  destruct (Hsave l (Ret Written) Hl) as [Hsub Hdisk].
  assert (Hst1 : stored (disk w1) = Some (list_to_set l)).
  { by rewrite (Hdisk eq_refl). }
  destruct (bot_respond_spec w1 (list_to_set l) Hst1) as (_ & _ & Hpost2 & _).
  fold w2 in Hpost2.
  apply existsb_none, Forall_forall. intros ev Hev.
  destruct (is_post ev) eqn:Hp; [|done].
  apply list_elem_of_In in Hev.
  destruct (Hpost2 ev Hev Hp) as (uid & batch & m & Hb & Hm & _ & Hnot).
  destruct Hnot.
  destruct (Hall uid batch m (Hsame uid batch Hb) Hm) as [HinP | Hliked].
  - by apply Hsub.
  - by apply (bot_respond_saves_liked w P Hst l (Ret Written) (id m)).
Qed.

(** C10.  A pass never takes an id out of the set: whenever a pass of
    [bot_respond] gets to write the file, the list it writes holds every id
    of the set loaded at the start of the pass, and that list is what the
    file holds once the write has gone through. *)
Theorem bot_respond_saves_superset (w : World) (P : gset pystr) :
  stored (disk w) = Some P ->
  let w' := (bot_respond E w).2 in
  forall l o, In (EvSave l o) (calls_during w w') ->
    P ⊆ list_to_set l
    /\ (o = Ret Written -> stored (disk w') = Some (list_to_set l)).
Proof.
  intros Hst w' l o Hin.
  destruct (bot_respond_spec w P Hst) as (_ & Hsave & _).
  destruct (Hsave l o Hin) as [Hsub Hdisk]. split; [done|].
  intros Ho. fold w' in Hdisk. by rewrite (Hdisk Ho).
Qed.

(** C4, as the code has it.  When an exception is raised inside the [try]
    block of a pass, the pass ends there: [bot_respond] returns without
    having attempted a write, and the file is as it was before the pass.
    The ids marked earlier in the pass are in memory only. *)
Theorem bot_respond_abort_skips_save (w w1 : World) (P : gset pystr) (e : exn) :
  stored (disk w) = Some P ->
  bot_respond_try E (set_processed P w).2 = (Raise e, w1) ->
  bot_respond E w = (Ret tt, w1)
  /\ existsb is_save (calls_during w w1) = false
  /\ disk w1 = disk w.
Proof.
  intros Hst Hrun. rewrite (bot_respond_unfold w P Hst), Hrun.
  split; [done|].
  destruct (bot_respond_try_spec E _ _ _ Hrun) as (evs & (Ha & _ & _ & Hd) & Hraise).
  simpl in Ha, Hd.
  assert (Hafter : after evs w w1) by exact Ha.
  rewrite (after_calls_during evs w w1 Hafter).
  split; [by eapply Hraise|]. apply Hd. by eapply Hraise.
Qed.

(** C3, as the code has it.  For a mention handled in a pass: if the reply
    goes through, a like of the mention is attempted and, once that like
    returns, the id of the mention is in the set; if no reply goes through,
    the set is as before and nothing is liked. *)
Theorem respond_one_marks_after_like (me : user) (m : mention) (w : World) :
  let w' := (respond_one E me m w).2 in
  let evs := calls_during w w' in
  let tid := str_of_int (id m) in
  after evs w w'
  /\ (existsb post_ok evs = true ->
      exists rl, In (EvLike (id m) rl) evs
                 /\ (rl = Ret tt -> processed w' = {[ tid ]} ∪ processed w))
  /\ (existsb post_ok evs = false ->
      processed w' = processed w /\ existsb is_like evs = false).
Proof.
  intros w' evs tid.
  destruct (respond_one E me m w) as [r w2] eqn:Hrun.
  destruct (respond_one_handled E me m w w2 r Hrun)
    as (evs' & Ha & _ & _ & _ & _ & Hok & Hfail).
  subst w' evs. simpl. by rewrite (after_calls_during evs' w w2 Ha).
Qed.

End Pass.

(** ** Mention processing on the scenarios *)

Lemma bot_respond_skips_processed_witness :
  let w := Scenario.seen [u "101"] in
  let P : gset pystr := list_to_set [u "101"] in
  let w1 := (bot_respond Scenario.all_fine w).2 in
  let w2 := (bot_respond Scenario.all_fine w1).2 in
  stored (disk w) = Some P
  /\ In (EvSave [u "102"; u "101"] (Ret Written)) (calls_during w w1)
  /\ existsb is_post (calls_during w w1) = true
  /\ existsb is_post (calls_during w1 w2) = false.
Proof.
  intros w P w1 w2.
  pose (calls1 := ltac:(let l := eval vm_compute in
                         (calls_during (Scenario.seen [u "101"])
                            (bot_respond Scenario.all_fine (Scenario.seen [u "101"])).2)
                       in exact l)).
  pose (calls2 := ltac:(let l := eval vm_compute in
                          (let w1 := (bot_respond Scenario.all_fine
                                        (Scenario.seen [u "101"])).2 in
                           calls_during w1 (bot_respond Scenario.all_fine w1).2)
                        in exact l)).
  assert (Hfirst : calls_during w w1 = calls1) by (vm_compute; reflexivity).
  assert (Hsecond : calls_during w1 w2 = calls2) by (vm_compute; reflexivity).
  assert (Hsave : In (EvSave [u "102"; u "101"] (Ret Written)) (calls_during w w1)).
  { rewrite Hfirst. left. reflexivity. }
  assert (Hall : forall uid batch m,
            In (EvGetUsersMentions uid (Ret batch)) (calls_during w w1) ->
            In m batch ->
            str_of_int (id m) ∈ P \/ In (EvLike (id m) (Ret tt)) (calls_during w w1)).
  { intros uid batch m Hb Hm. rewrite Hfirst in Hb |- *. unfold calls1 in Hb.
    repeat (destruct Hb as [Hb | Hb]; [try discriminate Hb|]); [|destruct Hb].
    injection Hb as <- <-.
    destruct Hm as [<- | [<- | []]].
    - left. apply (bool_decide_unpack _). vm_compute. exact I.
    - right. unfold calls1. simpl. repeat first [left; reflexivity | right]. }
  assert (Hsame : forall uid batch,
            In (EvGetUsersMentions uid (Ret batch)) (calls_during w1 w2) ->
            In (EvGetUsersMentions uid (Ret batch)) (calls_during w w1)).
  { intros uid batch Hb. rewrite Hsecond in Hb. rewrite Hfirst. unfold calls2 in Hb.
    repeat (destruct Hb as [Hb | Hb]; [try discriminate Hb|]); [|destruct Hb].
    injection Hb as <- <-. unfold calls1. simpl.
    repeat first [left; reflexivity | right]. }
  split; [reflexivity|]. split; [exact Hsave|]. split; [vm_compute; reflexivity|].
  exact (proj2 (proj2 (bot_respond_skips_processed Scenario.all_fine w P eq_refl))
           [u "102"; u "101"] Hsave Hall Hsame).
Defined.

(** C2, as the spec words it.  Likes are refused: the first pass posts its
    reply to 101 and ends at the like, without marking or writing.  The
    file, and so the set the next pass loads, is unchanged, the batch
    fetched is the same, and the second pass posts a reply to 101 again. *)
Lemma rerun_replies_again_when_like_refused :
  let E := Scenario.like_refused in
  let w1 := (bot_respond E Scenario.fresh).2 in
  let w2 := (bot_respond E w1).2 in
  let replies w w' :=
    omap (fun ev => match ev with
                    | EvCreateTweet kw (Ret _) => Some (in_reply_to_tweet_id kw)
                    | _ => None
                    end) (calls_during w w') in
  let batches w w' :=
    omap (fun ev => match ev with
                    | EvGetUsersMentions _ (Ret batch) => Some batch
                    | _ => None
                    end) (calls_during w w') in
  stored (disk w1) = stored (disk Scenario.fresh)
  /\ batches w1 w2 = batches Scenario.fresh w1
  /\ replies Scenario.fresh w1 = [Some 101]
  /\ replies w1 w2 = [Some 101]
  /\ existsb is_post (calls_during w1 w2) = true.
Proof.
  intros E w1 w2 replies batches.
  split; [vm_compute; reflexivity|]. split; [vm_compute; reflexivity|].
  split; [vm_compute; reflexivity|]. split; vm_compute; reflexivity.
Qed.

(** With 101 on file and 101, 102 waiting, the only post is the reply to
    102, and both ids are on file afterwards. *)
Example only_the_new_mention_is_answered :
  let w' := (bot_respond Scenario.all_fine (Scenario.seen [u "101"])).2 in
  map in_reply_to_tweet_id
    (omap (fun ev => match ev with EvCreateTweet kw _ => Some kw | _ => None end)
       (trace w'))
  = [Some 102]
  /\ stored (disk w') = Some (list_to_set [u "102"; u "101"]).
Proof. split; vm_compute; reflexivity. Qed.

(** A second pass over the same batch, on the file the first pass left,
    posts nothing. *)
Example rerun_posts_nothing :
  let w1 := (bot_respond Scenario.all_fine Scenario.fresh).2 in
  let w2 := (bot_respond Scenario.all_fine w1).2 in
  existsb is_post (calls_during Scenario.fresh w1) = true
  /\ existsb is_post (calls_during w1 w2) = false
  /\ disk w2 = disk w1.
Proof. repeat split; vm_compute; reflexivity. Qed.

Lemma bot_respond_saves_superset_witness :
  let w := Scenario.seen [u "101"] in
  let P : gset pystr := list_to_set [u "101"] in
  let w' := (bot_respond Scenario.all_fine w).2 in
  let l := [u "102"; u "101"] in
  stored (disk w) = Some P
  /\ In (EvSave l (Ret Written)) (calls_during w w')
  /\ P ⊆ list_to_set l
  /\ (Ret Written = Ret Written -> stored (disk w') = Some (list_to_set l)).
Proof.
  intros w P w' l.
  assert (Hin : In (EvSave l (Ret Written)) (calls_during w w')).
  { vm_compute. left. reflexivity. }
  split; [reflexivity|]. split; [exact Hin|].
  exact (bot_respond_saves_superset Scenario.all_fine w P eq_refl l (Ret Written) Hin).
Defined.

Lemma bot_respond_abort_skips_save_witness :
  let E := Scenario.second_lookup_breaks in
  let w := Scenario.fresh in
  let e := TweepyException (u "503 Service Unavailable") in
  let w1 := (bot_respond_try E (set_processed ∅ w).2).2 in
  stored (disk w) = Some ∅
  /\ bot_respond_try E (set_processed ∅ w).2 = (Raise e, w1)
  /\ bot_respond E w = (Ret tt, w1)
  /\ existsb is_save (calls_during w w1) = false
  /\ disk w1 = disk w.
Proof.
  intros E w e w1.
  assert (Hrun : bot_respond_try E (set_processed ∅ w).2 = (Raise e, w1)).
  { vm_compute. reflexivity. }
  split; [reflexivity|]. split; [exact Hrun|].
  exact (bot_respond_abort_skips_save E w w1 ∅ e eq_refl Hrun).
Defined.

(** C4, as the spec words it.  The lookup of the second author raises after
    the first mention was answered, liked and marked: the pass ends with 101
    in the set in memory and nothing on file. *)
Lemma abort_loses_marked_ids :
  let E := Scenario.second_lookup_breaks in
  let w1 := (bot_respond E Scenario.fresh).2 in
  (bot_respond_try E Scenario.fresh).1
  = Raise (TweepyException (u "503 Service Unavailable"))
  /\ existsb post_ok (trace w1) = true
  /\ u "101" ∈ processed w1
  /\ disk w1 = Absent.
Proof.
  intros E w1. split; [vm_compute; reflexivity|].
  split; [vm_compute; reflexivity|].
  split; [|vm_compute; reflexivity].
  apply (bool_decide_unpack _). vm_compute. exact I.
Qed.

(** C3, as the spec words it.  The reply to 101 goes through and the like
    raises: the id is not added to the set. *)
Lemma reply_posted_but_not_marked :
  let w' := (respond_one Scenario.like_refused Scenario.bot Scenario.m101
               Scenario.fresh).2 in
  existsb post_ok (calls_during Scenario.fresh w') = true
  /\ str_of_int (id Scenario.m101) ∉ processed w'.
Proof.
  intros w'. split; [vm_compute; reflexivity|].
  assert (Hempty : processed w' = ∅) by (vm_compute; reflexivity).
  rewrite Hempty. apply not_elem_of_empty.
Qed.

(** When likes are refused, the same mention is answered in every pass. *)
Example refused_like_repeats_the_reply :
  let w1 := (bot_respond Scenario.like_refused Scenario.fresh).2 in
  let w2 := (bot_respond Scenario.like_refused w1).2 in
  map in_reply_to_tweet_id
    (omap (fun ev => match ev with EvCreateTweet kw (Ret _) => Some kw | _ => None end)
       (trace w2))
  = [Some 101; Some 101].
Proof. vm_compute. reflexivity. Qed.

(** ** The event bridge *)

Section Bridge.

Variable E : Env.

Lemma total_bind {A B} (m : M A) (k : A -> M B) :
  total m -> (forall a, total (k a)) -> total (bind m k).
Proof.
  intros Hm Hk w. unfold bind. destruct (Hm w) as (a & w1 & ->). apply Hk.
Qed.

Lemma total_ret {A} (a : A) : total (ret a).
Proof. intros w. by exists a, w. Qed.

Lemma total_random_choice (xs : list pystr) : xs <> [] -> total (random_choice E xs).
Proof.
  intros Hxs w. destruct xs as [|x xs]; [done|].
  unfold random_choice, call. by eexists _, _.
Qed.

Lemma total_get_personality_line : total (get_personality_line E).
Proof.
  unfold get_personality_line, pick_tone. apply total_bind.
  - apply total_bind; [intros w; unfold random_random, call; by eexists _, _|].
    intros roll. repeat case_match; apply total_ret.
  - intros t. apply total_random_choice. by destruct t.
Qed.

Lemma total_safe_post_tweet (txt : pystr) (mids : option (list pystr))
    (reply_to : option Z) :
  tweepy_errors_only E -> total (safe_post_tweet E txt mids reply_to).
Proof.
  intros Hpol w.
  unfold safe_post_tweet, bind, try_except, client_create_tweet,
    api_v1_update_status, call, set_tiers, ret, raise.
  set (kw := kwargs _ _ _). set (kw1 := kwargs_v1 _ _ _).
  specialize (Hpol (trace w) kw).
  destruct (create_tweet E (trace w) kw) as [[]|e]; simpl; [by eexists _, _|].
  destruct e as [msg| | | | |]; try done.
  destruct (quota_error (lower msg)); simpl; [|by eexists _, _].
  destruct (update_status E _ kw1) as [[]|e1]; simpl; by eexists _, _.
Qed.

Lemma total_post_update (txt : pystr) :
  tweepy_errors_only E -> total (post_update E txt).
Proof.
  intros Hpol. unfold post_update. apply total_bind.
  - apply total_get_personality_line.
  - intros tag. apply total_bind; [by apply total_safe_post_tweet|].
    intros _. apply total_ret.
Qed.

Lemma total_bind_ret {A B} (a : A) (k : A -> M B) :
  total (k a) -> total (bind (ret a) k).
Proof. done. Qed.

(** An event object whose player can be made into a handle is bridged
    without an exception, whatever else it holds or lacks, as long as the v2
    client keeps to tweepy errors. *)
Lemma game_event_bridge_completes (members : list (pystr * json)) (w : World) :
  tweepy_errors_only E -> player_fits members ->
  exists w', game_event_bridge E (JObj members) w = (Ret tt, w').
Proof.
  intros Hpol Hfits.
  enough (Htot : exists a w', game_event_bridge E (JObj members) w = (Ret a, w')).
  { destruct Htot as ([] & w' & Hrun). by exists w'. }
  revert w. change (total (game_event_bridge E (JObj members))).
  unfold game_event_bridge, dict_get.
  do 5 apply total_bind_ret.
  pose proof (total_post_update) as Hpost.
  unfold player_fits in Hfits.
  destruct (is_str _ (u "win")) eqn:Hwin.
  { destruct (assoc (u "player") members) as [[]|];
      try discriminate; (apply total_bind; [apply total_ret | intros ?; by apply Hpost]). }
  repeat case_match; repeat apply total_bind_ret;
    first [by apply Hpost | apply total_ret].
Qed.

(** A win whose player is there but is not a string cannot be made into a
    handle: the bridge raises before anything is posted. *)
Lemma game_event_bridge_needs_str_player (members : list (pystr * json))
    (p : json) (w : World) :
  assoc (u "type") members = Some (JStr (u "win")) ->
  assoc (u "player") members = Some p ->
  (forall s, p <> JStr s) ->
  game_event_bridge E (JObj members) w = (Raise AttributeError, w).
Proof.
  intros Htype Hplayer Hp.
  unfold game_event_bridge, dict_get, bind, ret. rewrite Htype, Hplayer.
  replace (is_str (JStr (u "win")) (u "win")) with true by (vm_compute; reflexivity).
  cbv beta iota. destruct p; try reflexivity. by destruct (Hp s).
Qed.

(** C8, where the code breaks it.  The event
    [{"type": "win", "player": 7}] is a JSON object, and the bridge raises
    AttributeError on it at [player.replace]: nothing is posted and the
    request is answered with 500. *)
Theorem game_event_bridge_win_by_number (w : World) :
  game_event_bridge E Scenario.win_by_number w = (Raise AttributeError, w)
  /\ serve E (Json Scenario.win_by_number) w
     = ({| payload := ErrorPage; status_code := 500 |}, w).
Proof.
  assert (Hraise : game_event_bridge E Scenario.win_by_number w
                   = (Raise AttributeError, w)).
  { apply (game_event_bridge_needs_str_player _ (JInt 7)); [done | done |].
    intros s; discriminate. }
  split; [exact Hraise|].
  unfold serve, game_event, request_json, bind, ret, Json. cbn [is_json data].
  change (truthy Scenario.win_by_number) with true. cbv beta iota.
  change (negb true) with false. cbv beta iota. by rewrite Hraise.
Qed.

(** C9, as the code has it.  A request that is not sent as JSON is
    answered with 415 and an error page, whatever its body, valid JSON or
    not; a request sent as JSON whose body is not JSON is answered with 400
    and an error page; one whose body is JSON that Python counts as false
    (null, false, 0, an empty string, array or object) is answered with 400
    and [{"error": "JSON required"}]; any other JSON body on which the
    bridge returns is answered with 200 and [{"ok": true}]. *)
Theorem game_event_responses (w : World) :
  (forall r, is_json r = false ->
     serve E r w = ({| payload := ErrorPage; status_code := 415 |}, w))
  /\ (forall r, is_json r = true -> data r = Malformed ->
        serve E r w = ({| payload := ErrorPage; status_code := 400 |}, w))
  /\ (forall r v, is_json r = true -> data r = Parsed v -> truthy v = false ->
        serve E r w
        = ({| payload := JsonBody (JObj [(u "error", JStr (u "JSON required"))]);
              status_code := 400 |}, w))
  /\ (forall r v w', is_json r = true -> data r = Parsed v -> truthy v = true ->
        game_event_bridge E v w = (Ret tt, w') ->
        serve E r w
        = ({| payload := JsonBody (JObj [(u "ok", JBool true)]);
              status_code := 200 |}, w')).
Proof.
  split; [|split; [|split]].
  - intros r Hr. unfold serve, game_event, request_json, bind, raise.
    by rewrite Hr.
  - intros r Hr Hd. unfold serve, game_event, request_json, bind, raise.
    by rewrite Hr, Hd.
  - intros r v Hr Hd Hv. unfold serve, game_event, request_json, bind, ret.
    by rewrite Hr, Hd, Hv.
  - intros r v w' Hr Hd Hv Hrun.
    unfold serve, game_event, request_json, bind, ret.
    rewrite Hr, Hd, Hv. change (negb true) with false. cbv beta iota.
    by rewrite Hrun.
Qed.

End Bridge.

Lemma game_event_responses_witness :
  truthy Scenario.win_of_ada = true
  /\ exists w',
       game_event_bridge Scenario.all_fine Scenario.win_of_ada Scenario.fresh
       = (Ret tt, w')
       /\ serve Scenario.all_fine (Json Scenario.win_of_ada) Scenario.fresh
          = ({| payload := JsonBody (JObj [(u "ok", JBool true)]);
                status_code := 200 |}, w').
Proof.
  split; [reflexivity|].
  destruct (game_event_bridge Scenario.all_fine Scenario.win_of_ada Scenario.fresh)
    as [r w'] eqn:Hrun.
  assert (Hr : r = Ret tt).
  { apply (f_equal fst) in Hrun. vm_compute in Hrun. by subst r. }
  subst r. exists w'. split; [reflexivity|].
  by apply (proj2 (proj2 (proj2
              (game_event_responses Scenario.all_fine Scenario.fresh)))
              (Json Scenario.win_of_ada) Scenario.win_of_ada).
Defined.

(** C9, as the spec words it.  The body [{}] is valid JSON and is answered
    with 400, not with an acknowledgement. *)
Lemma empty_object_is_rejected :
  serve Scenario.all_fine (Json (JObj [])) Scenario.fresh
  = ({| payload := JsonBody (JObj [(u "error", JStr (u "JSON required"))]);
        status_code := 400 |}, Scenario.fresh).
Proof. reflexivity. Qed.

(** The win of Ada over Grace sent as text/plain: the body is valid JSON,
    and the request is answered with 415 without a post. *)
Example unlabelled_json_is_refused :
  serve Scenario.all_fine {| is_json := false; data := Parsed Scenario.win_of_ada |}
    Scenario.fresh
  = ({| payload := ErrorPage; status_code := 415 |}, Scenario.fresh).
Proof. reflexivity. Qed.

(** The win of Ada over Grace makes one post, with both names and the
    score in it. *)
Example win_of_ada_is_posted :
  let w' := (serve Scenario.all_fine (Json Scenario.win_of_ada) Scenario.fresh).2 in
  exists kw, trace w' = [EvCreateTweet kw (Ret tt); EvChoice 7 (Ret (u "Great game! Keep it up!"));
                         EvRandom (Ret (1 # 2))]
             /\ contains (u "Ada") (text kw) = true
             /\ contains (u "Grace") (text kw) = true
             /\ contains (u "9-0") (text kw) = true
             /\ contains (u "Congrats @Ada!") (text kw) = true.
Proof. eexists. split; [vm_compute; reflexivity|]. repeat split; vm_compute; reflexivity. Qed.

(** Fields that are missing are replaced by the fixed defaults. *)
Example game_start_defaults :
  let w' := (serve Scenario.all_fine (Json (JObj [(u "type", JStr (u "game_start"))]))
               Scenario.fresh).2 in
  exists kw r evs, trace w' = EvCreateTweet kw r :: evs
    /\ contains (u "New 9D battle: Mystery Strategist vs the void.") (text kw) = true.
Proof. eexists _, _, _. split; vm_compute; reflexivity. Qed.

(** * Further properties *)

(** ** The posting client, case by case *)

Lemma calls_during_with_calls (evs : list event) (w : World) :
  calls_during w (with_calls evs w) = evs.
Proof. by apply after_calls_during. Qed.

Lemma calls_during_baseline (evs : list event) (w : World) :
  calls_during w (baseline (with_calls evs w)) = evs.
Proof. by apply after_calls_during. Qed.

Lemma len_slice_to_le (n : Z) (s : pystr) : 0 <= n -> len (slice_to n s) <= n.
Proof.
  unfold slice_to, len. intros Hn.
  destruct (Z.leb_spec 0 n); [|lia]. rewrite length_take. lia.
Qed.

Lemma len_truncate (txt : pystr) (reply_to : option Z) :
  len (truncate txt reply_to) <= TWITTER_CHAR_LIMIT.
Proof.
  destruct (Z.ltb_spec TWITTER_CHAR_LIMIT (len txt)) as [Hlong | Hshort].
  - destruct (truthy_id reply_to) eqn:Hr.
    + rewrite truncate_reply by done. unfold TWITTER_CHAR_LIMIT. lia.
    + rewrite truncate_plain by done. unfold TWITTER_CHAR_LIMIT. lia.
  - unfold truncate. by destruct (Z.ltb_spec TWITTER_CHAR_LIMIT (len txt)); [lia|].
Qed.

Lemma truncate_short (txt : pystr) (reply_to : option Z) :
  len txt <= TWITTER_CHAR_LIMIT -> truncate txt reply_to = txt.
Proof.
  intros Hshort. unfold truncate.
  by destruct (Z.ltb_spec TWITTER_CHAR_LIMIT (len txt)); [lia|].
Qed.

Section PostingCases.

Variable E : Env.

(** All that [safe_post_tweet] can do, by the answer of the v2 call. *)
Lemma safe_post_tweet_cases (w : World) (txt : pystr) (mids : option (list pystr))
    (reply_to : option Z) :
  let kw := kwargs (truncate txt reply_to) mids reply_to in
  let kw1 := kwargs_v1 (truncate txt reply_to) mids reply_to in
  let run := safe_post_tweet E txt mids reply_to w in
  match create_tweet E (trace w) kw with
  | Ret _ => run = (Ret true, with_calls [EvCreateTweet kw (Ret tt)] w)
  | Raise (TweepyException msg) =>
    let failed := EvCreateTweet kw (Raise (TweepyException msg)) in
    if quota_error (lower msg) then
      let r1 := update_status E (failed :: trace w) kw1 in
      run = (Ret (match r1 with Ret _ => true | Raise _ => false end),
             baseline (with_calls [EvUpdateStatus kw1 r1; failed] w))
    else run = (Ret false, with_calls [failed] w)
  | Raise e => run = (Raise e, with_calls [EvCreateTweet kw (Raise e)] w)
  end.
Proof.
  intros kw kw1 run. subst run.
  destruct (create_tweet E (trace w) kw) as [[]|e] eqn:Hv2.
  - unfold safe_post_tweet, bind, try_except, client_create_tweet, call, ret.
    fold kw. by rewrite Hv2.
  - destruct e as [msg| | | | |].
    2-6: unfold safe_post_tweet, bind, try_except, client_create_tweet, call, ret,
           raise; fold kw; by rewrite Hv2.
    destruct (quota_error (lower msg)) eqn:Hq.
    + by rewrite (safe_post_tweet_quota E w txt mids reply_to msg Hv2 Hq).
    + unfold safe_post_tweet, bind, try_except, client_create_tweet, call, ret.
      fold kw. by rewrite Hv2, Hq.
Qed.

End PostingCases.

Section PostingFacts.

Variable E : Env.

Ltac by_cases w txt mids reply_to :=
  let Hc := fresh "Hc" in
  pose proof (safe_post_tweet_cases E w txt mids reply_to) as Hc;
  cbv zeta in Hc;
  destruct (create_tweet E (trace w) _) as [[]|[msg| | | | |]];
  [ | destruct (quota_error (lower msg)) | .. ];
  rewrite Hc; clear Hc.

(** X1.  Whatever text it is given, every posting call [safe_post_tweet]
    makes, v2 or v1.1, submits at most 280 code points. *)
Theorem safe_post_tweet_submits_within_limit (w : World) (txt : pystr)
    (mids : option (list pystr)) (reply_to : option Z) :
  let w' := (safe_post_tweet E txt mids reply_to w).2 in
  forall ev s, In ev (calls_during w w') -> posted_text ev = Some s ->
               len s <= TWITTER_CHAR_LIMIT.
Proof.
  intros w' ev s. subst w'.
  by_cases w txt mids reply_to; simpl snd;
    rewrite ?calls_during_with_calls, ?calls_during_baseline; simpl;
    intros Hin Hs; repeat (destruct Hin as [<- | Hin]); try done;
    simpl in Hs; injection Hs as <-; apply len_truncate.
Qed.

(** X2.  [safe_post_tweet] returns True exactly when one of its posting
    calls went through, and no more than one ever does. *)
Theorem safe_post_tweet_true_iff_posted (w : World) (txt : pystr)
    (mids : option (list pystr)) (reply_to : option Z) :
  let run := safe_post_tweet E txt mids reply_to w in
  let went := List.filter post_ok (calls_during w run.2) in
  (run.1 = Ret true <-> length went = 1%nat)
  /\ (length went <= 1)%nat.
Proof.
  intros run went. subst went run.
  by_cases w txt mids reply_to; simpl fst; simpl snd;
    rewrite ?calls_during_with_calls, ?calls_during_baseline; simpl;
    try (split; [split; [done | done] | lia]);
    try (split; [split; [discriminate | discriminate] | lia]).
  destruct (update_status E _ _) as [[]|e1]; simpl;
    (split; [split; [done | done] | lia])
    || (split; [split; [discriminate | discriminate] | lia]).
Qed.

(** X3.  The v1.1 client is called exactly when the tier is dropped: after
    a run with a v1.1 call both flags are False, and after a run without
    one both flags are what they were. *)
Theorem safe_post_tweet_legacy_iff_dropped (w : World) (txt : pystr)
    (mids : option (list pystr)) (reply_to : option Z) :
  let w' := (safe_post_tweet E txt mids reply_to w).2 in
  if existsb (fun ev => match ev with EvUpdateStatus _ _ => true | _ => false end)
       (calls_during w w')
  then PAID_TIER w' = false /\ USE_LLM w' = false
  else PAID_TIER w' = PAID_TIER w /\ USE_LLM w' = USE_LLM w.
Proof.
  intros w'. subst w'.
  by_cases w txt mids reply_to; simpl snd;
    rewrite ?calls_during_with_calls, ?calls_during_baseline; by simpl.
Qed.

(** X4.  An exception of the v2 call that is not a tweepy error is not
    handled: [safe_post_tweet] raises it, having made no other call and
    changed no flag. *)
Theorem safe_post_tweet_lets_other_errors_out (w : World) (txt : pystr)
    (mids : option (list pystr)) (reply_to : option Z) (e : exn) :
  let kw := kwargs (truncate txt reply_to) mids reply_to in
  create_tweet E (trace w) kw = Raise e -> is_tweepy e = false ->
  safe_post_tweet E txt mids reply_to w
  = (Raise e, with_calls [EvCreateTweet kw (Raise e)] w).
Proof.
  intros kw Hv2 He.
  pose proof (safe_post_tweet_cases E w txt mids reply_to) as Hc.
  cbv zeta in Hc. fold kw in Hc. rewrite Hv2 in Hc. by destruct e.
Qed.

(** X5.  Once the v2 call has raised a tweepy error, [safe_post_tweet]
    returns a boolean whatever the v1.1 call does: an exception of the v1.1
    call, of any kind, comes out as False. *)
Theorem safe_post_tweet_contains_legacy_errors (w : World) (txt : pystr)
    (mids : option (list pystr)) (reply_to : option Z) (msg : pystr) :
  let kw := kwargs (truncate txt reply_to) mids reply_to in
  create_tweet E (trace w) kw = Raise (TweepyException msg) ->
  exists b, (safe_post_tweet E txt mids reply_to w).1 = Ret b
    /\ (b = true ->
        exists kw1, In (EvUpdateStatus kw1 (Ret tt))
                      (calls_during w (safe_post_tweet E txt mids reply_to w).2)).
Proof.
  intros kw Hv2.
  pose proof (safe_post_tweet_cases E w txt mids reply_to) as Hc.
  cbv zeta in Hc. fold kw in Hc. rewrite Hv2 in Hc.
  destruct (quota_error (lower msg)); rewrite Hc; simpl.
  - destruct (update_status E _ _) as [[]|e1] eqn:Hv1.
    + exists true. split; [done|]. intros _. eexists.
      rewrite calls_during_baseline. left. reflexivity.
    + by exists false.
  - by exists false.
Qed.

End PostingFacts.

Lemma safe_post_tweet_lets_other_errors_out_witness :
  let e := OtherException (u "connection reset") in
  let E := Scenario.env (Raise e) (Ret tt) (Ret tt) Scenario.lookup_ok in
  is_tweepy e = false
  /\ safe_post_tweet E (u "hello grid") None None Scenario.fresh
     = (Raise e,
        with_calls [EvCreateTweet (kwargs (u "hello grid") None None) (Raise e)]
          Scenario.fresh).
Proof.
  intros e E. split; [reflexivity|].
  exact (safe_post_tweet_lets_other_errors_out E Scenario.fresh (u "hello grid")
           None None e eq_refl eq_refl).
Defined.

Lemma safe_post_tweet_contains_legacy_errors_witness :
  let E := Scenario.env (Raise (TweepyException (u "429 rate limit exceeded")))
             (Raise (OtherException (u "connection reset"))) (Ret tt)
             Scenario.lookup_ok in
  exists b, (safe_post_tweet E (u "hello grid") None None Scenario.fresh).1 = Ret b
    /\ (b = true ->
        exists kw1, In (EvUpdateStatus kw1 (Ret tt))
          (calls_during Scenario.fresh
             (safe_post_tweet E (u "hello grid") None None Scenario.fresh).2)).
Proof.
  intros E.
  exact (safe_post_tweet_contains_legacy_errors E Scenario.fresh (u "hello grid")
           None None (u "429 rate limit exceeded") eq_refl).
Defined.

Lemma safe_post_tweet_submits_within_limit_witness :
  let txt := replicate 300 120%N in
  let ev := EvCreateTweet (kwargs (truncate txt None) None None) (Ret tt) in
  In ev (calls_during Scenario.fresh
           (safe_post_tweet Scenario.all_fine txt None None Scenario.fresh).2)
  /\ posted_text ev = Some (truncate txt None)
  /\ len (truncate txt None) <= TWITTER_CHAR_LIMIT.
Proof.
  intros txt ev.
  assert (Hin : In ev (calls_during Scenario.fresh
                         (safe_post_tweet Scenario.all_fine txt None None
                            Scenario.fresh).2)).
  { vm_compute. left. reflexivity. }
  split; [exact Hin|]. split; [reflexivity|].
  exact (safe_post_tweet_submits_within_limit Scenario.all_fine Scenario.fresh txt
           None None ev (truncate txt None) Hin eq_refl).
Defined.

(** ** What every job keeps *)

Section Frame.

Context (E : Env) (R : World -> World -> Prop) `{!PreOrder R}.

Hypothesis R_call : forall A (ev : result A -> event) (answer : list event -> result A),
  (forall r, is_hf (ev r) = false) -> keeps R (call ev answer).
Hypothesis R_drop : keeps R (set_tiers false false).
Hypothesis R_processed : forall s, keeps R (set_processed s).
Hypothesis R_disk : forall f, keeps R (set_disk f).
Hypothesis R_llm : forall prompt n, keeps R (generate_llm_response E prompt n).

Ltac frame_with known :=
  repeat first
    [ known
    | apply R_drop | apply R_processed | apply R_disk | apply R_llm
    | (apply R_call; done)
    | keeps_step ].

Lemma frame_random_random : keeps R (random_random E).
Proof. unfold random_random. frame_with fail. Qed.

Lemma frame_random_choice (xs : list pystr) : keeps R (random_choice E xs).
Proof. unfold random_choice. frame_with fail. Qed.

Lemma frame_get_personality_line : keeps R (get_personality_line E).
Proof.
  unfold get_personality_line, pick_tone.
  frame_with ltac:(first [apply frame_random_random | apply frame_random_choice]).
Qed.

Ltac known_text :=
  first [ apply frame_random_random | apply frame_random_choice
        | apply frame_get_personality_line ].

Lemma frame_generate_contextual_response (username message : pystr) :
  keeps R (generate_contextual_response E username message).
Proof.
  unfold generate_contextual_response, get_strategy_tip. frame_with known_text.
Qed.

Lemma frame_reply_text (un umsg : pystr) : keeps R (reply_text E un umsg).
Proof.
  unfold reply_text.
  frame_with ltac:(first [apply frame_generate_contextual_response | known_text]).
Qed.

Lemma frame_safe_post_tweet (txt : pystr) (mids : option (list pystr))
    (reply_to : option Z) :
  keeps R (safe_post_tweet E txt mids reply_to).
Proof.
  unfold safe_post_tweet, client_create_tweet, api_v1_update_status.
  frame_with fail.
Qed.

Lemma frame_post_update (txt : pystr) : keeps R (post_update E txt).
Proof.
  unfold post_update.
  frame_with ltac:(first [apply frame_safe_post_tweet | known_text]).
Qed.

Lemma frame_game_event_bridge (event : json) : keeps R (game_event_bridge E event).
Proof.
  unfold game_event_bridge, dict_get, replace_method.
  frame_with ltac:(apply frame_post_update).
Qed.

Lemma frame_serve (b : request) (w : World) : R w (serve E b w).2.
Proof.
  assert (Hview : keeps R (game_event E b)).
  { unfold game_event, request_json.
    frame_with ltac:(apply frame_game_event_bridge). }
  specialize (Hview w). unfold serve.
  destruct (game_event E b w) as [[r|e] w']; [done|]. by destruct e.
Qed.

Lemma frame_bot_diagnostic : keeps R (bot_diagnostic E).
Proof.
  unfold bot_diagnostic.
  frame_with ltac:(first [apply frame_safe_post_tweet | known_text]).
Qed.

Lemma frame_respond_one (me : user) (m : mention) : keeps R (respond_one E me m).
Proof.
  unfold respond_one, client_get_user, client_like, processed_add.
  frame_with ltac:(first [apply frame_safe_post_tweet | apply frame_reply_text]).
Qed.

Lemma frame_for_mentions (me : user) (ms : list mention) :
  keeps R (for_mentions E me ms).
Proof.
  induction ms as [|m ms IH]; simpl.
  - keeps_step.
  - apply keeps_bind; [apply _ | apply frame_respond_one | by intros _].
Qed.

Lemma frame_bot_respond : keeps R (bot_respond E).
Proof.
  unfold bot_respond, bot_respond_try, load_json_set, save_json_set,
    client_get_me, client_get_users_mentions.
  frame_with ltac:(apply frame_for_mentions).
Qed.

End Frame.

Section FrameJ.

Context (E : Env) (O : Outside) (R : World -> World -> Prop) `{!PreOrder R}.

Lemma keepsJ_ret {A} (a : A) : keepsJ R (jret a).
Proof. intros s. simpl. reflexivity. Qed.

Lemma keepsJ_bind {A B} (m : J A) (k : A -> J B) :
  keepsJ R m -> (forall a, keepsJ R (k a)) -> keepsJ R (jbind m k).
Proof.
  intros Hm Hk s. unfold jbind. specialize (Hm s).
  destruct (m s) as [[a|e] s1]; simpl in *; [|done].
  etransitivity; [exact Hm | apply Hk].
Qed.

Lemma keepsJ_try {A} (m : J A) (h : exn -> J A) :
  keepsJ R m -> (forall e, keepsJ R (h e)) -> keepsJ R (jtry m h).
Proof.
  intros Hm Hh s. unfold jtry. specialize (Hm s).
  destruct (m s) as [[a|e] s1]; simpl in *; [done|].
  etransitivity; [exact Hm | apply Hh].
Qed.

Lemma keepsJ_lift {A} (m : M A) : keeps R m -> keepsJ R (lift m).
Proof.
  intros Hm s. unfold lift. specialize (Hm (world s)).
  by destruct (m (world s)) as [r w'].
Qed.

Lemma keepsJ_side {A} (sc : result A -> side_call)
    (answer : list side_call -> list event -> result A) :
  keepsJ R (side sc answer).
Proof. intros s. simpl. reflexivity. Qed.

Hypothesis R_call : forall A (ev : result A -> event) (answer : list event -> result A),
  (forall r, is_hf (ev r) = false) -> keeps R (call ev answer).
Hypothesis R_drop : keeps R (set_tiers false false).

Ltac frameJ_with known :=
  repeat first
    [ known
    | apply keepsJ_side
    | (apply keepsJ_lift;
       first [ apply frame_random_random | apply frame_random_choice
             | apply frame_get_personality_line | apply frame_safe_post_tweet ];
       first [ apply _ | exact R_call | exact R_drop ])
    | lazymatch goal with
      | |- keepsJ _ (jbind _ _) => apply keepsJ_bind; [| intros ?]
      | |- keepsJ _ (jtry _ _) => apply keepsJ_try; [| intros ?]
      | |- keepsJ _ (jret _) => apply keepsJ_ret
      | |- keepsJ _ (if ?b then _ else _) => destruct b
      | |- keepsJ _ (match ?x with _ => _ end) => destruct x
      end ].

Lemma frame_get_random_media_id : keepsJ R (get_random_media_id E O).
Proof.
  unfold get_random_media_id, os_path_exists, os_listdir, api_v1_media_upload.
  frameJ_with fail.
Qed.

Lemma frame_maybe_media (threshold roll : Q) :
  keepsJ R (maybe_media E O threshold roll).
Proof.
  unfold maybe_media. frameJ_with ltac:(apply frame_get_random_media_id).
Qed.

Lemma frame_bot_hype_commentator : keepsJ R (bot_hype_commentator E O).
Proof.
  unfold bot_hype_commentator. frameJ_with ltac:(apply frame_maybe_media).
Qed.

Lemma frame_bot_broadcast : keepsJ R (bot_broadcast E O).
Proof.
  unfold bot_broadcast, get_time_phrase, datetime_now_hour, get_random_event,
    get_game_fact, get_strategy_tip.
  frameJ_with ltac:(apply frame_maybe_media).
Qed.

Lemma frame_for_tweets (ts : list Z) : keepsJ R (for_tweets E O ts).
Proof.
  induction ts as [|t ts IH]; simpl; [apply keepsJ_ret|].
  apply keepsJ_bind; [|by intros _].
  unfold retweet_one, client_retweet. frameJ_with fail.
Qed.

Lemma frame_bot_retweet_hunt : keepsJ R (bot_retweet_hunt E O).
Proof.
  unfold bot_retweet_hunt, client_search_recent_tweets.
  frameJ_with ltac:(apply frame_for_tweets).
Qed.

End FrameJ.

(** ** The tier flags *)

#[local] Instance tiers_only_drop_preorder : PreOrder tiers_only_drop.
Proof.
  split.
  - by intros w.
  - intros w1 w2 w3 [Hp1 Hl1] [Hp2 Hl2]. split; auto.
Qed.

Lemma tiers_call {A} (ev : result A -> event) (answer : list event -> result A) :
  keeps tiers_only_drop (call ev answer).
Proof. by intros w. Qed.

Lemma tiers_drop : keeps tiers_only_drop (set_tiers false false).
Proof. by intros w. Qed.

Lemma tiers_llm (E : Env) (prompt : pystr) (n : Z) :
  keeps tiers_only_drop (generate_llm_response E prompt n).
Proof.
  unfold generate_llm_response, dict_get, strip_method.
  repeat first [ apply tiers_call | (intros w; by split) | keeps_step ].
Qed.

(** X6.  No job ever sets PAID_TIER or USE_LLM to True: after a post, a
    pass over the mentions, a game event, a diagnostic, a broadcast, a hype
    message or a retweet hunt, a flag that is True was True before. *)
Theorem jobs_never_raise_a_flag (E : Env) (O : Outside) (w : World) (s : Stage) :
  (forall txt mids reply_to,
     tiers_only_drop w (safe_post_tweet E txt mids reply_to w).2)
  /\ tiers_only_drop w (bot_respond E w).2
  /\ (forall b, tiers_only_drop w (serve E b w).2)
  /\ tiers_only_drop w (bot_diagnostic E w).2
  /\ tiers_only_drop (world s) (world (bot_broadcast E O s).2)
  /\ tiers_only_drop (world s) (world (bot_hype_commentator E O s).2)
  /\ tiers_only_drop (world s) (world (bot_retweet_hunt E O s).2).
Proof.
  assert (Hcall : forall A (ev : result A -> event) answer,
            (forall r, is_hf (ev r) = false) ->
            keeps tiers_only_drop (call ev answer))
    by (intros; apply tiers_call).
  assert (Hset : forall s0, keeps tiers_only_drop (set_processed s0))
    by (by intros s0 w0).
  assert (Hdisk : forall f, keeps tiers_only_drop (set_disk f))
    by (by intros f w0).
  pose proof tiers_drop as Hdrop.
  pose proof (tiers_llm E) as Hllm.
  split; [intros txt mids reply_to; apply frame_safe_post_tweet; (apply _ || done)|].
  split; [apply frame_bot_respond; (apply _ || done)|].
  split; [intros b; apply frame_serve; (apply _ || done)|].
  split; [apply frame_bot_diagnostic; (apply _ || done)|].
  split; [apply frame_bot_broadcast; (apply _ || done)|].
  split; [apply frame_bot_hype_commentator; (apply _ || done)|].
  apply frame_bot_retweet_hunt; (apply _ || done).
Qed.

#[local] Instance llm_stays_off_preorder : PreOrder llm_stays_off.
Proof.
  split.
  - intros w Hoff. split; [done|]. exists []. by split.
  - intros w1 w2 w3 H12 H23 Hoff.
    destruct (H12 Hoff) as (Hoff2 & evs1 & Ha1 & Hs1).
    destruct (H23 Hoff2) as (Hoff3 & evs2 & Ha2 & Hs2).
    split; [done|]. exists (evs2 ++ evs1).
    split; [by eapply after_trans | by apply Forall_app].
Qed.

Lemma llm_off_call {A} (ev : result A -> event) (answer : list event -> result A) :
  (forall r, is_hf (ev r) = false) -> keeps llm_stays_off (call ev answer).
Proof.
  intros Hev w Hoff. split; [done|].
  exists [ev (answer (trace w))]. split; [reflexivity|]. by repeat constructor.
Qed.

Lemma llm_off_unchanged (w w' : World) :
  (USE_LLM w = false -> USE_LLM w' = false) -> trace w' = trace w ->
  llm_stays_off w w'.
Proof.
  intros Hflag Htrace Hoff. split; [by apply Hflag|].
  exists []. split; [exact Htrace | constructor].
Qed.

(** With USE_LLM False, [generate_llm_response] returns None at once. *)
Lemma generate_llm_response_off (E : Env) (prompt : pystr) (n : Z) (w : World) :
  USE_LLM w = false -> generate_llm_response E prompt n w = (Ret None, w).
Proof.
  intros Hoff. unfold generate_llm_response, bind, get. by rewrite Hoff.
Qed.

Lemma llm_off_llm (E : Env) (prompt : pystr) (n : Z) :
  keeps llm_stays_off (generate_llm_response E prompt n).
Proof.
  intros w Hoff. rewrite (generate_llm_response_off E prompt n w Hoff).
  by apply llm_off_unchanged.
Qed.

(** X7.  While USE_LLM is False the text service is left alone: a pass over
    the mentions that starts with USE_LLM False makes no request to it, for
    any mention and any draw, and ends with USE_LLM still False. *)
Theorem bot_respond_baseline_skips_text_service (E : Env) (w : World) :
  USE_LLM w = false ->
  let w' := (bot_respond E w).2 in
  USE_LLM w' = false
  /\ Forall (fun ev => is_hf ev = false) (calls_during w w').
Proof.
  intros Hoff w'.
  assert (Hkeeps : keeps llm_stays_off (bot_respond E)).
  { apply frame_bot_respond; try apply _.
    - intros. by apply llm_off_call.
    - intros w0. by apply llm_off_unchanged.
    - intros s0 w0. by apply llm_off_unchanged.
    - intros f w0. by apply llm_off_unchanged.
    - intros. apply llm_off_llm. }
  destruct (Hkeeps w Hoff) as (Hoff' & evs & Ha & Hevs).
  split; [done|]. fold w'. by rewrite (after_calls_during evs w w' Ha).
Qed.

Lemma bot_respond_baseline_skips_text_service_witness :
  let w := baseline Scenario.fresh in
  USE_LLM w = false
  /\ USE_LLM (bot_respond Scenario.all_fine w).2 = false
  /\ Forall (fun ev => is_hf ev = false)
       (calls_during w (bot_respond Scenario.all_fine w).2).
Proof.
  intros w. split; [reflexivity|].
  exact (bot_respond_baseline_skips_text_service Scenario.all_fine w eq_refl).
Defined.

(** ** The text of a reply and the text service *)

Lemma yields_ret {A} (P : A -> Prop) (a : A) : P a -> yields P (ret a).
Proof. intros Ha w a' w' [= <- <-]. exact Ha. Qed.

Lemma yields_raise {A} (P : A -> Prop) (e : exn) : yields P (raise e).
Proof. intros w a w'. discriminate. Qed.

Lemma yields_bind {A B} (P : B -> Prop) (m : M A) (k : A -> M B) :
  (forall a, yields P (k a)) -> yields P (bind m k).
Proof.
  intros Hk w b w'. unfold bind.
  destruct (m w) as [[a|e] w1]; [apply Hk | discriminate].
Qed.

Lemma returns_ret {A} (P : A -> Prop) (a : A) : P a -> returns P (ret a).
Proof. intros Ha w. by exists a, w. Qed.

Lemma returns_bind_with {A B} (Pm : A -> Prop) (P : B -> Prop) (m : M A)
    (k : A -> M B) :
  returns Pm m -> (forall a, Pm a -> returns P (k a)) -> returns P (bind m k).
Proof.
  intros Hm Hk w. unfold bind.
  destruct (Hm w) as (a & w1 & -> & Ha). by apply Hk.
Qed.

Lemma returns_bind {A B} (P : B -> Prop) (m : M A) (k : A -> M B) :
  returns (fun _ => True) m -> (forall a, returns P (k a)) -> returns P (bind m k).
Proof. intros Hm Hk. apply (returns_bind_with (fun _ => True)); auto. Qed.

Lemma returns_try {A} (P : A -> Prop) (m : M A) (h : exn -> M A) :
  yields P m -> (forall e, returns P (h e)) -> returns P (try_except m h).
Proof.
  intros Hm Hh w. unfold try_except.
  destruct (m w) as [[a|e] w1] eqn:Hrun; [|apply Hh].
  exists a, w1. split; [done|]. by eapply Hm.
Qed.

Lemma returns_weaken {A} (P P' : A -> Prop) (m : M A) :
  (forall a, P a -> P' a) -> returns P m -> returns P' m.
Proof.
  intros Himp Hm w. destruct (Hm w) as (a & w' & Hrun & Ha).
  exists a, w'. auto.
Qed.

Section ReplyText.

Variable E : Env.

Lemma returns_get {A} (proj : World -> A) : returns (fun _ => True) (get proj).
Proof. intros w. by exists (proj w), w. Qed.

Lemma returns_random_random : returns (fun _ => True) (random_random E).
Proof. intros w. unfold random_random, call. by eexists _, _. Qed.

(** [random.choice] returns an element of its list when there is one. *)
Lemma returns_random_choice (xs : list pystr) :
  xs <> [] -> returns (fun a => In a xs) (random_choice E xs).
Proof.
  intros Hxs w. destruct xs as [|x xs]; [done|]. unfold random_choice, call.
  eexists _, _. split; [reflexivity|].
  apply (nth_In (x :: xs)). apply Nat.mod_upper_bound. discriminate.
Qed.

Lemma returns_get_personality_line :
  returns (fun _ => True) (get_personality_line E).
Proof.
  intros w. destruct (total_get_personality_line E w) as (a & w' & Hrun).
  by exists a, w'.
Qed.

Ltac yields_step :=
  lazymatch goal with
  | |- yields _ (ret _) => apply yields_ret
  | |- yields _ (raise _) => apply yields_raise
  | |- yields _ (bind _ _) => apply yields_bind; intros ?
  | |- yields _ (if ?b then _ else _) => destruct b
  | |- yields _ (match ?x with _ => _ end) => destruct x
  end.

Lemma returns_generate_llm_response (prompt : pystr) (max_tokens : Z) :
  returns (fun o => forall s, o = Some s -> len s <= 200)
    (generate_llm_response E prompt max_tokens).
Proof.
  unfold generate_llm_response.
  apply returns_bind; [apply returns_get|]. intros use.
  destruct (negb use || negb (truthy_str (HUGGING_FACE_TOKEN E))).
  { by apply returns_ret. }
  apply returns_try; [|intros e; by apply returns_ret].
  unfold dict_get, strip_method.
  repeat yields_step; try done;
    intros s [= <-]; by apply len_slice_to_le.
Qed.

(** X9.  [generate_llm_response] never raises, whatever the text service
    answers or raises, and a text it returns has at most 200 code points. *)
Theorem generate_llm_response_returns_short (prompt : pystr) (max_tokens : Z)
    (w : World) :
  exists o w',
    generate_llm_response E prompt max_tokens w = (Ret o, w')
    /\ match o with Some s => len s <= 200 | None => True end.
Proof.
  destruct (returns_generate_llm_response prompt max_tokens w)
    as (o & w' & Hrun & Hshort).
  exists o, w'. split; [exact Hrun|].
  destruct o as [s|]; [by apply Hshort | exact I].
Qed.

Ltac returns_any :=
  first [ apply returns_random_random
        | apply returns_get
        | apply returns_get_personality_line
        | (eapply returns_weaken; [|apply returns_random_choice; discriminate]; done)
        | (eapply returns_weaken; [|apply returns_generate_llm_response]; done)
        | by apply returns_ret ].

(** X8.  [reply_text] always returns, and the text it returns opens with
    the handle of the author it answers, whichever template, random line or
    generated text it is made of. *)
Theorem reply_text_addresses_author (un umsg : pystr) :
  returns (fun txt => exists rest, txt = at_ un ++ rest) (reply_text E un umsg).
Proof.
  assert (Hctx : returns (fun txt => exists rest, txt = at_ un ++ rest)
                   (generate_contextual_response E un umsg)).
  { unfold generate_contextual_response, get_strategy_tip.
    apply (returns_bind_with
             (fun opts => opts <> []
                /\ Forall (fun txt => exists rest, txt = at_ un ++ rest) opts)).
    { repeat lazymatch goal with
        | |- returns _ (if ?b then _ else _) => destruct b
        | |- returns _ (bind _ _) => apply returns_bind; [returns_any | intros ?]
        | |- returns _ (ret _) =>
            apply returns_ret; split; [discriminate|];
            repeat constructor; rewrite <- ?app_assoc; by eexists
        end. }
    intros opts [Hne Hopts].
    apply returns_bind; [returns_any|]. intros use.
    apply returns_bind; [destruct use; [|returns_any]|].
    { apply returns_bind; [returns_any | intros ?; returns_any]. }
    intros boost.
    apply returns_bind; [destruct boost; returns_any|]. intros llm.
    destruct (truthy_str llm).
    { apply returns_ret. by eexists. }
    apply (returns_bind_with (fun a => In a opts));
      [by apply returns_random_choice|].
    intros resp Hresp. destruct (_ <? _).
    - apply returns_bind; [returns_any|]. intros line. apply returns_ret.
      rewrite <- ?app_assoc. by eexists.
    - apply returns_ret. rewrite Forall_forall in Hopts.
      by apply Hopts, list_elem_of_In. }
  unfold reply_text.
  destruct (any_in _ _).
  { apply returns_bind; [returns_any|]. intros p. apply returns_ret.
    rewrite <- ?app_assoc. by eexists. }
  destruct (any_in _ _); [|exact Hctx].
  apply returns_bind; [returns_any|]. intros p. apply returns_ret.
  rewrite <- ?app_assoc. by eexists.
Qed.

(** X10.  When the text service answers 402 or 429, the call returns None
    and switches USE_LLM off, and from then on [generate_llm_response]
    returns None without asking the service. *)
Theorem text_service_refusal_switches_off (prompt : pystr) (max_tokens : Z)
    (w : World) (code : Z) (answer : option json) :
  let inputs := SYSTEM_PROMPT ++ nl ++ nl ++ u "User: " ++ prompt ++ nl
                  ++ u "9DTTT Bot:" in
  USE_LLM w = true -> truthy_str (HUGGING_FACE_TOKEN E) = true ->
  requests_post E (trace w) inputs = Ret (code, answer) ->
  code = 402 \/ code = 429 ->
  let run := generate_llm_response E prompt max_tokens w in
  run.1 = Ret None
  /\ USE_LLM run.2 = false
  /\ calls_during w run.2 = [EvHfPost inputs max_tokens (Ret (code, answer))]
  /\ forall prompt' n,
       generate_llm_response E prompt' n run.2 = (Ret None, run.2).
Proof.
  intros inputs Hon Htoken Hpost Hcode run.
  assert (Hrun : run = (Ret None,
            {| PAID_TIER := PAID_TIER w; USE_LLM := false;
               processed := processed w; disk := disk w;
               trace := EvHfPost inputs max_tokens (Ret (code, answer)) :: trace w |})).
  { subst run. unfold generate_llm_response, bind, get, try_except, call.
    rewrite Hon, Htoken. change (negb true || negb true) with false.
    cbv beta iota zeta. fold inputs. rewrite Hpost.
    by destruct Hcode as [-> | ->]. }
  rewrite Hrun. simpl. split; [done|]. split; [done|]. split.
  - by apply after_calls_during.
  - intros prompt' n. by apply generate_llm_response_off.
Qed.

End ReplyText.

Lemma text_service_refusal_switches_off_witness :
  let E := Backstage.chatty (Ret (402, None)) in
  let w := Scenario.fresh in
  let inputs := SYSTEM_PROMPT ++ nl ++ nl ++ u "User: " ++ u "hello" ++ nl
                  ++ u "9DTTT Bot:" in
  let run := generate_llm_response E (u "hello") 60 w in
  USE_LLM w = true
  /\ truthy_str (HUGGING_FACE_TOKEN E) = true
  /\ requests_post E (trace w) inputs = Ret (402, None)
  /\ run.1 = Ret None
  /\ USE_LLM run.2 = false
  /\ calls_during w run.2 = [EvHfPost inputs 60 (Ret (402, None))]
  /\ forall prompt' n,
       generate_llm_response E prompt' n run.2 = (Ret None, run.2).
Proof.
  intros E w inputs run.
  split; [reflexivity|]. split; [reflexivity|]. split; [reflexivity|].
  exact (text_service_refusal_switches_off E (u "hello") 60 w 402 None
           eq_refl eq_refl eq_refl (or_introl eq_refl)).
Defined.

(** In the elevated tier, with draws above the gate, a pass does ask the
    text service. *)
Example elevated_pass_asks_text_service :
  existsb is_hf
    (calls_during Scenario.fresh
       (bot_respond (Backstage.chatty (Ret (200, Some (JArr [])))) Scenario.fresh).2)
  = true.
Proof. vm_compute. reflexivity. Qed.

(** ** Mention processing at the edges *)

Section PassEdges.

Variable E : Env.

(** X11.  [bot_respond] raises only when the mentions file cannot be read:
    then json.load's error comes out before any call is made.  From a file
    that is missing or readable it returns, whatever the API does. *)
Theorem bot_respond_raises_only_on_unreadable_file (w : World) :
  match stored (disk w) with
  | Some _ => (bot_respond E w).1 = Ret tt
  | None => bot_respond E w = (Raise JSONDecodeError, w)
  end.
Proof.
  destruct (stored (disk w)) as [P|] eqn:Hst.
  - rewrite (bot_respond_unfold E w P Hst).
    by destruct (bot_respond_try E _) as [[[]|e] w'].
  - unfold bot_respond, load_json_set, bind, get.
    by destruct (disk w).
Qed.

(** X12.  What [save_json_set] writes, [load_json_set] reads back: after a
    write that went through, loading gives the very set that was saved.  A
    write that could not open the file leaves the file as it was. *)
Theorem save_then_load (s : gset pystr) (w : World) :
  let w1 := (save_json_set E s w).2 in
  (write_file E (trace w) = Written -> load_json_set w1 = (Ret s, w1))
  /\ (write_file E (trace w) = NotOpened -> disk w1 = disk w).
Proof.
  intros w1. subst w1. unfold save_json_set, bind, call. split; intros ->; simpl.
  - unfold load_json_set, bind, get. simpl. by rewrite list_to_set_elements_L.
  - done.
Qed.

(** X13.  A pass that finds no mention stops after the two fetches: nothing
    is resolved, posted, liked or written. *)
Theorem bot_respond_without_mentions (w : World) (P : gset pystr) (me : user) :
  stored (disk w) = Some P ->
  get_me E (trace w) = Ret (Some me) ->
  get_users_mentions E (EvGetMe (Ret (Some me)) :: trace w) (user_id me) = Ret [] ->
  let w' := (bot_respond E w).2 in
  calls_during w w'
  = [EvGetUsersMentions (user_id me) (Ret []); EvGetMe (Ret (Some me))]
  /\ disk w' = disk w.
Proof.
  intros Hst Hme Hbatch w'. subst w'.
  rewrite (bot_respond_unfold E w P Hst).
  unfold bot_respond_try, bind, client_get_me, client_get_users_mentions, call.
  simpl. rewrite Hme. simpl. rewrite Hbatch. simpl.
  split; [|done]. by apply after_calls_during.
Qed.

(** X14.  Two ways a mention is passed over.  One whose id is in the set
    costs no call at all.  One whose author cannot be resolved costs the
    lookup only: nothing is posted and its id is not added, so a later pass
    takes it up again. *)
Theorem respond_one_passes_over (me : user) (m : mention) (w : World) :
  (str_of_int (id m) ∈ processed w -> respond_one E me m w = (Ret tt, w))
  /\ (str_of_int (id m) ∉ processed w ->
      get_user E (trace w) (author_id m) = Ret None ->
      respond_one E me m w
      = (Ret tt, with_calls [EvGetUser (author_id m) (Ret None)] w)).
Proof.
  split.
  - intros Hin. unfold respond_one, bind, get.
    by rewrite bool_decide_eq_true_2.
  - intros Hnot Hnone. unfold respond_one, bind, get, client_get_user, call.
    rewrite bool_decide_eq_false_2 by done. by rewrite Hnone.
Qed.

End PassEdges.

Lemma bot_respond_without_mentions_witness :
  let E := Scenario.env (Ret tt) (Ret tt) (Ret tt) Scenario.lookup_ok in
  let E' :=
    {| create_tweet := create_tweet E; update_status := update_status E;
       get_me := get_me E; get_users_mentions := fun _ _ => Ret [];
       get_user := get_user E; like := like E; rand_float := rand_float E;
       rand_index := rand_index E; requests_post := requests_post E;
       write_file := write_file E; HUGGING_FACE_TOKEN := None;
       str_of_container := str_of_container E |} in
  let w := Scenario.seen [u "101"] in
  stored (disk w) = Some (list_to_set [u "101"])
  /\ calls_during w (bot_respond E' w).2
     = [EvGetUsersMentions 1 (Ret []); EvGetMe (Ret (Some Scenario.bot))]
  /\ disk (bot_respond E' w).2 = disk w.
Proof.
  intros E E' w. split; [reflexivity|].
  exact (bot_respond_without_mentions E' w _ Scenario.bot eq_refl eq_refl eq_refl).
Defined.

(** ** The event bridge at the edges *)

Lemma quiet_no_create (evs : list event) :
  Forall (fun ev => is_silent ev = true) evs -> List.filter is_create evs = [].
Proof.
  induction 1 as [|ev evs Hev _ IH]; [done|]. simpl. rewrite IH. by destruct ev.
Qed.

Section BridgeEdges.

Variable E : Env.

(** The one v2 call of [safe_post_tweet], when the text needs no cutting. *)
Lemma safe_post_tweet_one_create (w : World) (txt : pystr)
    (mids : option (list pystr)) (reply_to : option Z) :
  len txt <= TWITTER_CHAR_LIMIT ->
  exists r, List.filter is_create
              (calls_during w (safe_post_tweet E txt mids reply_to w).2)
            = [EvCreateTweet (kwargs txt mids reply_to) r].
Proof.
  intros Hshort.
  pose proof (safe_post_tweet_cases E w txt mids reply_to) as Hc.
  cbv zeta in Hc. rewrite (truncate_short txt reply_to Hshort) in Hc.
  destruct (create_tweet E (trace w) _) as [[]|[msg| | | | |]];
    [ | destruct (quota_error (lower msg)) | .. ];
    rewrite Hc; simpl snd;
    rewrite ?calls_during_with_calls, ?calls_during_baseline; by eexists.
Qed.

Lemma post_update_one_create (txt : pystr) (w : World) :
  exists kw r,
    List.filter is_create (calls_during w (post_update E txt w).2)
    = [EvCreateTweet kw r]
    /\ len (text kw) <= TWITTER_CHAR_LIMIT
    /\ (exists body, text kw = body ++ GAME_LINK)
    /\ media_ids kw = None /\ in_reply_to_tweet_id kw = None.
Proof.
  unfold post_update, bind.
  destruct (get_personality_line E w) as [rtag w1] eqn:Htag.
  pose proof (quiet_get_personality_line E w) as Hq. rewrite Htag in Hq.
  destruct Hq as (_ & _ & sil & Ha1 & Hsil).
  destruct (total_get_personality_line E w) as (tag & w1' & Htag').
  rewrite Htag in Htag'. injection Htag' as -> <-.
  set (full := if TWITTER_CHAR_LIMIT <? len _ then _ else _).
  assert (Hfull : len full <= TWITTER_CHAR_LIMIT
                  /\ exists body, full = body ++ GAME_LINK).
  { subst full. destruct (Z.ltb_spec TWITTER_CHAR_LIMIT
                            (len (u "🎮 " ++ BOT_NAME ++ u " UPDATE 🎮" ++ nl ++ nl
                                    ++ txt ++ nl ++ nl ++ tag ++ nl ++ nl ++ GAME_LINK))).
    - split.
      + change (TWITTER_CHAR_LIMIT - len (u "🎮 " ++ nl ++ nl ++ GAME_LINK))
          with 255.
        rewrite !len_app.
        pose proof (len_slice_to_le 255 txt ltac:(lia)) as Hcut.
        change (len (u "🎮 ")) with 2. change (len nl) with 1.
        change (len GAME_LINK) with 21. unfold TWITTER_CHAR_LIMIT. lia.
      + eexists. by rewrite !app_assoc.
    - split; [done|]. eexists. by rewrite !app_assoc. }
  destruct Hfull as [Hlen Hlink].
  destruct (safe_post_tweet_one_create w1 full None None Hlen) as (r & Hone).
  destruct (safe_post_tweet E full None None w1) as [rp w2] eqn:Hpost.
  assert (Ha2 : exists pevs, after pevs w1 w2
                  /\ List.filter is_create pevs
                     = [EvCreateTweet (kwargs full None None) r]).
  { exists (calls_during w1 w2). split; [|exact Hone].
    pose proof (safe_post_tweet_cases E w1 full None None) as Hc.
    cbv zeta in Hc. rewrite Hpost in Hc.
    destruct (create_tweet E (trace w1) _) as [[]|[msg| | | | |]];
      [ | destruct (quota_error (lower msg)) | .. ];
      injection Hc as _ ->;
      rewrite ?calls_during_with_calls, ?calls_during_baseline; reflexivity. }
  destruct Ha2 as (pevs & Ha2 & Hpevs).
  assert (Hall : calls_during w
                   (match rp with
                    | Ret a => ret tt w2
                    | Raise e => (Raise e, w2)
                    end).2 = pevs ++ sil).
  { assert (Hw2 : (match rp with
                   | Ret a => ret tt w2
                   | Raise e => (@Raise unit e, w2)
                   end).2 = w2) by by destruct rp.
    rewrite Hw2. apply after_calls_during. by eapply after_trans. }
  exists (kwargs full None None), r.
  rewrite Hall, List.filter_app, Hpevs, (quiet_no_create sil Hsil).
  by repeat split.
Qed.

(** X15.  [post_update] makes exactly one v2 posting call.  Its text has at
    most 280 code points, so that [safe_post_tweet] cuts nothing, and ends
    with the link to the game; it carries no media and is no reply. *)
Theorem post_update_posts_once (txt : pystr) (w : World) :
  exists body r,
    List.filter is_create (calls_during w (post_update E txt w).2)
    = [EvCreateTweet (kwargs (body ++ GAME_LINK) None None) r]
    /\ len (body ++ GAME_LINK) <= TWITTER_CHAR_LIMIT.
Proof.
  destruct (post_update_one_create txt w)
    as (kw & r & Hone & Hlen & (body & Hlink) & Hmedia & Hreply).
  exists body, r. rewrite <- Hlink. split; [|exact Hlen].
  rewrite Hone. f_equal. destruct kw as [t m i]. simpl in *. by subst.
Qed.

(** X16.  An event object with a type the bridge has no branch for, or
    with no type, is acknowledged with 200 and without a single call. *)
Theorem unknown_event_is_acknowledged (members : list (pystr * json)) (w : World) :
  members <> [] ->
  recognised (match assoc (u "type") members with Some v => v | None => JNull end)
  = false ->
  serve E (Json (JObj members)) w
  = ({| payload := JsonBody (JObj [(u "ok", JBool true)]); status_code := 200 |}, w).
Proof.
  intros Hne Hrec. unfold recognised in Hrec.
  repeat (apply orb_false_iff in Hrec as [Hrec ?]).
  assert (Hrun : game_event_bridge E (JObj members) w = (Ret tt, w)).
  { unfold game_event_bridge, dict_get, bind, ret.
    by repeat match goal with H : is_str _ _ = false |- _ => rewrite H; clear H end. }
  assert (Hv : truthy (JObj members) = true) by by destruct members.
  unfold serve, game_event, request_json, bind, ret, Json. cbn [is_json data].
  rewrite Hv. change (negb true) with false. cbv beta iota. by rewrite Hrun.
Qed.

(** X17.  A JSON body that is true for Python but is not an object (a
    number, a string, an array, true) has no [get]: the bridge raises
    AttributeError at its first line and the request is answered with 500,
    without a call. *)
Theorem non_object_body_is_an_error (v : json) (w : World) :
  truthy v = true -> is_object v = false ->
  serve E (Json v) w = ({| payload := ErrorPage; status_code := 500 |}, w).
Proof.
  intros Hv Hobj. unfold serve, game_event, request_json, bind, ret, Json. cbn [is_json data].
  rewrite Hv. change (negb true) with false. cbv beta iota.
  by destruct v.
Qed.

(** For an event the bridge has a branch for, the bridge is one call of
    [post_update]. *)
Lemma game_event_bridge_is_post_update (members : list (pystr * json)) (w : World) :
  recognised (match assoc (u "type") members with Some v => v | None => JNull end)
  = true ->
  player_fits members ->
  exists msg, game_event_bridge E (JObj members) w = post_update E msg w.
Proof.
  intros Hrec Hfits. unfold recognised in Hrec. unfold player_fits in Hfits.
  unfold game_event_bridge, dict_get, replace_method.
  unfold bind at 1 2 3 4 5. unfold ret at 1 2 3 4 5.
  destruct (is_str _ (u "win")) eqn:Hwin.
  { destruct (assoc (u "player") members) as [[]|]; try discriminate;
      unfold bind, ret; by eexists. }
  simpl in Hrec.
  repeat match goal with
         | |- context [if is_str ?a ?b then _ else _] =>
             destruct (is_str a b); [unfold bind, ret; by eexists|]
         end.
  discriminate.
Qed.

(** X18.  An event object of one of the five known types, whose player can
    be made into a handle, leads to exactly one v2 posting call, with a text
    of at most 280 code points that ends with the link to the game. *)
Theorem game_event_bridge_posts_once (members : list (pystr * json)) (w : World) :
  recognised (match assoc (u "type") members with Some v => v | None => JNull end)
  = true ->
  player_fits members ->
  exists kw r,
    List.filter is_create
      (calls_during w (game_event_bridge E (JObj members) w).2)
    = [EvCreateTweet kw r]
    /\ len (text kw) <= TWITTER_CHAR_LIMIT
    /\ exists body, text kw = body ++ GAME_LINK.
Proof.
  intros Hrec Hfits.
  destruct (game_event_bridge_is_post_update members w Hrec Hfits) as (msg & ->).
  destruct (post_update_one_create msg w) as (kw & r & Hone & Hlen & Hlink & _).
  by exists kw, r.
Qed.

End BridgeEdges.

Lemma unknown_event_is_acknowledged_witness :
  let members := [(u "type", JStr (u "draw")); (u "player", JStr (u "Ada"))] in
  members <> []
  /\ recognised (match assoc (u "type") members with Some v => v | None => JNull end)
     = false
  /\ serve Scenario.all_fine (Json (JObj members)) Scenario.fresh
     = ({| payload := JsonBody (JObj [(u "ok", JBool true)]); status_code := 200 |},
        Scenario.fresh).
Proof.
  intros members.
  assert (Hne : members <> []) by discriminate.
  split; [exact Hne|]. split; [reflexivity|].
  exact (unknown_event_is_acknowledged Scenario.all_fine members Scenario.fresh
           Hne eq_refl).
Defined.

Lemma non_object_body_is_an_error_witness :
  truthy (JArr [JInt 1]) = true /\ is_object (JArr [JInt 1]) = false
  /\ serve Scenario.all_fine (Json (JArr [JInt 1])) Scenario.fresh
     = ({| payload := ErrorPage; status_code := 500 |}, Scenario.fresh).
Proof.
  split; [reflexivity|]. split; [reflexivity|].
  exact (non_object_body_is_an_error Scenario.all_fine (JArr [JInt 1])
           Scenario.fresh eq_refl eq_refl).
Defined.

Lemma game_event_bridge_posts_once_witness :
  let members := [(u "type", JStr (u "tournament")); (u "participants", JInt 64)] in
  recognised (match assoc (u "type") members with Some v => v | None => JNull end)
  = true
  /\ player_fits members
  /\ exists kw r,
       List.filter is_create
         (calls_during Scenario.fresh
            (game_event_bridge Scenario.all_fine (JObj members) Scenario.fresh).2)
       = [EvCreateTweet kw r]
       /\ len (text kw) <= TWITTER_CHAR_LIMIT
       /\ exists body, text kw = body ++ GAME_LINK.
Proof.
  intros members.
  assert (Hfits : player_fits members) by exact I.
  split; [reflexivity|]. split; [exact Hfits|].
  exact (game_event_bridge_posts_once Scenario.all_fine members Scenario.fresh
           eq_refl Hfits).
Defined.

(** ** The diagnostic *)

Section Diagnostic.

Variable E : Env.

Lemma safe_post_tweet_extends (w : World) (txt : pystr) (mids : option (list pystr))
    (reply_to : option Z) :
  let w' := (safe_post_tweet E txt mids reply_to w).2 in
  after (calls_during w w') w w'.
Proof.
  intros w'. subst w'.
  pose proof (safe_post_tweet_cases E w txt mids reply_to) as Hc. cbv zeta in Hc.
  destruct (create_tweet E (trace w) _) as [[]|[msg| | | | |]];
    [ | destruct (quota_error (lower msg)) | .. ];
    rewrite Hc; simpl snd;
    rewrite ?calls_during_with_calls, ?calls_during_baseline; reflexivity.
Qed.

(** A post of a text within the limit, made after calls that only draw
    random numbers: the v2 calls since [w] are that of the post. *)
Lemma one_create_after_draws (w w1 : World) (sil : list event) (txt : pystr)
    (mids : option (list pystr)) (reply_to : option Z) :
  after sil w w1 -> Forall (fun ev => is_silent ev = true) sil ->
  len txt <= TWITTER_CHAR_LIMIT ->
  exists r, List.filter is_create
              (calls_during w (safe_post_tweet E txt mids reply_to w1).2)
            = [EvCreateTweet (kwargs txt mids reply_to) r].
Proof.
  intros Ha Hsil Hlen.
  destruct (safe_post_tweet_one_create E w1 txt mids reply_to Hlen) as (r & Hone).
  exists r.
  pose proof (safe_post_tweet_extends w1 txt mids reply_to) as Hext. cbv zeta in Hext.
  rewrite (after_calls_during _ w _ (after_trans _ _ _ _ _ Ha Hext)).
  by rewrite List.filter_app, Hone, (quiet_no_create sil Hsil).
Qed.

(** The post of [bot_diagnostic] and the tier it names. *)
Lemma bot_diagnostic_post (w : World) :
  exists txt r,
    List.filter is_create (calls_during w (bot_diagnostic E w).2)
    = [EvCreateTweet (kwargs txt None None) r]
    /\ len txt <= TWITTER_CHAR_LIMIT
    /\ contains (if PAID_TIER w then u "System Status: ONLINE (Paid Mode)"
                 else u "System Status: ONLINE (Lite/Free Mode)") txt = true.
Proof.
  unfold bot_diagnostic. unfold bind at 1. unfold get at 1. unfold bind at 1.
  destruct (returns_random_choice E MOTIVATIONAL ltac:(discriminate) w)
    as (mot & w1 & Hmot & Hin).
  pose proof (quiet_random_choice E MOTIVATIONAL w) as Hq.
  rewrite Hmot in *. destruct Hq as (_ & _ & sil & Ha & Hsil). simpl in Ha.
  set (diag := slice_to TWITTER_CHAR_LIMIT _).
  assert (Hlen : len diag <= TWITTER_CHAR_LIMIT) by by apply len_slice_to_le.
  destruct (one_create_after_draws w w1 sil diag None None Ha Hsil Hlen) as (r & Hone).
  exists diag, r.
  assert (Hend : (bind (safe_post_tweet E diag None None) (fun _ => ret tt) w1).2
                 = (safe_post_tweet E diag None None w1).2).
  { unfold bind. by destruct (safe_post_tweet E diag None None w1) as [[]]. }
  rewrite Hend. split; [exact Hone|]. split; [exact Hlen|].
  subst diag. clear -Hin. simpl in Hin.
  destruct (PAID_TIER w);
    repeat (destruct Hin as [<- | Hin]; [vm_compute; reflexivity|]); destruct Hin.
Qed.

(** X19.  [bot_diagnostic] makes one v2 posting call, of at most 280 code
    points, and the status line in it names the tier the bot is in at that
    moment: Paid Mode when PAID_TIER is True, Lite/Free Mode when it is
    False. *)
Theorem bot_diagnostic_names_the_tier (w : World) :
  exists txt r,
    List.filter is_create (calls_during w (bot_diagnostic E w).2)
    = [EvCreateTweet (kwargs txt None None) r]
    /\ len txt <= TWITTER_CHAR_LIMIT
    /\ (PAID_TIER w = true ->
        contains (u "System Status: ONLINE (Paid Mode)") txt = true)
    /\ (PAID_TIER w = false ->
        contains (u "System Status: ONLINE (Lite/Free Mode)") txt = true).
Proof.
  destruct (bot_diagnostic_post w) as (txt & r & Hone & Hlen & Hmode).
  exists txt, r. split; [exact Hone|]. split; [exact Hlen|].
  split; intros Hpaid; by rewrite Hpaid in Hmode.
Qed.

(** X20.  The tier dropped by [safe_post_tweet] is the tier the diagnostic
    reports: once a post has met a quota error, the next diagnostic says
    Lite/Free Mode, even if the bot was started in the paid tier. *)
Theorem diagnostic_after_quota_error (w : World) (txt : pystr)
    (mids : option (list pystr)) (reply_to : option Z) (msg : pystr) :
  create_tweet E (trace w) (kwargs (truncate txt reply_to) mids reply_to)
  = Raise (TweepyException msg) ->
  quota_error (lower msg) = true ->
  let w1 := (safe_post_tweet E txt mids reply_to w).2 in
  exists dtxt r,
    List.filter is_create (calls_during w1 (bot_diagnostic E w1).2)
    = [EvCreateTweet (kwargs dtxt None None) r]
    /\ contains (u "System Status: ONLINE (Lite/Free Mode)") dtxt = true.
Proof.
  intros Hv2 Hq w1.
  assert (Hpaid : PAID_TIER w1 = false).
  { subst w1. by rewrite (safe_post_tweet_quota E w txt mids reply_to msg Hv2 Hq). }
  destruct (bot_diagnostic_post w1) as (dtxt & r & Hone & _ & Hmode).
  exists dtxt, r. split; [exact Hone|]. by rewrite Hpaid in Hmode.
Qed.

End Diagnostic.

Lemma diagnostic_after_quota_error_witness :
  let E := Scenario.failing (u "402 Payment Required") in
  let w := Scenario.fresh in
  let w1 := (safe_post_tweet E (u "hello grid") None None w).2 in
  PAID_TIER w = true
  /\ quota_error (lower (u "402 Payment Required")) = true
  /\ exists dtxt r,
       List.filter is_create (calls_during w1 (bot_diagnostic E w1).2)
       = [EvCreateTweet (kwargs dtxt None None) r]
       /\ contains (u "System Status: ONLINE (Lite/Free Mode)") dtxt = true.
Proof.
  intros E w w1. split; [reflexivity|]. split; [reflexivity|].
  exact (diagnostic_after_quota_error E w (u "hello grid") None None
           (u "402 Payment Required") eq_refl eq_refl).
Defined.

(** ** The media folder *)

Lemma sides_during_aside (scs : list side_call) (s s' : Stage) :
  aside scs s s' -> sides_during s s' = scs.
Proof.
  unfold aside, sides_during. intros ->. rewrite length_app.
  replace (length scs + length (sides s) - length (sides s))%nat
    with (length scs) by lia.
  apply take_app_length.
Qed.

Lemma aside_trans (scs1 scs2 : list side_call) (s1 s2 s3 : Stage) :
  aside scs1 s1 s2 -> aside scs2 s2 s3 -> aside (scs2 ++ scs1) s1 s3.
Proof. unfold aside. intros H1 H2. by rewrite H2, H1, app_assoc. Qed.

Ltac tidy H :=
  cbv beta iota zeta delta [negb] in H; simpl world in H; simpl sides in H.

Section Media.

Variable E : Env.
Variable O : Outside.

(** All that [get_random_media_id] can do. *)
Lemma get_random_media_id_cases (s : Stage) :
  let run := get_random_media_id E O s in
  quiet (world s) (world run.2)
  /\ ((run.1 = Ret None /\ aside [ScExists (Ret false)] s run.2)
      \/ (exists e, run.1 = Raise e
            /\ aside [ScListdir (Raise e); ScExists (Ret true)] s run.2)
      \/ (exists names, List.filter is_media names = [] /\ run.1 = Ret None
            /\ aside [ScListdir (Ret names); ScExists (Ret true)] s run.2)
      \/ (exists names f r, In f names /\ is_media f = true
            /\ run.1 = Ret (match r with Ret mid => Some mid | Raise _ => None end)
            /\ aside [ScMediaUpload (MEDIA_FOLDER ++ f) r; ScListdir (Ret names);
                       ScExists (Ret true)] s run.2)).
Proof.
  intros run. subst run.
  destruct (get_random_media_id E O s) as [r s'] eqn:Hrun. simpl fst. simpl snd.
  unfold get_random_media_id, os_path_exists, os_listdir, api_v1_media_upload,
    jbind, jtry, side, jret, lift in Hrun.
  tidy Hrun.
  destruct (path_exists O (sides s) (trace (world s))); tidy Hrun.
  2: { injection Hrun as <- <-. split; [reflexivity|]. left. split; [done|].
       done. }
  destruct (listdir O _ _) as [names|e] eqn:Hlist; tidy Hrun.
  2: { injection Hrun as <- <-. split; [reflexivity|]. right. left. exists e.
       split; [done|]. done. }
  destruct (List.filter is_media names) as [|f0 files] eqn:Hfiles; tidy Hrun.
  { injection Hrun as <- <-. split; [reflexivity|]. right. right. left.
    exists names. split; [done|]. split; [done|]. done. }
  destruct (returns_random_choice E (f0 :: files) ltac:(discriminate) (world s))
    as (f & w1 & Hchoice & Hin).
  pose proof (quiet_random_choice E (f0 :: files) (world s)) as Hq.
  rewrite Hchoice in Hrun, Hq. simpl in Hq. tidy Hrun.
  assert (Hf : In f names /\ is_media f = true).
  { rewrite <- Hfiles in Hin. by apply List.filter_In in Hin. }
  destruct (media_upload O _ _ _) as [mid|e] eqn:Hup; tidy Hrun;
    injection Hrun as <- <-.
  - split; [exact Hq|]. right. right. right. exists names, f, (Ret mid).
    split; [apply Hf|]. split; [apply Hf|]. split; [done|].
    done.
  - split; [exact Hq|]. right. right. right. exists names, f, (Raise e).
    split; [apply Hf|]. split; [apply Hf|]. split; [done|].
    done.
Qed.

(** X21.  [get_random_media_id] uploads at most one file, and only a file
    of the media folder whose name ends, in any letter case, with .png,
    .jpg, .jpeg, .gif or .mp4.  It returns the id the upload answered; an
    upload that raises, of any kind, makes it return None.  Without a
    listing of the folder that holds such a file, nothing is uploaded. *)
Theorem get_random_media_id_uploads_media_only (s : Stage) :
  let run := get_random_media_id E O s in
  let scs := sides_during s run.2 in
  (length (List.filter is_upload scs) <= 1)%nat
  /\ (forall path r, In (ScMediaUpload path r) scs ->
        (exists names f, In (ScListdir (Ret names)) scs /\ In f names
                         /\ is_media f = true /\ path = MEDIA_FOLDER ++ f)
        /\ run.1 = Ret (match r with Ret mid => Some mid | Raise _ => None end))
  /\ (forall mid, run.1 = Ret (Some mid) ->
        exists path, In (ScMediaUpload path (Ret mid)) scs).
Proof.
  intros run scs. subst scs.
  destruct (get_random_media_id_cases s) as [_ Hcases]. fold run in Hcases.
  destruct Hcases as [[Hr Hs] | [(e & Hr & Hs) | [(names & _ & Hr & Hs)
    | (names & f & r & Hf & Hmedia & Hr & Hs)]]];
    rewrite (sides_during_aside _ _ _ Hs); simpl.
  - split; [lia|]. split; [|by rewrite Hr].
    intros path r [? | []]; discriminate.
  - split; [lia|]. split; [|by rewrite Hr].
    intros path r [? | [? | []]]; discriminate.
  - split; [lia|]. split; [|by rewrite Hr].
    intros path r [? | [? | []]]; discriminate.
  - split; [lia|]. split.
    + intros path r' [[= <- <-] | [? | [? | []]]]; try discriminate.
      split; [|exact Hr]. exists names, f. split; [by right; left|]. done.
    + intros mid Hmid. rewrite Hr in Hmid. destruct r as [mid'|]; [|discriminate].
      injection Hmid as ->. exists (MEDIA_FOLDER ++ f). by left.
Qed.

End Media.

(** ** Posts with media *)

Lemma quietJ_refl (s : Stage) : quietJ s s.
Proof. split; [reflexivity|]. by exists []. Qed.

Lemma quietJ_trans (s1 s2 s3 : Stage) : quietJ s1 s2 -> quietJ s2 s3 -> quietJ s1 s3.
Proof.
  intros [Hq1 (scs1 & Ha1)] [Hq2 (scs2 & Ha2)]. split; [by etransitivity|].
  exists (scs2 ++ scs1). by eapply aside_trans.
Qed.

Lemma settles_ret {A} (P : A -> Prop) (a : A) : P a -> settles P (jret a).
Proof. intros Ha s. exists a, s. split; [done|]. split; [done | apply quietJ_refl]. Qed.

Lemma settles_bind_with {A B} (Pm : A -> Prop) (P : B -> Prop) (m : J A)
    (k : A -> J B) :
  settles Pm m -> (forall a, Pm a -> settles P (k a)) -> settles P (jbind m k).
Proof.
  intros Hm Hk s. unfold jbind.
  destruct (Hm s) as (a & s1 & -> & Ha & Hq1).
  destruct (Hk a Ha s1) as (b & s2 & Hrun & Hb & Hq2).
  exists b, s2. split; [done|]. split; [done | by eapply quietJ_trans].
Qed.

Lemma settles_lift {A} (P : A -> Prop) (m : M A) :
  returns P m -> keeps quiet m -> settles P (lift m).
Proof.
  intros Hm Hq s. unfold lift. specialize (Hq (world s)).
  destruct (Hm (world s)) as (a & w' & Hrun & Ha). rewrite Hrun in *.
  eexists _, _. split; [reflexivity|]. split; [done|].
  split; [exact Hq | by exists []].
Qed.

Lemma settles_weaken {A} (P P' : A -> Prop) (m : J A) :
  (forall a, P a -> P' a) -> settles P m -> settles P' m.
Proof.
  intros Himp Hm s. destruct (Hm s) as (a & s' & Hrun & Ha & Hq).
  exists a, s'. auto.
Qed.

Section WithMedia.

Variable E : Env.
Variable O : Outside.

Lemma settles_random_choice (xs : list pystr) :
  xs <> [] -> settles (fun a => In a xs) (lift (random_choice E xs)).
Proof.
  intros Hxs. apply settles_lift; [by apply returns_random_choice|].
  apply quiet_random_choice.
Qed.

Lemma settles_get_personality_line :
  settles (fun _ => True) (lift (get_personality_line E)).
Proof.
  apply settles_lift; [apply returns_get_personality_line|].
  apply quiet_get_personality_line.
Qed.

Lemma settles_random_random : settles (fun _ => True) (lift (random_random E)).
Proof.
  apply settles_lift; [apply returns_random_random | apply quiet_random_random].
Qed.

Lemma settles_get_time_phrase : settles (fun _ => True) (get_time_phrase O).
Proof.
  intros s. unfold get_time_phrase, datetime_now_hour, jbind, side. cbv zeta.
  assert (Hq : quietJ s {| world := world s;
                           sides := ScNow (Ret (now_hour O (sides s) (trace (world s))))
                                      :: sides s |}).
  { split; [reflexivity|]. by exists [ScNow (Ret (now_hour O (sides s) (trace (world s))))]. }
  repeat case_match; by eexists _, _.
Qed.

(** The v2 call of [safe_post_tweet], whatever the text. *)
Lemma safe_post_tweet_creates (w : World) (txt : pystr) (mids : option (list pystr))
    (reply_to : option Z) :
  exists r, List.filter is_create
              (calls_during w (safe_post_tweet E txt mids reply_to w).2)
            = [EvCreateTweet (kwargs (truncate txt reply_to) mids reply_to) r].
Proof.
  pose proof (safe_post_tweet_cases E w txt mids reply_to) as Hc. cbv zeta in Hc.
  destruct (create_tweet E (trace w) _) as [[]|[msg| | | | |]];
    [ | destruct (quota_error (lower msg)) | .. ];
    rewrite Hc; simpl snd;
    rewrite ?calls_during_with_calls, ?calls_during_baseline; by eexists.
Qed.

(** What [maybe_media] leaves: nothing, an id that was uploaded, or the
    error of the folder listing. *)
Lemma maybe_media_cases (threshold roll : Q) (s : Stage) :
  let run := maybe_media E O threshold roll s in
  quiet (world s) (world run.2)
  /\ exists scs, aside scs s run.2
       /\ ((exists mids, run.1 = Ret mids /\ media_uploaded mids scs
              /\ (if truthy_list mids then mids else None) = mids)
           \/ exists e, run.1 = Raise e /\ In (ScListdir (Raise e)) scs).
Proof.
  intros run. subst run. unfold maybe_media.
  destruct (Qltb threshold roll).
  2: { simpl. split; [reflexivity|]. exists []. split; [done|]. left.
       by exists None. }
  unfold jbind.
  pose proof (get_random_media_id_cases E O s) as [Hq Hcases]. cbv zeta in Hcases.
  destruct (get_random_media_id E O s) as [r s1] eqn:Hrun. simpl in Hq, Hcases.
  destruct Hcases as [[-> Hs] | [(e & -> & Hs) | [(names & _ & -> & Hs)
    | (names & f & r' & _ & _ & -> & Hs)]]]; simpl.
  - split; [done|]. eexists. split; [exact Hs|]. left. by exists None.
  - split; [done|]. eexists. split; [exact Hs|]. right. exists e.
    split; [done | by left].
  - split; [done|]. eexists. split; [exact Hs|]. left. by exists None.
  - destruct r' as [[|c mid]|e]; simpl.
    + split; [done|]. eexists. split; [exact Hs|]. left. by exists None.
    + split; [done|]. eexists. split; [exact Hs|]. left.
      exists (Some [c :: mid]). split; [done|]. split; [|done].
      exists (MEDIA_FOLDER ++ f), (c :: mid). split; [done | by left].
    + split; [done|]. eexists. split; [exact Hs|]. left. by exists None.
Qed.

(** The last four statements of [bot_broadcast] and [bot_hype_commentator]:
    draw, perhaps fetch a media id, post. *)
Let post_with_media (threshold : Q) (msg : pystr) : J unit :=
  roll <~ lift (random_random E) ;;
  mids <~ maybe_media E O threshold roll ;;
  lift (safe_post_tweet E msg mids None) ~;;
  jret tt.

(** Run after a quiet start [s0 .. s]: at most one v2 call since [s0], with
    the text [msg] as [safe_post_tweet] cuts it and with media that were
    uploaded; exactly one when the job returns. *)
Lemma post_with_media_spec (threshold : Q) (msg : pystr) (s0 s : Stage) :
  quietJ s0 s ->
  let run := post_with_media threshold msg s in
  let calls := calls_during (world s0) (world run.2) in
  exists scs, aside scs s0 run.2
    /\ (forall kw r, In (EvCreateTweet kw r) calls ->
          text kw = truncate msg None /\ in_reply_to_tweet_id kw = None
          /\ media_uploaded (media_ids kw) scs)
    /\ (length (List.filter is_create calls) <= 1)%nat
    /\ (run.1 = Ret tt -> exists kw r, List.filter is_create calls = [EvCreateTweet kw r])
    /\ (forall e, run.1 = Raise e ->
          (In (ScListdir (Raise e)) scs /\ List.filter is_create calls = [])
          \/ exists kw, List.filter is_create calls = [EvCreateTweet kw (Raise e)]).
Proof.
  intros [(_ & _ & sil0 & Ha0 & Hsil0) (scs0 & Hs0)] run calls. subst calls run.
  unfold post_with_media, jbind.
  destruct (settles_random_random s) as (roll & s1 & -> & _ & Hq1).
  destruct Hq1 as [(_ & _ & sil1 & Ha1 & Hsil1) (scs1 & Hs1)].
  pose proof (maybe_media_cases threshold roll s1) as [Hq2 (scs2 & Hs2 & Hcases)].
  cbv zeta in Hs2, Hcases.
  destruct (maybe_media E O threshold roll s1) as [rm s2] eqn:Hmedia.
  simpl in Hq2, Hs2, Hcases.
  destruct Hq2 as (_ & _ & sil2 & Ha2 & Hsil2).
  assert (Hsil : after (sil2 ++ sil1 ++ sil0) (world s0) (world s2)).
  { eapply after_trans; [|exact Ha2]. by eapply after_trans. }
  assert (Hsilent : Forall (fun ev => is_silent ev = true) (sil2 ++ sil1 ++ sil0))
    by by rewrite !Forall_app.
  assert (Hscs : aside (scs2 ++ scs1 ++ scs0) s0 s2).
  { eapply aside_trans; [|exact Hs2]. by eapply aside_trans. }
  destruct Hcases as [(mids & -> & Hup & Hmids) | (e & -> & Hlist)].
  2: { simpl. exists (scs2 ++ scs1 ++ scs0). split; [done|].
       rewrite (after_calls_during _ _ _ Hsil), (quiet_no_create _ Hsilent).
       assert (Hnone : forall kw r, ~ In (EvCreateTweet kw r) (sil2 ++ sil1 ++ sil0)).
       { intros kw r Hin. rewrite Forall_forall in Hsilent.
         by apply list_elem_of_In, Hsilent in Hin. }
       split; [intros kw r Hin; by destruct (Hnone kw r)|].
       split; [simpl; lia|]. split; [discriminate|].
       intros e' [= <-]. left. split; [|done].
       rewrite !in_app_iff. by left. }
  unfold lift.
  destruct (safe_post_tweet_creates (world s2) msg mids None) as (r & Hone).
  pose proof (safe_post_tweet_extends E (world s2) msg mids None) as Hext.
  cbv zeta in Hext.
  destruct (safe_post_tweet E msg mids None (world s2)) as [rp w3] eqn:Hpost.
  simpl in Hone, Hext.
  assert (Hcalls : calls_during (world s0) w3
                   = calls_during (world s2) w3 ++ sil2 ++ sil1 ++ sil0).
  { apply after_calls_during. by eapply after_trans. }
  assert (Hcreate : List.filter is_create (calls_during (world s0) w3)
                    = [EvCreateTweet (kwargs (truncate msg None) mids None) r]).
  { by rewrite Hcalls, List.filter_app, Hone, (quiet_no_create _ Hsilent). }
  assert (Hend : exists rj, (match rp with
                   | Ret a => jret tt {| world := w3; sides := sides s2 |}
                   | Raise e => (Raise e, {| world := w3; sides := sides s2 |})
                   end) = (rj, {| world := w3; sides := sides s2 |})
                   /\ ((exists b, rp = Ret b) /\ rj = Ret tt
                       \/ exists e, rp = Raise e /\ rj = Raise e)).
  { destruct rp as [b|e]; eexists; (split; [reflexivity|]); [left | right]; eauto. }
  destruct Hend as (rj & -> & Hrj). simpl.
  exists (scs2 ++ scs1 ++ scs0). split; [exact Hscs|].
  rewrite Hcreate. split; [|split; [simpl; lia|split]].
  - intros kw r' Hin.
    assert (Hin' : In (EvCreateTweet kw r')
                     (List.filter is_create (calls_during (world s0) w3))).
    { apply List.filter_In. by split. }
    rewrite Hcreate in Hin'. destruct Hin' as [[= <- _] | []].
    simpl. split; [done|]. split; [done|]. rewrite Hmids.
    destruct mids as [l|]; [|done]. destruct Hup as (path & mid & -> & Hin2).
    exists path, mid. split; [done|]. unfold aside in Hs2.
    rewrite !in_app_iff. by left.
  - intros _. by eexists _, _.
  - intros e [= ->]. right.
    destruct Hrj as [[_ ?] | (e' & -> & [= <-])]; [discriminate|].
    pose proof (safe_post_tweet_cases E (world s2) msg mids None) as Hc.
    cbv zeta in Hc. rewrite Hpost in Hc.
    destruct (create_tweet E (trace (world s2)) _) as [[]|[m| | | | |]] eqn:Hv2;
      [ | destruct (quota_error (lower m)) | .. ];
      first [ discriminate Hc
            | injection Hc as Hr Hw; subst;
              rewrite ?calls_during_with_calls in Hone; simpl in Hone;
              injection Hone as <-; by eexists ].
Qed.

End WithMedia.

(** ** The broadcast and the hype message *)

Lemma personality_lines_short (t : tone) (line : pystr) :
  In line (PERSONALITY_TONES t) -> len line <= 56.
Proof.
  destruct t; simpl; intros Hin;
    repeat (destruct Hin as [<- | Hin]; [by vm_compute|]); destruct Hin.
Qed.

Lemma phrases_short (phrase : pystr) : In phrase phrases -> len phrase <= 73.
Proof.
  simpl; intros Hin;
    repeat (destruct Hin as [<- | Hin]; [by vm_compute|]); destruct Hin.
Qed.

Section Broadcast.

Variable E : Env.
Variable O : Outside.

Lemma returns_personality_line_known :
  returns (fun line => exists t, In line (PERSONALITY_TONES t))
    (get_personality_line E).
Proof.
  unfold get_personality_line.
  apply (returns_bind_with (fun _ => True)).
  - unfold pick_tone. apply returns_bind; [apply returns_random_random|].
    intros roll. repeat case_match; by apply returns_ret.
  - intros t _.
    eapply returns_weaken; [|apply returns_random_choice; by destruct t].
    intros line Hline. by exists t.
Qed.

(** X22.  [bot_hype_commentator] makes at most one v2 posting call, and
    exactly one when it returns.  The message is never cut: the text of the
    call is the whole message as built, the heading, one of the four
    phrases, a personality line and the link to the game, and it has at
    most 280 code points.  The call is no reply, and it carries media only
    if an upload went through, and then the one id that upload returned:
    an upload that fails does not stop the post. *)
Theorem bot_hype_commentator_posts_once (s : Stage) :
  let run := bot_hype_commentator E O s in
  let calls := calls_during (world s) (world run.2) in
  (length (List.filter is_create calls) <= 1)%nat
  /\ (run.1 = Ret tt ->
      exists kw r, List.filter is_create calls = [EvCreateTweet kw r])
  /\ (forall kw r, In (EvCreateTweet kw r) calls ->
        (exists phrase t line,
           In phrase phrases /\ In line (PERSONALITY_TONES t)
           /\ text kw = u "🕹️ 9DTTT LIVE UPDATE 🕹️" ++ nl ++ nl ++ phrase
                          ++ nl ++ nl ++ line ++ nl ++ nl ++ GAME_LINK)
        /\ len (text kw) <= TWITTER_CHAR_LIMIT
        /\ (exists body, text kw = body ++ GAME_LINK)
        /\ in_reply_to_tweet_id kw = None
        /\ media_uploaded (media_ids kw) (sides_during s run.2)).
Proof.
  intros run calls. subst calls run.
  destruct (settles_random_choice E phrases ltac:(discriminate) s)
    as (phrase & s1 & Hrun1 & Hphrase & Hq1).
  destruct (settles_lift _ _ returns_personality_line_known
              (quiet_get_personality_line E) s1)
    as (line & s2 & Hrun2 & [t Hline] & Hq2).
  set (msg := u "🕹️ 9DTTT LIVE UPDATE 🕹️" ++ nl ++ nl ++ phrase ++ nl ++ nl
                ++ line ++ nl ++ nl ++ GAME_LINK).
  assert (Hlen : len msg <= TWITTER_CHAR_LIMIT).
  { subst msg. rewrite !len_app.
    pose proof (phrases_short phrase Hphrase).
    pose proof (personality_lines_short t line Hline).
    change (len (u "🕹️ 9DTTT LIVE UPDATE 🕹️")) with 23.
    change (len nl) with 1. change (len GAME_LINK) with 21.
    unfold TWITTER_CHAR_LIMIT. lia. }
  assert (Hq : quietJ s s2) by by eapply quietJ_trans.
  pose proof (post_with_media_spec E O (6 # 10) msg s s2 Hq) as Hspec.
  cbv zeta in Hspec.
  match type of Hspec with
  | context [aside _ _ (?m s2).2] =>
      assert (Hrun : bot_hype_commentator E O s = m s2)
  end.
  { unfold bot_hype_commentator. unfold jbind at 1. rewrite Hrun1.
    unfold jbind at 1. by rewrite Hrun2. }
  rewrite Hrun.
  destruct Hspec as (scs & Hs & Hin & Hmost & Hret & _).
  rewrite (sides_during_aside scs _ _ Hs).
  split; [exact Hmost|]. split; [exact Hret|].
  intros kw r Hkw. destruct (Hin kw r Hkw) as (Htext & Hreply & Hmedia).
  rewrite Htext, (truncate_short msg None Hlen).
  split; [by exists phrase, t, line|]. split; [exact Hlen|].
  split; [|done]. subst msg. eexists. by rewrite !app_assoc.
Qed.

(** A job that settles hands its result to what follows, in a stage that
    has only seen draws meanwhile. *)
Lemma settles_then {A B} (P : A -> Prop) (m : J A) (k : A -> J B) (s : Stage) :
  settles P m ->
  exists a s1, P a /\ quietJ s s1 /\ jbind m k s = k a s1.
Proof.
  intros Hm. destruct (Hm s) as (a & s1 & Hrun & Ha & Hq).
  exists a, s1. split; [done|]. split; [done|]. unfold jbind. by rewrite Hrun.
Qed.

Ltac settle_draw :=
  first [ apply settles_get_time_phrase
        | apply settles_get_personality_line
        | apply settles_random_choice; discriminate ].

Ltac settle_link :=
  unfold get_random_event, get_game_fact, get_strategy_tip;
  repeat (eapply settles_bind_with; [settle_draw | intros ? _]);
  apply settles_ret; eexists; by rewrite !app_assoc.

(** X23.  [bot_broadcast] makes at most one v2 posting call, and exactly
    one when it returns.  Whatever kind of message was drawn, the text of
    the call is within the limit and ends with the link to the game, and it
    carries media only if an upload went through. *)
Theorem bot_broadcast_posts_once (s : Stage) :
  let run := bot_broadcast E O s in
  let calls := calls_during (world s) (world run.2) in
  (length (List.filter is_create calls) <= 1)%nat
  /\ (run.1 = Ret tt ->
      exists kw r, List.filter is_create calls = [EvCreateTweet kw r])
  /\ (forall kw r, In (EvCreateTweet kw r) calls ->
        len (text kw) <= TWITTER_CHAR_LIMIT
        /\ (exists body, text kw = body ++ GAME_LINK)
        /\ in_reply_to_tweet_id kw = None
        /\ media_uploaded (media_ids kw) (sides_during s run.2)).
Proof.
  intros run calls. subst calls run. unfold bot_broadcast.
  match goal with
  | |- context [jbind ?m ?k s] =>
      destruct (settles_then (fun _ => True) m k s) as (typ & s1 & _ & Hq1 & ->);
        [eapply settles_weaken; [|apply settles_random_choice; discriminate]; done|]
  end.
  match goal with
  | |- context [jbind ?m ?k s1] =>
      destruct (settles_then (fun msg => exists body, msg = body ++ GAME_LINK)
                  m k s1) as (msg & s2 & Hlink & Hq2 & ->)
  end.
  { repeat case_match; settle_link. }
  match goal with
  | |- context [jbind ?m ?k s2] =>
      destruct (settles_then
                  (fun msg' => len msg' <= TWITTER_CHAR_LIMIT
                               /\ exists body, msg' = body ++ GAME_LINK)
                  m k s2) as (msg' & s3 & [Hlen Hlink'] & Hq3 & ->)
  end.
  { destruct (Z.ltb_spec TWITTER_CHAR_LIMIT (len msg)) as [Hlong | Hfits].
    - cbv zeta. unfold get_random_event.
      eapply settles_bind_with; [settle_draw | intros evt _].
      apply settles_ret. split; [|eexists; by rewrite !app_assoc].
      change (TWITTER_CHAR_LIMIT - len (u "🎮 " ++ nl ++ nl ++ GAME_LINK))
        with 255.
      rewrite !len_app.
      pose proof (len_slice_to_le 255 evt ltac:(lia)) as Hcut.
      change (len (u "🎮 ")) with 2. change (len nl) with 1.
      change (len GAME_LINK) with 21. unfold TWITTER_CHAR_LIMIT. lia.
    - by apply settles_ret. }
  assert (Hq : quietJ s s3).
  { eapply quietJ_trans; [|exact Hq3]. by eapply quietJ_trans. }
  pose proof (post_with_media_spec E O (4 # 10) msg' s s3 Hq) as Hspec.
  cbv zeta in Hspec.
  destruct Hspec as (scs & Hs & Hin & Hmost & Hret & _).
  rewrite (sides_during_aside scs _ _ Hs).
  split; [exact Hmost|]. split; [exact Hret|].
  intros kw r Hkw. destruct (Hin kw r Hkw) as (Htext & Hreply & Hmedia).
  rewrite Htext, (truncate_short msg' None Hlen). done.
Qed.

End Broadcast.

(** In the scene with one picture in the media folder, a hype message whose
    draws are all high is posted with the id the upload returned; when the
    upload is refused it is posted all the same, without media. *)
Example hype_carries_uploaded_media :
  let E := Backstage.env (9 # 10) (Ret tt) in
  let sent O := List.filter is_create
                  (trace (world (bot_hype_commentator E O Backstage.opening).2)) in
  (exists kw, sent (Backstage.outside (Ret (u "m1"))) = [EvCreateTweet kw (Ret tt)]
              /\ media_ids kw = Some [u "m1"])
  /\ (exists kw, sent (Backstage.outside (Raise (OtherException (u "too large"))))
                 = [EvCreateTweet kw (Ret tt)]
                 /\ media_ids kw = None).
Proof. vm_compute. split; eexists; split; reflexivity. Qed.

(** ** The retweet hunt *)

Section Hunt.

Variable E : Env.
Variable O : Outside.

Lemma retweeted_app (scs1 scs2 : list side_call) :
  retweeted (scs2 ++ scs1) = retweeted scs1 ++ retweeted scs2.
Proof. unfold retweeted. by rewrite rev_app_distr, omap_app. Qed.

(** One round of the loop draws once and makes at most one retweet call,
    for the tweet of the round; it returns whatever that call answers. *)
Lemma retweet_one_spec (t : Z) (s : Stage) :
  exists ev scs,
    retweet_one E O t s
      = (Ret tt, {| world := with_calls [ev] (world s); sides := scs ++ sides s |})
    /\ is_random ev = true
    /\ (scs = [] \/ exists r, scs = [ScRetweet t r]).
Proof.
  unfold retweet_one, jbind, lift, random_random, call. cbv zeta beta iota.
  destruct (Qltb _ _).
  - unfold jtry, client_retweet, side. cbv zeta. simpl.
    destruct (retweet O _ _ t) as [[]|e] eqn:Hrt;
      eexists _, [ScRetweet t _]; (split; [reflexivity|]); split; eauto.
  - eexists _, []. split; [reflexivity|]. split; [reflexivity | by left].
Qed.

Lemma for_tweets_spec (ts : list Z) (s : Stage) :
  exists evs scs,
    for_tweets E O ts s
      = (Ret tt, {| world := with_calls evs (world s); sides := scs ++ sides s |})
    /\ length evs = length ts
    /\ Forall (fun ev => is_random ev = true) evs
    /\ Forall (fun sc => is_retweet sc = true) scs
    /\ sublist (retweeted scs) ts.
Proof.
  revert s. induction ts as [|t ts IH]; intros s.
  - exists [], []. destruct s as [[] ?]. repeat split; by constructor.
  - destruct (retweet_one_spec t s) as (ev & scs1 & Hone & Hev & Hscs1).
    simpl. unfold jbind at 1. rewrite Hone.
    destruct (IH {| world := with_calls [ev] (world s); sides := scs1 ++ sides s |})
      as (evs & scs2 & -> & Hlen & Hevs & Hscs2 & Hsub).
    exists (evs ++ [ev]), (scs2 ++ scs1). simpl.
    split; [unfold with_calls; simpl; by rewrite <- !app_assoc|].
    split; [rewrite length_app; simpl; lia|].
    split; [apply Forall_app; split; [done | by constructor]|].
    rewrite retweeted_app.
    destruct Hscs1 as [-> | [r ->]].
    + split; [by rewrite app_nil_r|]. by apply sublist_cons.
    + split; [apply Forall_app; split; [done | by constructor]|].
      by apply sublist_skip.
Qed.

(** X24.  [bot_retweet_hunt] never raises, whatever the search and the
    retweet calls answer.  It searches once; every later call of the run is
    a retweet, the retweeted ids are tweets the search found, in the order
    found, and there is one draw per tweet found, also when a retweet is
    refused.  The v2 client of the posting jobs sees nothing but the draws:
    the hunt posts nothing. *)
Theorem bot_retweet_hunt_only_retweets_found (s : Stage) :
  let run := bot_retweet_hunt E O s in
  let calls := calls_during (world s) (world run.2) in
  run.1 = Ret tt
  /\ Forall (fun ev => is_random ev = true) calls
  /\ exists r scs,
       sides_during s run.2 = scs ++ [ScSearch q 20 r]
       /\ Forall (fun sc => is_retweet sc = true) scs
       /\ match r with
          | Ret tweets => sublist (retweeted scs) tweets
                          /\ length calls = length tweets
          | Raise _ => scs = [] /\ calls = []
          end.
Proof.
  intros run calls. subst calls run.
  set (s1 r := {| world := world s; sides := ScSearch q 20 r :: sides s |}).
  assert (Hcalls0 : calls_during (world s) (world s) = []).
  { by apply after_calls_during. }
  assert (Hsides0 : forall r, sides_during s (s1 r) = [] ++ [ScSearch q 20 r]).
  { intros r. by apply (sides_during_aside [ScSearch q 20 r]). }
  destruct (search_recent_tweets O (sides s) (trace (world s)) q 20)
    as [[|t ts]|e] eqn:Hr.
  - assert (Hrun : bot_retweet_hunt E O s = (Ret tt, s1 (Ret []))).
    { unfold bot_retweet_hunt, jtry, jbind, client_search_recent_tweets, side.
      cbv zeta. by rewrite Hr. }
    rewrite Hrun. cbn [fst snd]. change (world (s1 (Ret []))) with (world s).
    rewrite Hcalls0. split; [done|]. split; [constructor|].
    exists (Ret []), []. rewrite Hsides0. repeat split; by constructor.
  - destruct (for_tweets_spec (t :: ts) (s1 (Ret (t :: ts))))
      as (evs & scs & Hfor & Hlen & Hevs & Hscs & Hsub).
    assert (Hrun : bot_retweet_hunt E O s
                   = (Ret tt, {| world := with_calls evs (world s);
                                 sides := scs ++ sides (s1 (Ret (t :: ts))) |})).
    { unfold bot_retweet_hunt, jtry, jbind at 1, client_search_recent_tweets, side.
      cbv zeta. rewrite Hr. cbv beta iota. fold (s1 (Ret (t :: ts))).
      by rewrite Hfor. }
    rewrite Hrun. cbn [fst snd world]. split; [done|].
    rewrite calls_during_with_calls. split; [done|].
    exists (Ret (t :: ts)), scs.
    split; [|done].
    apply sides_during_aside. unfold aside. simpl. by rewrite <- app_assoc.
  - assert (Hrun : bot_retweet_hunt E O s = (Ret tt, s1 (Raise e))).
    { unfold bot_retweet_hunt, jtry, jbind, client_search_recent_tweets, side.
      cbv zeta. by rewrite Hr. }
    rewrite Hrun. cbn [fst snd]. change (world (s1 (Raise e))) with (world s).
    rewrite Hcalls0. split; [done|]. split; [constructor|].
    exists (Raise e), []. rewrite Hsides0. repeat split; constructor.
Qed.

(** In the scene where tweets 11, 12 and 13 are found and 12 cannot be
    retweeted, a hunt whose draws are all high tries all three in order and
    still returns. *)
Example hunt_goes_on_after_refusal :
  let run := bot_retweet_hunt (Backstage.env (9 # 10) (Ret tt))
               (Backstage.outside (Ret (u "m1"))) Backstage.opening in
  run.1 = Ret tt
  /\ retweeted (sides_during Backstage.opening run.2) = [11; 12; 13]
  /\ In (ScRetweet 12 (Raise (TweepyException (u "403 Forbidden"))))
        (sides run.2).
Proof. vm_compute. repeat split; auto. Qed.

End Hunt.
